(** * Hyperlocal feed engine: models, background passes and their properties

    A shallow embedding of the Python sources
      - [services/models/listing.py], [services/models/heat_index.py],
        [services/models/feed_event.py], [services/models/trade_match.py],
      - [services/core/h3_geo.py],
      - [worker/feed_tasks.py] (ranking, heat, discovery and cleanup
        passes),
      - the endpoints of [services/routers/feed_v2.py] and the channels
        of [services/routers/activity_stream.py].

    Conventions of the embedding.
      - Numbers are exact rationals ([Q]) and computed values are
        compared with [==]: the scores of the passes and the prices.  A
        float that a request carries stands for the decimal that it
        prints as.  Where the rounding of the code decides an outcome it
        is modelled: a [DECIMAL(10, 2)] column stores what [Decimal]
        rounds to, and the sizes of a wishlist are compared as IEEE
        doubles ([PrimFloat]).
      - UUIDs are natural numbers ([N]); [str(uuid)] is the identity.
      - [datetime] values are seconds on a rational time line; a method
        that reads [datetime.utcnow()] takes the clock as an argument.
        SQL compares timestamps as instants.  Python refuses to compare
        or subtract a naive value ([utcnow()]) and a timezone-aware one
        (a loaded [DateTime(timezone=True)] column): [Datetime].
      - [updated_at], which every UPDATE refreshes, is not among the
        columns of the records.
      - A nullable column is an [option]; Python truthiness is written out
        ([Py.truthy], [Py.truthy_str]).
      - A table is the list of its rows; [.first()] returns the first row
        of that list which passes the filter; ORDER BY is a stable
        insertion sort.
      - A handler returns an [outcome]: its response with the database it
        committed, or the exception it raised with nothing committed.
      - What the code calls outside its own sources (the h3 library,
        PostgreSQL's ILIKE, Python's [str.upper] and [float] on strings)
        is a parameter; the laws a property needs of it are its
        hypotheses. *)

From Stdlib Require Import QArith Qminmax Qabs Qround Lqa ZArith Lia Bool.
From Stdlib Require Import String Ascii Sorted.
From Corelib Require Import PrimFloat.
From Stdlib Require Uint63.
From stdpp Require Import base option list gmap strings.

Abbreviation uuid := N.

(** ** Python values *)

Module Py.

(** [bool(x)] of an optional number: [None] and [0] are falsy. *)
Definition truthy (x : option Q) : bool :=
  match x with
  | Some q => negb (Qeq_bool q 0)
  | None => false
  end.

(** [bool(s)] of an optional string: [None] and [''] are falsy. *)
Definition truthy_str (s : option string) : bool :=
  match s with
  | Some s => negb (String.eqb s EmptyString)
  | None => false
  end.

(** [x or 0]. *)
Definition or0 (x : option Q) : Q :=
  match x with
  | Some q => if Qeq_bool q 0 then 0%Q else q
  | None => 0%Q
  end.

(** [float(x)] of a number that is known to be present. *)
Definition float (x : option Q) : Q :=
  match x with
  | Some q => q
  | None => 0%Q
  end.

Definition Qlt_bool (x y : Q) : bool := negb (Qle_bool y x).

(** [int(x)]: truncation toward zero. *)
Definition int (x : Q) : Z := Z.quot (Qnum x) (Zpos (Qden x)).

(** [xs.index(x)]; [None] stands for [ValueError]. *)
Fixpoint index (xs : list string) (x : string) : option nat :=
  match xs with
  | [] => None
  | y :: ys => if String.eqb y x then Some 0%nat else S <$> index ys x
  end.

End Py.

(** ** DECIMAL(10, 2) columns *)

Module Decimal.

(** [q * 100] rounded to the nearest integer, ties away from zero: the
    rounding of PostgreSQL when a value is assigned to a NUMERIC
    column. *)
Definition cents (q : Q) : Z :=
  if Qle_bool 0 q then Qfloor (q * 100 + (1 # 2))
  else (- Qfloor (- q * 100 + (1 # 2)))%Z.

(** What a [DECIMAL(10, 2)] column stores for [q]; [None] stands for the
    error that the insert or update raises on a value of more than eight
    digits before the point ("numeric field overflow"). *)
Definition numeric_10_2 (q : Q) : option Q :=
  let c := cents q in
  if (Z.abs c <? 10 ^ 10)%Z then Some (inject_Z c / 100)%Q else None.

(** The values of a [DECIMAL(10, 2)] column. *)
Definition fits (q : Q) : Prop :=
  ∃ c : Z, (Z.abs c < 10 ^ 10)%Z ∧ (q == inject_Z c / 100)%Q.

End Decimal.

(** ** datetime values *)

Module Datetime.

(** A [datetime]: its instant in seconds and whether it carries a time
    zone.  [datetime.utcnow()] returns a naive value; a column declared
    [DateTime(timezone=True)] comes back from PostgreSQL as an aware
    one. *)
Record t := mk {
  seconds : Q;
  aware : bool
}.

Definition utcnow (clock : Q) : t := mk clock false.

(** A timestamp column as the ORM loads it. *)
Definition loaded (column : Q) : t := mk column true.

(** [(a - b).total_seconds()]; [None] stands for the [TypeError] that
    Python raises when one value is naive and the other aware. *)
Definition sub (a b : t) : option Q :=
  if Bool.eqb (aware a) (aware b) then Some (seconds a - seconds b)%Q
  else None.

(** [a > b], with the same [TypeError]. *)
Definition gt (a b : t) : option bool :=
  if Bool.eqb (aware a) (aware b)
  then Some (Py.Qlt_bool (seconds b) (seconds a))
  else None.

End Datetime.

(** ** services/models/listing.py *)

Module Listing.

Inductive ListingCondition := DS | VNDS | EXCELLENT | GOOD | FAIR | BEAT.
Inductive ListingIntent := SALE | TRADE | BOTH.
Inductive ListingStatus := ACTIVE | PENDING | SOLD | TRADED | EXPIRED | DELETED.

(** The string stored in the [condition] column. *)
Definition condition_name (c : ListingCondition) : string :=
  match c with
  | DS => "DS" | VNDS => "VNDS" | EXCELLENT => "EXCELLENT"
  | GOOD => "GOOD" | FAIR => "FAIR" | BEAT => "BEAT"
  end.

Record t := mk {
  id : uuid;
  user_id : uuid;
  title : string;
  brand : string;
  sku : option string;
  size : string;
  condition : ListingCondition;
  authenticity_score : Z;
  is_verified : bool;
  price : option Q;
  original_price : option Q;
  trade_intent : ListingIntent;
  h3_index : string;
  view_count : Z;
  save_count : Z;
  message_count : Z;
  rank_score : Q;
  demand_score : Q;
  status : ListingStatus;
  created_at : Q
}.

Definition set_prices (p op : option Q) (l : t) : t :=
  mk (id l) (user_id l) (title l) (brand l) (sku l) (size l) (condition l)
     (authenticity_score l) (is_verified l) p op (trade_intent l)
     (h3_index l) (view_count l) (save_count l) (message_count l)
     (rank_score l) (demand_score l) (status l) (created_at l).

Definition set_scores (rank demand : Q) (l : t) : t :=
  mk (id l) (user_id l) (title l) (brand l) (sku l) (size l) (condition l)
     (authenticity_score l) (is_verified l) (price l) (original_price l)
     (trade_intent l) (h3_index l) (view_count l) (save_count l)
     (message_count l) rank demand (status l) (created_at l).

(** [drop_price]: the updated listing and the returned flag. *)
Definition drop_price (new_price : Q) (l : t) : t * bool :=
  if Py.truthy (price l) && Py.Qlt_bool new_price (Py.float (price l)) then
    let original :=
      if negb (Py.truthy (original_price l)) then price l
      else original_price l in
    (set_prices (Some new_price) original l, true)
  else (l, false).

Definition get_price_drop_percent (l : t) : Q :=
  if negb (Py.truthy (original_price l)) || negb (Py.truthy (price l)) then 0%Q
  else ((Py.float (original_price l) - Py.float (price l))
        / Py.float (original_price l) * 100)%Q.

(** Successive calls of [drop_price], the returned flags dropped. *)
Definition drop_prices (new_prices : list Q) (l : t) : t :=
  fold_left (fun l new_price => fst (drop_price new_price l)) new_prices l.

Record ListingSave := mkSave {
  save_user_id : uuid;
  save_listing_id : uuid
}.

End Listing.

(** ** services/models/heat_index.py *)

Module HeatIndex.

Record t := mk {
  h3_index : string;
  save_velocity : option Q;
  dm_velocity : option Q;
  trade_request_velocity : option Q;
  listing_velocity : option Q;
  view_velocity : option Q;
  heat_score : Q;
  heat_level : string
}.

(** The weighted sum of [compute_heat_score], before the cap. *)
Definition weighted_velocities (h : t) : Q :=
  (Py.or0 (save_velocity h) * 25 +
   Py.or0 (dm_velocity h) * 30 +
   Py.or0 (trade_request_velocity h) * 20 +
   Py.or0 (listing_velocity h) * 15 +
   Py.or0 (view_velocity h) * 10)%Q.

Definition level_of (score : Q) : string :=
  if Qle_bool 80 score then "fire"
  else if Qle_bool 60 score then "hot"
  else if Qle_bool 30 score then "warm"
  else "cold".

Definition compute_heat_score (h : t) : t :=
  let score := weighted_velocities h in
  let capped := Qmin 100 score in
  mk (h3_index h) (save_velocity h) (dm_velocity h)
     (trade_request_velocity h) (listing_velocity h) (view_velocity h)
     capped (level_of capped).

End HeatIndex.

(** ** services/models/feed_event.py and the activity query *)

Module FeedEvent.

Record t := mk {
  event_type : string;
  entity_id : uuid;
  h3_index_r7 : option string;
  created_at : Q;
  expires_at : option Q
}.

Definition is_expired (now : Q) (e : t) : bool :=
  match expires_at e with
  | None => false
  | Some at_ => Py.Qlt_bool at_ now
  end.

(** SQL conditions have three values; [None] is SQL's NULL (unknown). *)
Definition sql_bool := option bool.

Definition sql_is_null {A} (x : option A) : sql_bool :=
  match x with
  | None => Some true
  | Some _ => Some false
  end.

Definition sql_gt (x : option Q) (y : Q) : sql_bool :=
  match x with
  | Some v => Some (Py.Qlt_bool y v)
  | None => None
  end.

Definition sql_or (a b : sql_bool) : sql_bool :=
  match a, b with
  | Some true, _ | _, Some true => Some true
  | Some false, Some false => Some false
  | _, _ => None
  end.

(** A row passes a WHERE clause when the condition is true (not unknown). *)
Definition sql_where (c : sql_bool) : bool :=
  match c with
  | Some true => true
  | _ => false
  end.

(** [or_(FeedEvent.expires_at.is_(None), FeedEvent.expires_at > utcnow())]
    of [get_activity_ribbon]. *)
Definition non_expired (now : Q) (e : t) : bool :=
  sql_where (sql_or (sql_is_null (expires_at e)) (sql_gt (expires_at e) now)).

(** The rows the filter keeps. *)
Definition exclude_expired (now : Q) (events : list t) : list t :=
  List.filter (non_expired now) events.

End FeedEvent.

(** ** services/models/trade_match.py *)

Module TradeMatch.

Inductive MatchType := TWO_WAY | THREE_WAY.

Inductive MatchStatus :=
  SUGGESTED | VIEWED | PENDING | ACCEPTED | COMPLETED | DECLINED | EXPIRED.

Definition status_eqb (a b : MatchStatus) : bool :=
  match a, b with
  | SUGGESTED, SUGGESTED | VIEWED, VIEWED | PENDING, PENDING
  | ACCEPTED, ACCEPTED | COMPLETED, COMPLETED | DECLINED, DECLINED
  | EXPIRED, EXPIRED => true
  | _, _ => false
  end.

Record participant := mkParticipant {
  p_user_id : uuid;
  offers_listing_id : uuid;
  wants_listing_id : uuid;
  offers_title : string;
  wants_title : string
}.

(** One value of the [acceptances] JSON object; [declined] is [None] when
    the key is not written. *)
Record acceptance := mkAcceptance {
  accepted : bool;
  declined : option bool;
  at_ : Q
}.

(** The row without its random primary key. *)
Record t := mk {
  match_type : MatchType;
  participants : list participant;
  user_ids : list uuid;
  listing_ids : list uuid;
  h3_common : option string;
  locality_score : Z;
  max_distance_miles : option Q;
  match_score : Q;
  value_balance : Q;
  status : MatchStatus;
  acceptances : option (gmap N acceptance);
  expires_at : option Q;
  completed_at : option Q
}.

Definition set_status (s : MatchStatus) (m : t) : t :=
  mk (match_type m) (participants m) (user_ids m) (listing_ids m)
     (h3_common m) (locality_score m) (max_distance_miles m)
     (match_score m) (value_balance m) s (acceptances m) (expires_at m)
     (completed_at m).

Definition set_acceptances (a : gmap N acceptance) (m : t) : t :=
  mk (match_type m) (participants m) (user_ids m) (listing_ids m)
     (h3_common m) (locality_score m) (max_distance_miles m)
     (match_score m) (value_balance m) (status m) (Some a) (expires_at m)
     (completed_at m).

Definition set_completed_at (c : Q) (m : t) : t :=
  mk (match_type m) (participants m) (user_ids m) (listing_ids m)
     (h3_common m) (locality_score m) (max_distance_miles m)
     (match_score m) (value_balance m) (status m) (acceptances m)
     (expires_at m) (Some c).

Definition set_scores (score balance : Q) (m : t) : t :=
  mk (match_type m) (participants m) (user_ids m) (listing_ids m)
     (h3_common m) (locality_score m) (max_distance_miles m)
     score balance (status m) (acceptances m) (expires_at m)
     (completed_at m).

(** [is_expired].  [expires_at] is timezone-aware on a row that was read
    from the table ([loaded]) and naive on the object that
    [create_two_way] has just built; [None] stands for the [TypeError]
    of comparing it with the naive [utcnow()]. *)
Definition is_expired (clock : Q) (loaded : bool) (m : t) : option bool :=
  match expires_at m with
  | None => Some false
  | Some at_ => Datetime.gt (Datetime.utcnow clock) (Datetime.mk at_ loaded)
  end.

Definition record_view (user_id : uuid) (m : t) : t :=
  if status_eqb (status m) SUGGESTED then set_status VIEWED m else m.

(** [if not self.acceptances: self.acceptances = {}] *)
Definition acceptances_or_empty (m : t) : gmap N acceptance :=
  default ∅ (acceptances m).

(** [self.acceptances.get(str(uid), {}).get("accepted", False)] *)
Definition has_accepted (a : gmap N acceptance) (uid : uuid) : bool :=
  match a !! uid with
  | Some e => accepted e
  | None => false
  end.

Definition record_acceptance (now : Q) (user_id : uuid) (m : t) : t :=
  let a := <[user_id := mkAcceptance true None now]> (acceptances_or_empty m) in
  let m1 := set_acceptances a m in
  let all_accepted := forallb (has_accepted a) (user_ids m1) in
  if all_accepted then set_status ACCEPTED m1
  else if status_eqb (status m1) SUGGESTED || status_eqb (status m1) VIEWED
       then set_status PENDING m1
  else m1.

Definition record_decline (now : Q) (user_id : uuid) (m : t) : t :=
  let a := <[user_id := mkAcceptance false (Some true) now]> (acceptances_or_empty m) in
  set_status DECLINED (set_acceptances a m).

Definition complete (now : Q) (m : t) : t :=
  set_completed_at now (set_status COMPLETED m).

Definition days (n : Q) : Q := (n * 86400)%Q.

(** [create_two_way], with the column defaults that the insert fills in
    ([status], [match_score], [value_balance]). *)
Definition create_two_way (now : Q)
    (user_a_id user_b_id listing_a_id listing_b_id : uuid)
    (listing_a_title listing_b_title : string)
    (h3_common : option string) (locality_score : Z)
    (max_distance : option Q) : t :=
  mk TWO_WAY
     [ mkParticipant user_a_id listing_a_id listing_b_id
         listing_a_title listing_b_title;
       mkParticipant user_b_id listing_b_id listing_a_id
         listing_b_title listing_a_title ]
     [user_a_id; user_b_id]
     [listing_a_id; listing_b_id]
     h3_common locality_score max_distance
     0%Q 0%Q SUGGESTED None
     (Some (now + days 7)%Q) None.

End TradeMatch.

(** [UserWishlist], the second model of trade_match.py *)

Module UserWishlist.

Record t := mk {
  sku : option string;
  brand : option string;
  size : option string;
  size_flexible : bool;
  max_price : option Q;
  min_condition : option string
}.

Definition condition_order : list string :=
  ["DS"; "VNDS"; "EXCELLENT"; "GOOD"; "FAIR"; "BEAT"]%string.

(** [abs(want_size - have_size) > 0.5] on two doubles; it is [False]
    when one of them is [nan]. *)
Definition too_far (want_size have_size : float) : bool :=
  PrimFloat.ltb 0.5%float (PrimFloat.abs (PrimFloat.sub want_size have_size)).

Section Matching.

(** Two built-ins of Python: [str.upper], which follows the case mapping
    of Unicode, and [float(s)] on a string, whose values are the doubles,
    [nan] and the infinities among them; [None] stands for
    [ValueError]. *)
Variable upper : string → string.
Variable float_of_str : string → option float.

Definition sku_ok (w : t) (l : Listing.t) : bool :=
  if Py.truthy_str (sku w) && Py.truthy_str (Listing.sku l) then
    String.eqb (upper (default EmptyString (sku w)))
               (upper (default EmptyString (Listing.sku l)))
  else true.

Definition brand_ok (w : t) (l : Listing.t) : bool :=
  if Py.truthy_str (brand w) && Py.truthy_str (Some (Listing.brand l)) then
    String.eqb (upper (default EmptyString (brand w)))
               (upper (Listing.brand l))
  else true.

Definition size_ok (w : t) (l : Listing.t) : bool :=
  if Py.truthy_str (size w) && Py.truthy_str (Some (Listing.size l)) then
    let want := default EmptyString (size w) in
    let have := Listing.size l in
    if negb (size_flexible w) then String.eqb want have
    else
      match float_of_str want, float_of_str have with
      | Some want_size, Some have_size => negb (too_far want_size have_size)
      | _, _ => String.eqb want have
      end
  else true.

Definition price_ok (w : t) (l : Listing.t) : bool :=
  if Py.truthy (max_price w) && Py.truthy (Listing.price l) then
    Qle_bool (Py.float (Listing.price l)) (Py.float (max_price w))
  else true.

Definition condition_ok (w : t) (l : Listing.t) : bool :=
  if Py.truthy_str (min_condition w) then
    match Py.index condition_order (default EmptyString (min_condition w)),
          Py.index condition_order (Listing.condition_name (Listing.condition l)) with
    | Some min_idx, Some listing_idx => negb (min_idx <? listing_idx)%nat
    | _, _ => true
    end
  else true.

(** The early returns of [matches_listing], in order. *)
Definition matches_listing (w : t) (l : Listing.t) : bool :=
  if negb (sku_ok w l) then false
  else if negb (brand_ok w l) then false
  else if negb (size_ok w l) then false
  else if negb (price_ok w l) then false
  else if negb (condition_ok w l) then false
  else true.

End Matching.

End UserWishlist.

(** ** services/core/h3_geo.py *)

Module H3Geo.

Definition DEFAULT_RESOLUTION : Z := 9.

(** A dictionary with float keys, as its items. *)
Definition RADIUS_TO_RESOLUTION : list (Q * Z) :=
  [(0.25%Q, 9%Z); (0.5%Q, 9%Z); (1%Q, 8%Z); (3%Q, 7%Z); (5%Q, 7%Z)].

Definition RADIUS_TO_KRING : list (Q * Z) :=
  [(0.25%Q, 0%Z); (0.5%Q, 1%Z); (1%Q, 3%Z); (3%Q, 8%Z); (5%Q, 13%Z)].

(** [d.get(key, default)] *)
Definition dict_get (d : list (Q * Z)) (key : Q) (default : Z) : Z :=
  match List.find (fun kv => Qeq_bool (fst kv) key) d with
  | Some kv => snd kv
  | None => default
  end.

(** The [k] that [get_radius_hexes] passes to [h3.k_ring]. *)
Definition kring_size (radius_miles : Q) : Z :=
  dict_get RADIUS_TO_KRING radius_miles (Py.int (radius_miles * 2.5)).

Section H3.

(** The h3 library: cells, [h3.geo_to_h3] and [h3.k_ring]. *)
Variable cell : Type.
Variable geo_to_h3 : Q → Q → Z → cell.
Variable k_ring : cell → Z → list cell.

Definition get_radius_hexes (lat lng radius_miles : Q) (resolution : Z)
    : list cell :=
  let center_hex := geo_to_h3 lat lng resolution in
  let k := kring_size radius_miles in
  k_ring center_hex k.

End H3.

Arguments get_radius_hexes {cell} geo_to_h3 k_ring lat lng radius_miles resolution.

Definition get_resolution_for_radius (radius_miles : Q) : Z :=
  if Qle_bool radius_miles 0.5 then 9
  else if Qle_bool radius_miles 1.5 then 8
  else if Qle_bool radius_miles 5 then 7
  else 6.

End H3Geo.

(** ** worker/feed_tasks.py *)

Module FeedTasks.

(** The tables the passes read and write. *)
Record DB := mkDB {
  users : list uuid;
  listings : list Listing.t;
  listing_saves : list Listing.ListingSave;
  heat_indexes : list HeatIndex.t;
  trade_matches : list TradeMatch.t
}.

Definition set_listings (ls : list Listing.t) (db : DB) : DB :=
  mkDB (users db) ls (listing_saves db) (heat_indexes db) (trade_matches db).

Definition set_trade_matches (ms : list TradeMatch.t) (db : DB) : DB :=
  mkDB (users db) (listings db) (listing_saves db) (heat_indexes db) ms.

Definition is_active (l : Listing.t) : bool :=
  match Listing.status l with
  | Listing.ACTIVE => true
  | _ => false
  end.

(** [Listing.trade_intent.in_(['TRADE', 'BOTH'])] *)
Definition trade_intent_in (l : Listing.t) : bool :=
  match Listing.trade_intent l with
  | Listing.TRADE | Listing.BOTH => true
  | Listing.SALE => false
  end.

(** *** compute_listing_rankings *)

(** [max((... for listing in listings), default=1) or 1] *)
Definition max_or_1 (xs : list Z) : Z :=
  let m := match xs with
           | [] => 1%Z
           | x :: xs' => fold_left Z.max xs' x
           end in
  if (m =? 0)%Z then 1%Z else m.

Definition heat_index_of (db : DB) (l : Listing.t) : option HeatIndex.t :=
  List.find (fun h => String.eqb (HeatIndex.h3_index h) (Listing.h3_index l))
            (heat_indexes db).

Definition engagement_score (max_saves max_messages max_views : Z)
    (l : Listing.t) : Q :=
  let save_score := (inject_Z (Listing.save_count l) / inject_Z max_saves * 15)%Q in
  let message_score := (inject_Z (Listing.message_count l) / inject_Z max_messages * 10)%Q in
  let view_score := (inject_Z (Listing.view_count l) / inject_Z max_views * 5)%Q in
  (save_score + message_score + view_score)%Q.

Definition demand_score (db : DB) (l : Listing.t) : Q :=
  match heat_index_of db l with
  | Some heat_index => (HeatIndex.heat_score heat_index / 100 * 20)%Q
  | None => 0%Q
  end.

(** [max(0, 10 * (1 - (age_hours / 168)))] *)
Definition freshness_score (age_hours : Q) : Q :=
  Qmax 0 (10 * (1 - age_hours / 168))%Q.

(** [(now - listing.created_at).total_seconds() / 3600] on a listing that
    the query loaded; [None] is the [TypeError] of the subtraction. *)
Definition age_hours (now : Datetime.t) (l : Listing.t) : option Q :=
  match Datetime.sub now (Datetime.loaded (Listing.created_at l)) with
  | Some s => Some (s / 3600)%Q
  | None => None
  end.

Definition auth_score (l : Listing.t) : Q :=
  (inject_Z (Listing.authenticity_score l) / 10)%Q.

Definition verified_bonus (l : Listing.t) : Q :=
  if Listing.is_verified l then 5%Q else 0%Q.

Definition price_drop_bonus (l : Listing.t) : Q :=
  if Py.truthy (Listing.original_price l) && Py.truthy (Listing.price l) then
    let drop_percent := Listing.get_price_drop_percent l in
    if Py.Qlt_bool 10 drop_percent then Qmin 5 (drop_percent / 5)%Q else 0%Q
  else 0%Q.

(** The sum that the loop assigns to [rank_score], for a given age. *)
Definition total_rank_score (db : DB) (max_saves max_messages max_views : Z)
    (age : Q) (l : Listing.t) : Q :=
  (engagement_score max_saves max_messages max_views l +
   demand_score db l + freshness_score age + auth_score l +
   verified_bonus l + price_drop_bonus l)%Q.

(** The body of the loop over the batch; [None] when it raises. *)
Definition rank_listing (db : DB) (max_saves max_messages max_views : Z)
    (now : Datetime.t) (l : Listing.t) : option Listing.t :=
  match age_hours now l with
  | Some age =>
      Some (Listing.set_scores
              (total_rank_score db max_saves max_messages max_views age l)
              (demand_score db l) l)
  | None => None
  end.

(** The rows that the query selects: active, and in one of [h3_indexes]
    when that list is given and not empty. *)
Definition selected (h3_indexes : option (list string)) (l : Listing.t) : bool :=
  is_active l &&
  match h3_indexes with
  | None | Some [] => true
  | Some hs => existsb (String.eqb (Listing.h3_index l)) hs
  end.

(** What a task gives back: its result with the database it committed,
    or the exception that its [except] branch logs and hands to
    [self.retry]; nothing is committed then. *)
Inductive result (A : Type) :=
| Done (a : A)
| Retry (exc : string).

Arguments Done {A} a.
Arguments Retry {A} exc.

(** The database after a task. *)
Definition committed {A} (db : DB) (r : result (DB * A)) : DB :=
  match r with
  | Done (db', _) => db'
  | Retry _ => db
  end.

(** The pass: the batch is ranked and written back with one commit after
    the loop; other rows stay. *)
Definition compute_listing_rankings (h3_indexes : option (list string))
    (clock : Q) (db : DB) : result (DB * nat) :=
  let batch := List.filter (selected h3_indexes) (listings db) in
  let max_saves := max_or_1 (map Listing.save_count batch) in
  let max_messages := max_or_1 (map Listing.message_count batch) in
  let max_views := max_or_1 (map Listing.view_count batch) in
  let now := Datetime.utcnow clock in
  match
    mapM (fun l => if selected h3_indexes l
                   then rank_listing db max_saves max_messages max_views now l
                   else Some l) (listings db)
  with
  | Some ranked => Done (set_listings ranked db, length batch)
  | None => Retry "TypeError"
  end.

(** *** find_trade_matches *)

(** PostgreSQL's [@>], which [ARRAY.contains] emits: every element of
    [ys] equals some element of [xs]; order and repetition do not count. *)
Definition array_contains (xs ys : list uuid) : bool :=
  forallb (fun y => existsb (N.eqb y) xs) ys.

Definition trade_eligible (l : Listing.t) : bool :=
  is_active l && trade_intent_in l.

(** The users of one pass: the requested user (a missing row gives
    [None], which the loop skips), or up to 100 users who own an active
    trade listing. *)
Definition users_to_process (user_id : option uuid) (db : DB)
    : list (option uuid) :=
  match user_id with
  | Some u => [List.find (N.eqb u) (users db)]
  | None =>
      map Some
        (firstn 100
           (nodup N.eq_dec
              (List.filter
                 (fun u => existsb
                    (fun l => N.eqb (Listing.user_id l) u && trade_eligible l)
                    (listings db))
                 (users db))))
  end.

Definition user_listings (db : DB) (user : uuid) : list Listing.t :=
  List.filter (fun l => N.eqb (Listing.user_id l) user && trade_eligible l)
              (listings db).

(** [user] has a row in [listing_saves] for the listing. *)
Definition has_saved (db : DB) (user : uuid) (l : Listing.t) : bool :=
  existsb
    (fun s => N.eqb (Listing.save_listing_id s) (Listing.id l)
              && N.eqb (Listing.save_user_id s) user)
    (listing_saves db).

(** The join of listings with the user's saves; a user saves a listing
    at most once (unique index), so a listing appears at most once. *)
Definition saved_listings (db : DB) (user : uuid) : list Listing.t :=
  List.filter (fun l => has_saved db user l && trade_eligible l)
              (listings db).

Section Discovery.

(** [h3.h3_distance]; [None] stands for the exception it raises. *)
Variable h3_distance : string → string → option Z.

Definition locality_of (user_offers wanted : Listing.t) : Z :=
  match h3_distance (Listing.h3_index user_offers) (Listing.h3_index wanted) with
  | Some distance => Z.max 0 (100 - distance * 10)
  | None => 50
  end.

(** The match that is built and scored for one reciprocal pair. *)
Definition new_two_way (now : Q) (user : uuid)
    (user_offers wanted : Listing.t) : TradeMatch.t :=
  let locality_score := locality_of user_offers wanted in
  let m :=
    TradeMatch.create_two_way now
      user (Listing.user_id wanted)
      (Listing.id user_offers) (Listing.id wanted)
      (Listing.title user_offers) (Listing.title wanted)
      (if (80 <? locality_score)%Z then Some (Listing.h3_index user_offers)
       else None)
      locality_score None in
  let match_score := (inject_Z locality_score * 0.5)%Q in
  if Py.truthy (Listing.price user_offers) && Py.truthy (Listing.price wanted)
  then
    let ratio :=
      (Qmin (Py.float (Listing.price user_offers)) (Py.float (Listing.price wanted))
       / Qmax (Py.float (Listing.price user_offers)) (Py.float (Listing.price wanted)))%Q in
    TradeMatch.set_scores (match_score + ratio * 50)%Q ratio m
  else TradeMatch.set_scores match_score (TradeMatch.value_balance m) m.

(** [TradeMatch.listing_ids.contains([a, b])] over the match table. *)
Definition existing (ms : list TradeMatch.t) (a b : uuid)
    : option TradeMatch.t :=
  List.find (fun m => array_contains (TradeMatch.listing_ids m) [a; b]) ms.

(** The body of the loop over [saved_listings]: the match table and the
    counter [matches_created] before and after. *)
Definition consider_wanted (now : Q) (db : DB) (user : uuid)
    (offers : list Listing.t)
    (st : list TradeMatch.t * nat) (wanted : Listing.t)
    : list TradeMatch.t * nat :=
  if N.eqb (Listing.user_id wanted) user then st
  else
    match List.find
            (fun s => N.eqb (Listing.save_user_id s) (Listing.user_id wanted)
                      && existsb (N.eqb (Listing.save_listing_id s))
                           (map Listing.id offers))
            (listing_saves db) with
    | None => st
    | Some other_user_saves =>
        match List.find
                (fun l => N.eqb (Listing.id l)
                            (Listing.save_listing_id other_user_saves))
                (listings db) with
        | None => st
        | Some user_offers =>
            match existing (fst st) (Listing.id user_offers) (Listing.id wanted) with
            | Some _ => st
            | None =>
                (fst st ++ [new_two_way now user user_offers wanted],
                 S (snd st))
            end
        end
    end.

(** The body of the loop over [users]. *)
Definition process_user (now : Q) (db : DB)
    (st : list TradeMatch.t * nat) (user : option uuid)
    : list TradeMatch.t * nat :=
  match user with
  | None => st
  | Some u =>
      fold_left (consider_wanted now db u (user_listings db u))
                (saved_listings db u) st
  end.

(** The pass: the new database and [matches_created]. *)
Definition find_trade_matches (user_id : option uuid) (now : Q) (db : DB)
    : DB * nat :=
  let st := fold_left (process_user now db) (users_to_process user_id db)
                      (trade_matches db, 0%nat) in
  (set_trade_matches (fst st) db, snd st).

End Discovery.

(** *** cleanup_expired_feed_data, the trade-match part *)

(** [TradeMatch.expires_at < now] and a status in SUGGESTED, VIEWED,
    PENDING; a NULL [expires_at] never compares true. *)
Definition expire (now : Q) (m : TradeMatch.t) : TradeMatch.t :=
  match TradeMatch.expires_at m with
  | Some at_ =>
      if Py.Qlt_bool at_ now &&
         match TradeMatch.status m with
         | TradeMatch.SUGGESTED | TradeMatch.VIEWED | TradeMatch.PENDING => true
         | _ => false
         end
      then TradeMatch.set_status TradeMatch.EXPIRED m
      else m
  | None => m
  end.

Definition expire_matches (now : Q) (db : DB) : DB :=
  set_trade_matches (map (expire now) (trade_matches db)) db.

End FeedTasks.

(** ** A lattice that behaves like the h3 library *)

(** Cells of a plane hexagonal lattice in axial coordinates, one lattice
    per resolution.  It has the properties of h3 that the statements below
    assume, which shows that they can be met, and it gives the functions
    of [H3Geo] something to run on. *)
Module GridH3.

Definition cell : Type := Z * (Z * Z).

Definition h3_get_resolution (c : cell) : Z := fst c.

Definition geo_to_h3 (lat lng : Q) (resolution : Z) : cell :=
  (resolution, (Qfloor lat, Qfloor lng)).

(** The number of steps from the origin to the offset [(dq, dr)]. *)
Definition steps (dq dr : Z) : Z :=
  Z.max (Z.abs dq) (Z.max (Z.abs dr) (Z.abs (dq + dr))).

Definition k_ring (c : cell) (k : Z) : list cell :=
  flat_map
    (fun dq =>
       flat_map
         (fun dr =>
            if (steps dq dr <=? k)%Z
            then [(fst c, (fst (snd c) + dq, snd (snd c) + dr)%Z)]
            else [])
         (seqZ (- k) (2 * k + 1)))
    (seqZ (- k) (2 * k + 1)).

Definition h3_distance (a b : cell) : option Z :=
  if (fst a =? fst b)%Z
  then Some (steps (fst (snd b) - fst (snd a)) (snd (snd b) - snd (snd a)))
  else None.

End GridH3.

(** ** The wishlist predicate as a relation *)

Module WishlistSpec.

Import UserWishlist.

(** The scale, best first; a condition is at least as good as another
    when it does not come later. *)
Definition position (c : string) : option nat := Py.index condition_order c.

Section Relations.

Variable upper : string → string.
Variable float_of_str : string → option float.

(** Following the spec's words: the same text, or, for a flexible
    wishlist, two numbers at most 0.5 apart. *)
Definition size_within_half (w : t) (want have : string) : Prop :=
  want = have ∨
  (size_flexible w = true ∧
   ∃ a b, float_of_str want = Some a ∧ float_of_str have = Some b ∧
          PrimFloat.leb (PrimFloat.abs (PrimFloat.sub a b)) 0.5%float = true).

(** Following the spec's words: every field that the wishlist
    specifies must match the listing. *)
Definition matches_listing_spec (w : t) (l : Listing.t) : Prop :=
  (∀ s, sku w = Some s →
     ∃ s', Listing.sku l = Some s' ∧ upper s = upper s') ∧
  (∀ b, brand w = Some b → upper b = upper (Listing.brand l)) ∧
  (∀ s, size w = Some s → size_within_half w s (Listing.size l)) ∧
  (∀ p, max_price w = Some p →
     ∃ q, Listing.price l = Some q ∧ (q <= p)%Q) ∧
  (∀ c, min_condition w = Some c →
     ∃ i j, position c = Some i ∧
            position (Listing.condition_name (Listing.condition l)) = Some j ∧
            (j ≤ i)%nat).

(** The sizes are compared as numbers when the wishlist is flexible and
    [float] accepts both texts. *)
Definition compared_as_numbers (w : t) (want have : string) : Prop :=
  size_flexible w = true ∧
  is_Some (float_of_str want) ∧ is_Some (float_of_str have).

(** Sizes that agree, as the code has it: compared as numbers, the
    difference of the two doubles is not greater than 0.5; otherwise the
    texts are the same. *)
Definition size_agrees (w : t) (want have : string) : Prop :=
  (∃ a b, size_flexible w = true ∧
          float_of_str want = Some a ∧ float_of_str have = Some b ∧
          too_far a b = false) ∨
  (¬ compared_as_numbers w want have ∧ want = have).

(** What the code checks: a field constrains the listing only when
    both the wishlist and the listing carry a value for it (a text
    that is not empty, a number that is not zero), and a minimum
    condition only when it is one of the scale. *)
Definition matches_listing_rel (w : t) (l : Listing.t) : Prop :=
  (∀ s s', sku w = Some s → s ≠ EmptyString →
     Listing.sku l = Some s' → s' ≠ EmptyString →
     upper s = upper s') ∧
  (∀ b, brand w = Some b → b ≠ EmptyString →
     Listing.brand l ≠ EmptyString →
     upper b = upper (Listing.brand l)) ∧
  (∀ s, size w = Some s → s ≠ EmptyString →
     Listing.size l ≠ EmptyString →
     size_agrees w s (Listing.size l)) ∧
  (∀ p q, max_price w = Some p → ¬ (p == 0)%Q →
     Listing.price l = Some q → ¬ (q == 0)%Q → (q <= p)%Q) ∧
  (∀ c i, min_condition w = Some c → position c = Some i →
     ∃ j, position (Listing.condition_name (Listing.condition l)) = Some j ∧
          (j ≤ i)%nat).

End Relations.

End WishlistSpec.

(** ** The life of a trade match *)

Module Lifecycle.

Import TradeMatch.

(** The statuses at which a match is over; the trade-match query of the
    router lists the other four as the active ones. *)
Definition terminal (s : MatchStatus) : bool :=
  match s with
  | COMPLETED | DECLINED | EXPIRED => true
  | SUGGESTED | VIEWED | PENDING | ACCEPTED => false
  end.

(** The position in SUGGESTED < VIEWED < PENDING < ACCEPTED < COMPLETED. *)
Definition stage (s : MatchStatus) : option nat :=
  match s with
  | SUGGESTED => Some 0%nat
  | VIEWED => Some 1%nat
  | PENDING => Some 2%nat
  | ACCEPTED => Some 3%nat
  | COMPLETED => Some 4%nat
  | DECLINED | EXPIRED => None
  end.

(** A change from [s] to [s'] that goes back in that order. *)
Definition backward (s s' : MatchStatus) : bool :=
  match stage s, stage s' with
  | Some a, Some b => (b <? a)%nat
  | _, _ => false
  end.

(** The operations that write [status]. *)
Inductive op :=
| RecordView (user_id : uuid)
| RecordAcceptance (now : Q) (user_id : uuid)
| RecordDecline (now : Q) (user_id : uuid)
| Complete (now : Q)
| Expire (now : Q).

Definition step (m : t) (o : op) : t :=
  match o with
  | RecordView u => record_view u m
  | RecordAcceptance now u => record_acceptance now u m
  | RecordDecline now u => record_decline now u m
  | Complete now => complete now m
  | Expire now => FeedTasks.expire now m
  end.

Definition run (ops : list op) (m : t) : t := fold_left step ops m.

(** Every user of [user_ids] has an entry in [acceptances] that says
    accepted. *)
Definition everyone_accepted (m : t) : Prop :=
  ∀ uid, In uid (user_ids m) →
    ∃ a e, acceptances m = Some a ∧ a !! uid = Some e ∧ accepted e = true.

End Lifecycle.

(** ** Matches and listing pairs *)

Module Pairs.

(** The matches of a table whose [listing_ids] hold both [a] and [b]. *)
Definition covering (ms : list TradeMatch.t) (a b : uuid) : list TradeMatch.t :=
  List.filter (fun m => FeedTasks.array_contains (TradeMatch.listing_ids m) [a; b]) ms.

(** Those of them that are active, that is, not COMPLETED, DECLINED or
    EXPIRED. *)
Definition active_covering (ms : list TradeMatch.t) (a b : uuid)
    : list TradeMatch.t :=
  List.filter (fun m => negb (Lifecycle.terminal (TradeMatch.status m)))
              (covering ms a b).

(** At most one active match for every unordered pair of listings. *)
Definition at_most_one_active (ms : list TradeMatch.t) : Prop :=
  ∀ a b : uuid, a ≠ b → (length (active_covering ms a b) ≤ 1)%nat.

(** At most one match of any status for every unordered pair. *)
Definition at_most_one (ms : list TradeMatch.t) : Prop :=
  ∀ a b : uuid, a ≠ b → (length (covering ms a b) ≤ 1)%nat.

(** A reciprocal pair: two trade-eligible listings of two users, each
    saved by the owner of the other. *)
Definition reciprocal (db : FeedTasks.DB) (x y : Listing.t) : Prop :=
  In x (FeedTasks.listings db) ∧ In y (FeedTasks.listings db) ∧
  Listing.id x ≠ Listing.id y ∧
  Listing.user_id x ≠ Listing.user_id y ∧
  FeedTasks.trade_eligible x = true ∧ FeedTasks.trade_eligible y = true ∧
  FeedTasks.has_saved db (Listing.user_id y) x = true ∧
  FeedTasks.has_saved db (Listing.user_id x) y = true.

(** The owner of [y] saved no other trade listing of the owner of [x]. *)
Definition only_saved_offer (db : FeedTasks.DB) (x y : Listing.t) : Prop :=
  ∀ s, In s (FeedTasks.listing_saves db) →
    Listing.save_user_id s = Listing.user_id y →
    In (Listing.save_listing_id s)
       (map Listing.id (FeedTasks.user_listings db (Listing.user_id x))) →
    Listing.save_listing_id s = Listing.id x.

End Pairs.

(** ** Sample rows *)

Module Sample.

Local Open Scope string_scope.

(** A listing of [user] with the given price, trade intent and cell;
    counters at zero, authenticity 100, staff-verified, created at [at_]. *)
Definition listing (id user : uuid) (title : string) (price : option Q)
    (intent : Listing.ListingIntent) (cell : string) (at_ : Q) : Listing.t :=
  Listing.mk id user title "Jordan" None "10" Listing.DS 100 true
    price None intent cell 0 0 0 0 0 Listing.ACTIVE at_.

(** [str.upper] on ASCII text, which is what the sample rows hold. *)
Definition upper_ascii (c : ascii) : ascii :=
  let n := nat_of_ascii c in
  if (97 <=? n)%nat && (n <=? 122)%nat then ascii_of_nat (n - 32) else c.

Fixpoint upper (s : string) : string :=
  match s with
  | EmptyString => EmptyString
  | String c s' => String (upper_ascii c) (upper s')
  end.

(** A reader of [nan] and of plain decimal numerals of up to 15 characters
    such as [10] and [10.5], a part of what Python's [float] accepts;
    anything else is rejected. *)
Fixpoint digits (s : string) (acc : Z) : option Z :=
  match s with
  | EmptyString => Some acc
  | String c s' =>
      let n := Z.of_nat (nat_of_ascii c) in
      if (48 <=? n)%Z && (n <=? 57)%Z then digits s' (acc * 10 + (n - 48))%Z
      else None
  end.

Fixpoint split_point (s : string) : string * option string :=
  match s with
  | EmptyString => (EmptyString, None)
  | String c s' =>
      if Ascii.eqb c "."%char then (EmptyString, Some s')
      else let (a, b) := split_point s' in (String c a, b)
  end.

(** The double nearest to [n / d], for two integers below [2 ^ 53]. *)
Definition float_of_ratio (n d : Z) : float :=
  PrimFloat.div (PrimFloat.of_uint63 (Uint63.of_Z n))
                (PrimFloat.of_uint63 (Uint63.of_Z d)).

Definition float_of_str (s : string) : option float :=
  if String.eqb s "nan" then Some PrimFloat.nan
  else if (15 <? String.length s)%nat then None
  else
    match split_point s with
    | (EmptyString, _) => None
    | (whole, None) => (fun a => float_of_ratio a 1) <$> digits whole 0
    | (whole, Some frac) =>
        match digits whole 0, digits frac 0 with
        | Some a, Some b =>
            let k := (10 ^ Z.of_nat (String.length frac))%Z in
            Some (float_of_ratio (a * k + b) k)
        | _, _ => None
        end
    end.

(** A wishlist that names only a style code. *)
Definition wishlist_sku : UserWishlist.t :=
  UserWishlist.mk (Some "DZ5485-612") None None false None None.

(** A wishlist for size 10, nearby sizes accepted, at most 300. *)
Definition wishlist_size : UserWishlist.t :=
  UserWishlist.mk None (Some "jordan") (Some "10") true (Some 300%Q)
    (Some "EXCELLENT").

(** A two-way match of users 1 and 2 over listings 10 and 20, as
    discovery creates it at time [0]. *)
Definition suggested_match : TradeMatch.t :=
  TradeMatch.create_two_way 0 1 2 10 20 "Jordan 4 Bred" "Dunk Low Panda"
    (Some "892a100d2c3ffff") 100 None.

(** The same match after both users accepted and the trade was
    completed. *)
Definition completed_match : TradeMatch.t :=
  Lifecycle.run
    [ Lifecycle.RecordView 1; Lifecycle.RecordAcceptance 60 1;
      Lifecycle.RecordAcceptance 120 2; Lifecycle.Complete 3600 ]
    suggested_match.

(** The suggested match after the cleanup pass of day 8 expired it. *)
Definition expired_match : TradeMatch.t :=
  FeedTasks.expire (TradeMatch.days 8) suggested_match.

(** The two listings of the trade scenario, both in [cell]: A of user 1
    at 100, B of user 2 at 120. *)
Definition listing_a (cell : string) : Listing.t :=
  listing 10 1 "Jordan 4 Bred" (Some 100%Q) Listing.TRADE cell 0%Q.

Definition listing_b (cell : string) : Listing.t :=
  listing 20 2 "Dunk Low Panda" (Some 120%Q) Listing.BOTH cell 0%Q.

(** User 2 saved A and user 1 saved B; no match yet.  [users] is the
    user table in the order in which the database returns it. *)
Definition trade_db (cell : string) (users : list uuid) : FeedTasks.DB :=
  FeedTasks.mkDB users [listing_a cell; listing_b cell]
    [Listing.mkSave 2 10; Listing.mkSave 1 20] [] [].

(** Users 1 and 2 with two trade listings each; each user saved both
    listings of the other. *)
Definition cross_db : FeedTasks.DB :=
  FeedTasks.mkDB [1; 2]%N
    [ listing 11 1 "Jordan 4 Bred" (Some 100%Q) Listing.TRADE "892a100d2c3ffff" 0%Q;
      listing 12 1 "Jordan 1 Chicago" (Some 300%Q) Listing.TRADE "892a100d2c3ffff" 0%Q;
      listing 21 2 "Dunk Low Panda" (Some 120%Q) Listing.BOTH "892a100d2c3ffff" 0%Q;
      listing 22 2 "Air Max 1 Patta" (Some 280%Q) Listing.BOTH "892a100d2c3ffff" 0%Q ]
    [ Listing.mkSave 1 21; Listing.mkSave 1 22;
      Listing.mkSave 2 11; Listing.mkSave 2 12 ]
    [] [].

(** A distance oracle that knows a cell to be 0 steps from itself and
    fails on any other pair. *)
Definition h3_distance (a b : string) : option Z :=
  if String.eqb a b then Some 0%Z else None.

(** Two listings in two cells and one heat-index row for the second. *)
Definition ranking_db : FeedTasks.DB :=
  FeedTasks.mkDB [1; 2]%N
    [ listing 10 1 "Jordan 4 Bred" (Some 250%Q) Listing.BOTH "892a100d2c3ffff" 1000%Q;
      Listing.mk 20 2 "Dunk Low Panda" "Nike" None "10" Listing.VNDS 80 false
        (Some 120%Q) (Some 150%Q) Listing.SALE "892a100d2c7ffff"
        40 5 2 0 0 Listing.ACTIVE 400%Q ]
    []
    [ HeatIndex.mk "892a100d2c7ffff" (Some 1%Q) (Some 1%Q) None None None
        55%Q "warm" ]
    [].

End Sample.

(** ** The other methods of listing.py *)

Module ListingMethods.

Import Listing.

Definition set_counts (views saves messages : Z) (demand : Q) (l : t) : t :=
  mk (id l) (user_id l) (title l) (brand l) (sku l) (size l) (condition l)
     (authenticity_score l) (is_verified l) (price l) (original_price l)
     (trade_intent l) (h3_index l) views saves messages
     (rank_score l) demand (status l) (created_at l).

Definition set_status (s : ListingStatus) (l : t) : t :=
  mk (id l) (user_id l) (title l) (brand l) (sku l) (size l) (condition l)
     (authenticity_score l) (is_verified l) (price l) (original_price l)
     (trade_intent l) (h3_index l) (view_count l) (save_count l)
     (message_count l) (rank_score l) (demand_score l) s (created_at l).

Definition record_view (l : t) : t :=
  set_counts (view_count l + 1) (save_count l) (message_count l)
    (demand_score l) l.

Definition record_save (l : t) : t :=
  set_counts (view_count l) (save_count l + 1) (message_count l)
    (demand_score l + 1)%Q l.

Definition record_message (l : t) : t :=
  set_counts (view_count l) (save_count l) (message_count l + 1)
    (demand_score l + 2)%Q l.

(** The engagement events of a listing, for sequences of them. *)
Inductive event := View | Save | Message.

Definition record (l : t) (e : event) : t :=
  match e with
  | View => record_view l
  | Save => record_save l
  | Message => record_message l
  end.

Definition record_all (es : list event) (l : t) : t := fold_left record es l.

Definition count_of (e : event) (es : list event) : Z :=
  Z.of_nat (length (List.filter
    (fun e' => match e, e' with
               | View, View | Save, Save | Message, Message => true
               | _, _ => false
               end) es)).

(** What holds of a listing that started at price [p] with no original
    price, after any number of calls of [drop_price]. *)
Definition dropped_from (p : Q) (l : Listing.t) : Prop :=
  ∃ cur, price l = Some cur ∧ (cur <= p)%Q ∧
    ((Py.truthy (original_price l) = false ∧ price l = Some p) ∨
     original_price l = Some p).

(** A listing row with the two timestamps that [Listing.t] leaves out. *)
Record row := mkRow {
  listing : Listing.t;
  expires_at : option Q;
  sold_at : option Q
}.

Definition mark_sold (now : Q) (r : row) : row :=
  mkRow (set_status SOLD (listing r)) (expires_at r) (Some now).

Definition mark_traded (now : Q) (r : row) : row :=
  mkRow (set_status TRADED (listing r)) (expires_at r) (Some now).

(** [is_active].  [expires_at] is timezone-aware on a row that was read
    from the table ([loaded]) and naive on an object that has just been
    built with [datetime.utcnow() + timedelta(days=30)]; [None] stands
    for the [TypeError] of comparing it with the naive [utcnow()]. *)
Definition is_active (clock : Q) (loaded : bool) (r : row) : option bool :=
  match status (listing r) with
  | ACTIVE =>
      match expires_at r with
      | Some at_ =>
          match Datetime.gt (Datetime.utcnow clock) (Datetime.mk at_ loaded) with
          | Some expired => Some (negb expired)
          | None => None
          end
      | None => Some true
      end
  | _ => Some false
  end.

End ListingMethods.

(** ** The listing endpoints of routers/feed_v2.py *)

Module Endpoints.

Import FeedTasks.

Inductive HTTPException := HTTP (status_code : Z) (detail : string).

(** What a handler gives back: a value, the [HTTPException] it raises, or
    another exception that escapes it; a handler that raises has
    committed nothing. *)
Inductive outcome (A : Type) :=
| Returns (a : A)
| Raises (e : HTTPException)
| Fails (exception : string).

Arguments Returns {A} a.
Arguments Raises {A} e.
Arguments Fails {A} exception.

(** [db.query(Listing).filter(Listing.id == listing_id).first()] *)
Definition find_listing (db : DB) (listing_id : uuid) : option Listing.t :=
  List.find (fun l => N.eqb (Listing.id l) listing_id) (listings db).

(** [db.query(ListingSave).filter(listing_id == ..., user_id == ...).first()] *)
Definition find_save (db : DB) (listing_id user : uuid)
    : option Listing.ListingSave :=
  List.find (fun s => N.eqb (Listing.save_listing_id s) listing_id
                      && N.eqb (Listing.save_user_id s) user)
            (listing_saves db).

(** A write to the row that [.first()] returned. *)
Fixpoint update_first {A} (p : A → bool) (f : A → A) (xs : list A) : list A :=
  match xs with
  | [] => []
  | x :: xs' => if p x then f x :: xs' else x :: update_first p f xs'
  end.

(** [db.delete(row)] of the row that [.first()] returned. *)
Fixpoint delete_first {A} (p : A → bool) (xs : list A) : list A :=
  match xs with
  | [] => []
  | x :: xs' => if p x then xs' else x :: delete_first p xs'
  end.

Definition update_listing (listing_id : uuid) (f : Listing.t → Listing.t)
    (db : DB) : DB :=
  set_listings
    (update_first (fun l => N.eqb (Listing.id l) listing_id) f (listings db)) db.

Definition set_listing_saves (ss : list Listing.ListingSave) (db : DB) : DB :=
  mkDB (users db) (listings db) ss (heat_indexes db) (trade_matches db).

(** [get_listing]: the listing that the response is built from. *)
Definition get_listing (listing_id current_user : uuid) (db : DB)
    : outcome (DB * Listing.t) :=
  match find_listing db listing_id with
  | None => Raises (HTTP 404 "Listing not found")
  | Some listing =>
      if negb (N.eqb (Listing.user_id listing) current_user) then
        Returns (update_listing listing_id ListingMethods.record_view db,
                 ListingMethods.record_view listing)
      else Returns (db, listing)
  end.

(** [save_listing]: the message and the [save_count] of the response. *)
Definition save_listing (listing_id current_user : uuid) (db : DB)
    : outcome (DB * (string * Z)) :=
  match find_listing db listing_id with
  | None => Raises (HTTP 404 "Listing not found")
  | Some listing =>
      match find_save db listing_id current_user with
      | Some _ => Raises (HTTP 400 "Already saved")
      | None =>
          let db1 :=
            set_listing_saves
              (listing_saves db ++ [Listing.mkSave current_user listing_id]) db in
          Returns (update_listing listing_id ListingMethods.record_save db1,
                   ("Listing saved"%string,
                    Listing.save_count (ListingMethods.record_save listing)))
      end
  end.

Definition unsave_listing (listing_id current_user : uuid) (db : DB)
    : outcome (DB * string) :=
  match find_save db listing_id current_user with
  | None => Raises (HTTP 404 "Save not found")
  | Some _ =>
      let db1 :=
        set_listing_saves
          (delete_first
             (fun s => N.eqb (Listing.save_listing_id s) listing_id
                       && N.eqb (Listing.save_user_id s) current_user)
             (listing_saves db)) db in
      Returns
        (update_listing listing_id
           (fun l => ListingMethods.set_counts (Listing.view_count l)
                       (Z.max 0 (Listing.save_count l - 1))
                       (Listing.message_count l) (Listing.demand_score l) l)
           db1,
         "Save removed"%string)
  end.

(** The percentage that [FeedEvent.create_price_drop_event] computes
    before it rounds it for the payload of the event; [None] stands for
    [ZeroDivisionError]. *)
Definition event_drop_percent (old_price new_price : Q) : option Q :=
  if Qeq_bool old_price 0 then None
  else Some ((old_price - new_price) / old_price * 100)%Q.

(** The response of [drop_listing_price]. *)
Record price_drop_response := mkPriceDrop {
  message : string;
  old_price : Q;
  new_price : Q;
  drop_percent : Q
}.

(** What the commit of [drop_listing_price] leaves in the row: the price
    as the column stores it, and the original price that [drop_price]
    has set. *)
Definition store_price_drop (new_price stored_price : Q) (l : Listing.t)
    : Listing.t :=
  Listing.set_prices (Some stored_price)
    (Listing.original_price (fst (Listing.drop_price new_price l))) l.

(** [drop_listing_price].  The body of the request is validated before
    the handler runs ([new_price: float = Field(..., ge=0)]); the
    response reads the listing after the commit. *)
Definition drop_listing_price (listing_id current_user : uuid) (new_price : Q)
    (db : DB) : outcome (DB * price_drop_response) :=
  if Py.Qlt_bool new_price 0 then Fails "RequestValidationError"
  else
    match find_listing db listing_id with
    | None => Raises (HTTP 404 "Listing not found")
    | Some listing =>
        if negb (N.eqb (Listing.user_id listing) current_user)
        then Raises (HTTP 403 "Not your listing")
        else
          let old_price :=
            if Py.truthy (Listing.price listing)
            then Py.float (Listing.price listing) else 0%Q in
          let (listing', dropped) := Listing.drop_price new_price listing in
          if negb dropped
          then Raises (HTTP 400 "New price must be lower than current price")
          else
            match event_drop_percent old_price new_price with
            | None => Fails "ZeroDivisionError"
            | Some _ =>
                match Decimal.numeric_10_2 new_price with
                | None => Fails "DataError"
                | Some stored_price =>
                    Returns
                      (update_listing listing_id
                         (store_price_drop new_price stored_price) db,
                       mkPriceDrop "Price dropped" old_price new_price
                         (Listing.get_price_drop_percent
                            (store_price_drop new_price stored_price listing)))
                end
            end
    end.

(** [mark_listing_sold]: the status of the response.  Of what
    [Listing.mark_sold] writes, the table keeps the status. *)
Definition mark_listing_sold (listing_id current_user : uuid) (db : DB)
    : outcome (DB * Listing.ListingStatus) :=
  match find_listing db listing_id with
  | None => Raises (HTTP 404 "Listing not found")
  | Some listing =>
      if negb (N.eqb (Listing.user_id listing) current_user)
      then Raises (HTTP 403 "Not your listing")
      else
        Returns (update_listing listing_id
                   (ListingMethods.set_status Listing.SOLD) db,
                 Listing.SOLD)
  end.

End Endpoints.

(** ** Sequences of requests to the listing endpoints *)

Module Requests.

Import FeedTasks Endpoints.

Inductive request :=
| GetListing (listing_id current_user : uuid)
| SaveListing (listing_id current_user : uuid)
| UnsaveListing (listing_id current_user : uuid)
| DropListingPrice (listing_id current_user : uuid) (new_price : Q)
| MarkListingSold (listing_id current_user : uuid).

(** The database after a handler: what it committed, or the database as
    it was when the handler raised. *)
Definition committed {A} (db : DB) (o : outcome (DB * A)) : DB :=
  match o with
  | Returns (db', _) => db'
  | _ => db
  end.

Definition handle (db : DB) (r : request) : DB :=
  match r with
  | GetListing l u => committed db (get_listing l u db)
  | SaveListing l u => committed db (save_listing l u db)
  | UnsaveListing l u => committed db (unsave_listing l u db)
  | DropListingPrice l u p => committed db (drop_listing_price l u p db)
  | MarkListingSold l u => committed db (mark_listing_sold l u db)
  end.

Definition handle_all (rs : list request) (db : DB) : DB :=
  fold_left handle rs db.

(** The number of rows of [listing_saves] for a listing. *)
Definition saves_of (db : DB) (listing_id : uuid) : Z :=
  Z.of_nat (length (List.filter
    (fun s => N.eqb (Listing.save_listing_id s) listing_id)
    (listing_saves db))).

(** [Listing.id] is the primary key. *)
Definition unique_ids (db : DB) : Prop :=
  NoDup (map Listing.id (listings db)).

(** Every [save_count] is the number of saves of its listing. *)
Definition save_counts_agree (db : DB) : Prop :=
  Forall (fun l => Listing.save_count l = saves_of db (Listing.id l))
         (listings db).

(** No user has two saves of one listing. *)
Definition one_save_each (db : DB) : Prop := NoDup (listing_saves db).

(** Every price in the table is a value of its column. *)
Definition prices_stored (db : DB) : Prop :=
  Forall (fun l => ∀ p, Listing.price l = Some p → Decimal.fits p)
         (listings db).

(** The views of a listing by users other than its owner. *)
Definition views_by_others (owner listing_id : uuid) (rs : list request) : Z :=
  Z.of_nat (length (List.filter
    (fun r => match r with
              | GetListing l u => N.eqb l listing_id && negb (N.eqb owner u)
              | _ => false
              end) rs)).

End Requests.

(** ** The views of a match: get_user_role and to_user_view *)

Module MatchViews.

Import TradeMatch.

(** [get_user_role]: the first participant entry of the user. *)
Definition get_user_role (user_id : uuid) (m : t) : option participant :=
  List.find (fun p => N.eqb (p_user_id p) user_id) (participants m).

(** The fields of [to_user_view] that depend on the user. *)
Record user_view := mkView {
  you_offer : uuid * string;
  you_receive : uuid * string;
  other_parties : nat;
  your_acceptance : option acceptance
}.

(** [to_user_view]; [None] stands for the fall-back to [to_dict] for a
    user who is no participant. *)
Definition to_user_view (user_id : uuid) (m : t) : option user_view :=
  match get_user_role user_id m with
  | None => None
  | Some user_role =>
      let other_participants :=
        List.filter (fun p => negb (N.eqb (p_user_id p) user_id)) (participants m) in
      Some (mkView
              (offers_listing_id user_role, offers_title user_role)
              (wants_listing_id user_role, wants_title user_role)
              (length other_participants)
              (match acceptances m with
               | Some a => if decide (a = ∅) then None else a !! user_id
               | None => None
               end))
  end.

End MatchViews.

(** ** routers/feed_v2.py: accept_trade_match *)

Module MatchEndpoints.

Import TradeMatch.

(** [bool(self.acceptances)] of a loaded row: [None] and the empty
    dictionary are falsy. *)
Definition has_acceptances (m : t) : bool :=
  match acceptances m with
  | Some a => negb (Nat.eqb (size a) 0)
  | None => false
  end.

(** What [db.commit()] writes of a loaded match after a method has
    changed it.  The ORM writes the attributes that were assigned.
    [acceptances] is a plain JSON column: an entry that is put into the
    loaded dictionary is not an assignment, so the column is written only
    when the method has assigned a new dictionary, which
    [record_acceptance] does when the loaded value is [None] or
    empty. *)
Definition flushed (loaded changed : t) : t :=
  if has_acceptances loaded
  then mk (match_type changed) (participants changed) (user_ids changed)
          (listing_ids changed) (h3_common changed) (locality_score changed)
          (max_distance_miles changed) (match_score changed)
          (value_balance changed) (status changed) (acceptances loaded)
          (expires_at changed) (completed_at changed)
  else changed.

(** [accept_trade_match]; [match_id] is the place of the row in the
    table.  The response reads [match.status] after the commit. *)
Definition accept_trade_match (match_id : nat) (current_user : uuid) (now : Q)
    (table : list t) : Endpoints.outcome (list t * MatchStatus) :=
  match table !! match_id with
  | None => Endpoints.Raises (Endpoints.HTTP 404 "Trade match not found")
  | Some m =>
      if negb (existsb (N.eqb current_user) (user_ids m))
      then Endpoints.Raises (Endpoints.HTTP 403 "Not a participant in this trade")
      else
        let stored := flushed m (record_acceptance now current_user m) in
        Endpoints.Returns (<[match_id := stored]> table, status stored)
  end.

(** The table after a request, and after a sequence of requests of users
    at given times. *)
Definition accepted (match_id : nat) (table : list t) (request : uuid * Q)
    : list t :=
  match accept_trade_match match_id (fst request) (snd request) table with
  | Endpoints.Returns (table', _) => table'
  | _ => table
  end.

Definition accepted_all (match_id : nat) (requests : list (uuid * Q))
    (table : list t) : list t :=
  fold_left (accepted match_id) requests table.

End MatchEndpoints.

(** ** worker/feed_tasks.py: cleanup_expired_feed_data *)

Module Cleanup.

(** The three tables of the pass. *)
Record Store := mkStore {
  events : list FeedEvent.t;
  matches : list TradeMatch.t;
  rows : list ListingMethods.row
}.

(** [FeedEvent.created_at < now - timedelta(days=7)] *)
Definition old_event (now : Q) (e : FeedEvent.t) : bool :=
  Py.Qlt_bool (FeedEvent.created_at e) (now - TradeMatch.days 7).

(** The WHERE clause of the update of [trade_matches]. *)
Definition stale_match (now : Q) (m : TradeMatch.t) : bool :=
  match TradeMatch.expires_at m with
  | Some at_ =>
      Py.Qlt_bool at_ now &&
      match TradeMatch.status m with
      | TradeMatch.SUGGESTED | TradeMatch.VIEWED | TradeMatch.PENDING => true
      | _ => false
      end
  | None => false
  end.

(** [Listing.expires_at < now] and [Listing.status == ACTIVE]. *)
Definition stale_row (now : Q) (r : ListingMethods.row) : bool :=
  match ListingMethods.expires_at r with
  | Some at_ =>
      Py.Qlt_bool at_ now &&
      match Listing.status (ListingMethods.listing r) with
      | Listing.ACTIVE => true
      | _ => false
      end
  | None => false
  end.

Definition expire_row (now : Q) (r : ListingMethods.row) : ListingMethods.row :=
  if stale_row now r
  then ListingMethods.mkRow
         (ListingMethods.set_status Listing.EXPIRED (ListingMethods.listing r))
         (ListingMethods.expires_at r) (ListingMethods.sold_at r)
  else r.

Record counts := mkCounts {
  expired_events : nat;
  expired_matches : nat;
  expired_listings : nat
}.

(** The pass: the tables after the commit and the numbers it reports. *)
Definition cleanup_expired_feed_data (now : Q) (st : Store) : Store * counts :=
  (mkStore
     (List.filter (fun e => negb (old_event now e)) (events st))
     (map (FeedTasks.expire now) (matches st))
     (map (expire_row now) (rows st)),
   mkCounts
     (length (List.filter (old_event now) (events st)))
     (length (List.filter (stale_match now) (matches st)))
     (length (List.filter (stale_row now) (rows st)))).

End Cleanup.

(** ** The read endpoints of routers/feed_v2.py *)

Module Queries.

(** ORDER BY, as an insertion sort; rows that compare equal keep the
    order of the table, which SQL leaves open. *)
Fixpoint insert_by {A} (before : A → A → bool) (x : A) (xs : list A) : list A :=
  match xs with
  | [] => [x]
  | y :: ys => if before x y then x :: y :: ys else y :: insert_by before x ys
  end.

Definition order_by {A} (before : A → A → bool) (xs : list A) : list A :=
  fold_right (insert_by before) [] xs.

Definition hours (n : Q) : Q := (n * 3600)%Q.

(** The WHERE clauses of [get_activity_ribbon]. *)
Definition ribbon_filter (search_hexes : list string)
    (event_types : option (list string)) (now : Q) (e : FeedEvent.t) : bool :=
  match FeedEvent.h3_index_r7 e with
  | Some c => existsb (String.eqb c) search_hexes
  | None => false
  end
  && Qle_bool (now - hours 24) (FeedEvent.created_at e)
  && match event_types with
     | None | Some [] => true
     | Some ts => existsb (String.eqb (FeedEvent.event_type e)) ts
     end
  && FeedEvent.non_expired now e.

(** [desc(FeedEvent.created_at)] *)
Definition newer (a b : FeedEvent.t) : bool :=
  Qle_bool (FeedEvent.created_at b) (FeedEvent.created_at a).

(** The query of [get_activity_ribbon] over the cells [search_hexes]:
    the events of the response and [has_more]. *)
Definition ribbon_query (search_hexes : list string)
    (event_types : option (list string)) (limit : nat) (now : Q)
    (table : list FeedEvent.t) : list FeedEvent.t * bool :=
  let events :=
    firstn limit
      (order_by newer
         (List.filter (ribbon_filter search_hexes event_types now) table)) in
  (events, Nat.eqb (length events) limit).

Section H3.

Variable geo_to_h3 : Q → Q → Z → string.
Variable k_ring : string → Z → list string.

Definition get_activity_ribbon (lat lng radius : Q)
    (event_types : option (list string)) (limit : nat) (now : Q)
    (table : list FeedEvent.t) : list FeedEvent.t * bool :=
  let center_h3 := geo_to_h3 lat lng 7 in
  let k := Py.int (radius * 0.8) in
  let search_hexes := k_ring center_h3 k in
  ribbon_query search_hexes event_types limit now table.

End H3.

(** The WHERE clauses of [get_trade_matches].  [status_filter] is the
    status that the given string names; without one the four active
    statuses are listed. *)
Definition matches_filter (user : uuid)
    (status_filter : option TradeMatch.MatchStatus) (now : Q)
    (m : TradeMatch.t) : bool :=
  FeedTasks.array_contains (TradeMatch.user_ids m) [user]
  && match status_filter with
     | Some s => TradeMatch.status_eqb (TradeMatch.status m) s
     | None =>
         match TradeMatch.status m with
         | TradeMatch.SUGGESTED | TradeMatch.VIEWED | TradeMatch.PENDING
         | TradeMatch.ACCEPTED => true
         | _ => false
         end
     end
  && FeedEvent.sql_where
       (FeedEvent.sql_or (FeedEvent.sql_is_null (TradeMatch.expires_at m))
                         (FeedEvent.sql_gt (TradeMatch.expires_at m) now)).

(** [desc(match_score), desc(locality_score)] *)
Definition better (a b : TradeMatch.t) : bool :=
  Py.Qlt_bool (TradeMatch.match_score b) (TradeMatch.match_score a)
  || (Qeq_bool (TradeMatch.match_score a) (TradeMatch.match_score b)
      && (TradeMatch.locality_score b <=? TradeMatch.locality_score a)%Z).

(** [get_trade_matches]: the rows, each with the view of the user, and
    [total_count]. *)
Definition get_trade_matches (user : uuid)
    (status_filter : option TradeMatch.MatchStatus) (limit : nat) (now : Q)
    (table : list TradeMatch.t)
    : list (TradeMatch.t * option MatchViews.user_view) * nat :=
  let matches :=
    firstn limit
      (order_by better (List.filter (matches_filter user status_filter now) table)) in
  let match_responses :=
    map (fun m => (m, MatchViews.to_user_view user m)) matches in
  (match_responses, length match_responses).

End Queries.

(** ** routers/activity_stream.py: the channels of a connection *)

Module ActivityStream.

Section Stream.

(** The h3 library: cells, [h3.geo_to_h3] and [h3.k_ring]. *)
Variable cell : Type.
Variable geo_to_h3 : Q → Q → Z → cell.
Variable k_ring : cell → Z → list cell.

(** A channel name [f"feed:{hex_id}"]. *)
Inductive channel := Feed (hex_id : cell).

(** The set of channels of a connection, as the list of its members. *)
Definition subscribed (lat lng radius : Q) : list channel :=
  let center_h3 := geo_to_h3 lat lng 7 in
  let k := Py.int (radius * 0.8) in
  let hexes := k_ring center_h3 k in
  let channels := map Feed hexes in
  let center_h3_r8 := geo_to_h3 lat lng 8 in
  let center_h3_r9 := geo_to_h3 lat lng 9 in
  channels ++ [Feed center_h3_r8] ++ [Feed center_h3_r9].

(** The message [update_location] with the values of its keys [lat] and
    [lng]; [k] is the one of the connection. *)
Definition update_location (radius : Q) (new_lat new_lng : option Q)
    (channels : list channel) : list channel :=
  if Py.truthy new_lat && Py.truthy new_lng then
    let k := Py.int (radius * 0.8) in
    let new_center := geo_to_h3 (Py.float new_lat) (Py.float new_lng) 7 in
    let new_hexes := k_ring new_center k in
    map Feed new_hexes
  else channels.

(** The channel on which [create_listing], [drop_listing_price] and
    [mark_listing_sold] publish the event of a listing: the listing's
    [h3_index], which [set_h3_indexes] computes at resolution 9. *)
Definition published_on (listing_lat listing_lng : Q) : channel :=
  Feed (geo_to_h3 listing_lat listing_lng 9).

End Stream.

Arguments Feed {cell} hex_id.
Arguments subscribed {cell} geo_to_h3 k_ring lat lng radius.
Arguments update_location {cell} geo_to_h3 k_ring radius new_lat new_lng channels.
Arguments published_on {cell} geo_to_h3 listing_lat listing_lng.

End ActivityStream.

(** ** worker/feed_tasks.py: update_heat_indexes *)

Module HeatUpdate.

Import FeedTasks.

(** A row of [listing_saves] with its [created_at]. *)
Record save_row := mkSaveRow {
  save : Listing.ListingSave;
  save_created_at : Q
}.

(** A feed event with its cell of resolution 9. *)
Record event_row := mkEventRow {
  event : FeedEvent.t;
  event_h3_index : string
}.

Section H3.

(** The h3 library: [h3.h3_to_geo] and [h3.geo_to_h3]. *)
Variable h3_to_geo : string → Q * Q.
Variable geo_to_h3 : Q → Q → Z → string.

(** The cell that [get_or_create] stores in a new row:
    [set_h3_indexes(lat, lng)] with the centre of the requested cell
    overwrites [h3_index]. *)
Definition created_h3_index (h3_index : string) : string :=
  let (lat, lng) := h3_to_geo h3_index in
  geo_to_h3 lat lng 9.

(** [NeighborhoodHeatIndex.get_or_create]: the table with the row in it,
    and the place of the row.  A new row has the column defaults that
    the insert fills in. *)
Definition get_or_create (table : list HeatIndex.t) (h3_index : string)
    : list HeatIndex.t * nat :=
  match list_find (fun h => HeatIndex.h3_index h = h3_index) table with
  | Some (i, existing) => (table, i)
  | None =>
      (table ++ [HeatIndex.mk (created_h3_index h3_index)
                   (Some 0%Q) (Some 0%Q) (Some 0%Q) (Some 0%Q) (Some 0%Q)
                   0 "cold"],
       length table)
  end.

(** [get_neighborhood_heat] of routers/feed_v2.py: the table after the
    commit and the row of the response. *)
Definition get_neighborhood_heat (lat lng : Q) (table : list HeatIndex.t)
    : list HeatIndex.t * option HeatIndex.t :=
  let h3_index := geo_to_h3 lat lng 9 in
  let (table1, i) := get_or_create table h3_index in
  (table1, table1 !! i).

Definition window_start (now : Q) : Q := (now - Queries.hours 24)%Q.

Definition count {A} (p : A → bool) (xs : list A) : Z :=
  Z.of_nat (length (List.filter p xs)).

Definition new_listings (now : Q) (db : DB) (hex_id : string) : Z :=
  count (fun l => String.eqb (Listing.h3_index l) hex_id
                  && Qle_bool (window_start now) (Listing.created_at l))
        (listings db).

(** The count over the join of [listing_saves] with [listings]. *)
Definition saves_count (now : Q) (saves : list save_row) (db : DB)
    (hex_id : string) : Z :=
  count (fun sl : save_row * Listing.t =>
           N.eqb (Listing.save_listing_id (save (fst sl))) (Listing.id (snd sl))
           && String.eqb (Listing.h3_index (snd sl)) hex_id
           && Qle_bool (window_start now) (save_created_at (fst sl)))
        (list_prod saves (listings db)).

(** [event_counts.get('TRADE_REQUEST', 0)] *)
Definition trade_requests (now : Q) (events : list event_row)
    (hex_id : string) : Z :=
  count (fun e => String.eqb (event_h3_index e) hex_id
                  && Qle_bool (window_start now) (FeedEvent.created_at (event e))
                  && String.eqb (FeedEvent.event_type (event e)) "TRADE_REQUEST")
        events.

(** The writes of the loop body to the row of the cell.  The velocities
    and the score are floats in the code and exact rationals here. *)
Definition update_row (now : Q) (saves : list save_row)
    (events : list event_row) (db : DB) (hex_id : string)
    (heat_index : HeatIndex.t) : HeatIndex.t :=
  let hours := 24%Q in
  HeatIndex.compute_heat_score
    (HeatIndex.mk (HeatIndex.h3_index heat_index)
       (Some (inject_Z (saves_count now saves db hex_id) / hours)%Q)
       (Some (inject_Z (trade_requests now events hex_id) / hours)%Q)
       (Some (inject_Z (trade_requests now events hex_id) / hours)%Q)
       (Some (inject_Z (new_listings now db hex_id) / hours)%Q)
       (Some 0%Q)
       (HeatIndex.heat_score heat_index) (HeatIndex.heat_level heat_index)).

(** The body of the loop over [hexes_to_update]. *)
Definition update_hex (now : Q) (saves : list save_row)
    (events : list event_row) (db : DB)
    (table : list HeatIndex.t) (hex_id : string) : list HeatIndex.t :=
  let (table1, i) := get_or_create table hex_id in
  alter (update_row now saves events db hex_id) i table1.

(** [query(Listing.h3_index).filter(...).distinct()] *)
Definition hexes_to_update (h3_indexes : option (list string)) (now : Q)
    (db : DB) : list string :=
  match h3_indexes with
  | Some (h :: hs) => h :: hs
  | _ =>
      nodup String.string_dec
        (map Listing.h3_index
           (List.filter
              (fun l => is_active l
                        && Qle_bool (window_start now) (Listing.created_at l))
              (listings db)))
  end.

Definition set_heat_indexes (hs : list HeatIndex.t) (db : DB) : DB :=
  mkDB (users db) (listings db) (listing_saves db) hs (trade_matches db).

(** The pass: the new database and [hexes_updated]. *)
Definition update_heat_indexes (h3_indexes : option (list string)) (now : Q)
    (saves : list save_row) (events : list event_row) (db : DB) : DB * nat :=
  let hexes := hexes_to_update h3_indexes now db in
  (set_heat_indexes
     (fold_left (update_hex now saves events db) hexes (heat_indexes db)) db,
   length hexes).

End H3.

End HeatUpdate.

(** ** routers/feed_v2.py: get_hyperlocal_feed *)

Module Feed.

(** A listing row with the columns that [Listing.t] and
    [ListingMethods.row] leave out: the cells of resolution 8 and 7. *)
Record feed_row := mkFeedRow {
  row : ListingMethods.row;
  h3_index_r8 : option string;
  h3_index_r7 : option string
}.

Definition listing (r : feed_row) : Listing.t := ListingMethods.listing (row r).

Inductive hex_column := H3_INDEX | H3_INDEX_R8 | H3_INDEX_R7.

Definition column (c : hex_column) (r : feed_row) : option string :=
  match c with
  | H3_INDEX => Some (Listing.h3_index (listing r))
  | H3_INDEX_R8 => h3_index_r8 r
  | H3_INDEX_R7 => h3_index_r7 r
  end.

(** The optional query parameters.  [condition] and [trade_intent] are
    the values that the given strings name. *)
Record filters := mkFilters {
  brand : option string;
  size : option string;
  condition : option Listing.ListingCondition;
  trade_intent : option Listing.ListingIntent;
  min_price : option Q;
  max_price : option Q
}.

Definition condition_eqb (a b : Listing.ListingCondition) : bool :=
  String.eqb (Listing.condition_name a) (Listing.condition_name b).

Definition intent_eqb (a b : Listing.ListingIntent) : bool :=
  match a, b with
  | Listing.SALE, Listing.SALE | Listing.TRADE, Listing.TRADE
  | Listing.BOTH, Listing.BOTH => true
  | _, _ => false
  end.

Section Query.

(** PostgreSQL's [ILIKE], text first, pattern second. *)
Variable ilike : string → string → bool.

(** The WHERE clauses. *)
Definition feed_filter (c : hex_column) (search_hexes : list string)
    (f : filters) (r : feed_row) : bool :=
  match Listing.status (listing r) with
  | Listing.ACTIVE => true
  | _ => false
  end
  && match column c r with
     | Some h => existsb (String.eqb h) search_hexes
     | None => false
     end
  && (if Py.truthy_str (brand f)
      then ilike (Listing.brand (listing r))
                 ("%" ++ default EmptyString (brand f) ++ "%")
      else true)
  && (if Py.truthy_str (size f)
      then String.eqb (Listing.size (listing r)) (default EmptyString (size f))
      else true)
  && match condition f with
     | Some c' => condition_eqb (Listing.condition (listing r)) c'
     | None => true
     end
  && match trade_intent f with
     | Some i => intent_eqb (Listing.trade_intent (listing r)) i
     | None => true
     end
  && match min_price f with
     | Some lo =>
         match Listing.price (listing r) with
         | Some p => Qle_bool lo p
         | None => false
         end
     | None => true
     end
  && match max_price f with
     | Some hi =>
         match Listing.price (listing r) with
         | Some p => Qle_bool p hi
         | None => false
         end
     | None => true
     end.

(** The ORDER BY of each [sort_by]. *)
Definition before (sort_by : string) (a b : feed_row) : bool :=
  if String.eqb sort_by "price" then
    match Listing.price (listing a), Listing.price (listing b) with
    | Some x, Some y => Qle_bool x y
    | Some _, None => true
    | None, Some _ => false
    | None, None => true
    end
  else if String.eqb sort_by "newest" then
    Qle_bool (Listing.created_at (listing b)) (Listing.created_at (listing a))
  else if String.eqb sort_by "distance" then
    String.leb (Listing.h3_index (listing a)) (Listing.h3_index (listing b))
  else
    Py.Qlt_bool (Listing.rank_score (listing b)) (Listing.rank_score (listing a))
    || (Qeq_bool (Listing.rank_score (listing a)) (Listing.rank_score (listing b))
        && Qle_bool (Listing.created_at (listing b)) (Listing.created_at (listing a))).

Record response := mkResponse {
  listings : list feed_row;
  total_count : nat;
  center_h3 : string;
  heat_level : string
}.

Section H3.

Variable geo_to_h3 : Q → Q → Z → string.
Variable k_ring : string → Z → list string.
Variable h3_to_parent : string → Z → string.

(** The column and the cells of the search. *)
Definition search (lat lng radius : Q) : hex_column * list string :=
  if Qle_bool radius 0.5 then
    (H3_INDEX,
     H3Geo.get_radius_hexes geo_to_h3 k_ring lat lng radius H3Geo.DEFAULT_RESOLUTION)
  else if Qle_bool radius 1.5 then
    (H3_INDEX_R8,
     map (fun h => h3_to_parent h 8)
         (H3Geo.get_radius_hexes geo_to_h3 k_ring lat lng radius
            H3Geo.DEFAULT_RESOLUTION))
  else
    (H3_INDEX_R7,
     map (fun h => h3_to_parent h 7)
         (H3Geo.get_radius_hexes geo_to_h3 k_ring lat lng radius
            H3Geo.DEFAULT_RESOLUTION)).

Definition get_hyperlocal_feed (lat lng radius : Q) (f : filters)
    (sort_by : string) (limit offset : nat)
    (table : list feed_row) (heat_indexes : list HeatIndex.t) : response :=
  let center_h3 := geo_to_h3 lat lng 9 in
  let (hex_column, search_hexes) := search lat lng radius in
  let query := List.filter (feed_filter hex_column search_hexes f) table in
  let total_count := length query in
  let listings :=
    firstn limit (skipn offset (Queries.order_by (before sort_by) query)) in
  let heat_index :=
    List.find (fun h => String.eqb (HeatIndex.h3_index h) center_h3) heat_indexes in
  mkResponse listings total_count center_h3
    (match heat_index with
     | Some h => HeatIndex.heat_level h
     | None => "cold"
     end).

(** The fields of the request body of [create_listing] that reach the
    columns of the model. *)
Record ListingCreate := mkCreate {
  new_title : string;
  new_brand : string;
  new_sku : option string;
  new_size : string;
  new_condition : Listing.ListingCondition;
  new_price : option Q;
  new_trade_intent : Listing.ListingIntent;
  latitude : Q;
  longitude : Q
}.

(** The row that [create_listing] inserts, with the column defaults, the
    id that the insert draws, the time of the insert and the price as
    the column stores it. *)
Definition new_row (id current_user : uuid) (now : Q)
    (listing_data : ListingCreate) (stored_price : option Q) : feed_row :=
  let lat := latitude listing_data in
  let lng := longitude listing_data in
  mkFeedRow
    (ListingMethods.mkRow
       (Listing.mk id current_user (new_title listing_data)
          (new_brand listing_data) (new_sku listing_data)
          (new_size listing_data) (new_condition listing_data)
          0 false stored_price None
          (new_trade_intent listing_data) (geo_to_h3 lat lng 9)
          0 0 0 0 0 Listing.ACTIVE now)
       (Some (now + TradeMatch.days 30)%Q) None)
    (Some (geo_to_h3 lat lng 8)) (Some (geo_to_h3 lat lng 7)).

(** [create_listing]: the table after the commit and the row that
    [db.refresh] reads back.  A negative price is refused when the body
    of the request is validated ([price: Optional[float] = Field(None,
    ge=0)]); a price that does not fit the column makes the flush
    fail. *)
Definition create_listing (id current_user : uuid) (now : Q)
    (listing_data : ListingCreate) (table : list feed_row)
    : Endpoints.outcome (list feed_row * feed_row) :=
  match new_price listing_data with
  | None =>
      let new := new_row id current_user now listing_data None in
      Endpoints.Returns (table ++ [new], new)
  | Some price =>
      if Py.Qlt_bool price 0 then Endpoints.Fails "RequestValidationError"
      else
        match Decimal.numeric_10_2 price with
        | Some stored =>
            let new := new_row id current_user now listing_data (Some stored) in
            Endpoints.Returns (table ++ [new], new)
        | None => Endpoints.Fails "DataError"
        end
  end.

End H3.

End Query.

End Feed.

(** * Properties *)

(** ** Python values *)

Lemma Qlt_bool_iff (x y : Q) : Py.Qlt_bool x y = true ↔ (x < y)%Q.
Proof.
  unfold Py.Qlt_bool. rewrite negb_true_iff, <- not_true_iff_false, Qle_bool_iff.
  split; [apply Qnot_le_lt | apply Qlt_not_le].
Qed.

Lemma truthy_iff (x : option Q) :
  Py.truthy x = true ↔ ∃ q, x = Some q ∧ ¬ (q == 0)%Q.
Proof.
  destruct x as [q|]; simpl.
  - rewrite negb_true_iff, <- not_true_iff_false, Qeq_bool_iff.
    split; [intros H; exists q; auto | intros (q' & [= ->] & H); exact H].
  - split; [discriminate | intros (q & [=] & _)].
Qed.

Lemma or0_value (x : option Q) : (Py.or0 x == default 0 x)%Q.
Proof.
  destruct x as [q|]; simpl; [|reflexivity].
  destruct (Qeq_bool q 0) eqn:E; [|reflexivity].
  symmetry. by apply Qeq_bool_eq.
Qed.

(** ** Feed events *)

(** C9. An event without [expires_at] passes the non-expired filter of the
    activity query at every query time: its row is kept by the filter, and
    [is_expired] answers [False]. *)
Theorem event_without_expiry_never_excluded :
  ∀ (e : FeedEvent.t) (now : Q) (events : list FeedEvent.t),
    FeedEvent.expires_at e = None →
    FeedEvent.non_expired now e = true ∧
    FeedEvent.is_expired now e = false ∧
    (In e events → In e (FeedEvent.exclude_expired now events)).
Proof.
  intros e now events He.
  assert (Hk : FeedEvent.non_expired now e = true).
  { unfold FeedEvent.non_expired. by rewrite He. }
  split; [exact Hk|]. split.
  - unfold FeedEvent.is_expired. by rewrite He.
  - intros Hin. apply filter_In. by split.
Qed.

Lemma event_without_expiry_never_excluded_witness :
  let e := FeedEvent.mk "NEW_LISTING" 7%N None 1000%Q None in
  FeedEvent.non_expired 999999%Q e = true ∧
  FeedEvent.is_expired 999999%Q e = false ∧
  (In e [e] → In e (FeedEvent.exclude_expired 999999%Q [e])).
Proof.
  exact (event_without_expiry_never_excluded
           (FeedEvent.mk "NEW_LISTING" 7%N None 1000%Q None) 999999%Q
           [FeedEvent.mk "NEW_LISTING" 7%N None 1000%Q None] eq_refl).
Defined.

(** An event with an expiry is kept exactly while the clock is before it. *)
Lemma non_expired_with_expiry (e : FeedEvent.t) (now at_ : Q) :
  FeedEvent.expires_at e = Some at_ →
  FeedEvent.non_expired now e = true ↔ (now < at_)%Q.
Proof.
  intros He. unfold FeedEvent.non_expired. rewrite He. simpl.
  rewrite <- Qlt_bool_iff. by destruct (Py.Qlt_bool now at_).
Qed.

(** ** Price drops *)

Lemma drop_price_true_iff (l : Listing.t) (new_price : Q) :
  snd (Listing.drop_price new_price l) = true ↔
  ∃ p, Listing.price l = Some p ∧ ¬ (p == 0)%Q ∧ (new_price < p)%Q.
Proof.
  unfold Listing.drop_price.
  destruct (Py.truthy (Listing.price l)) eqn:Ht; simpl.
  - apply truthy_iff in Ht as (p & Hp & Hnz). rewrite Hp. simpl.
    destruct (Py.Qlt_bool new_price p) eqn:Hlt; simpl.
    + apply Qlt_bool_iff in Hlt. split; [intros _; exists p; auto | auto].
    + split; [discriminate|]. intros (p' & [= <-] & _ & Hlt').
      apply Qlt_bool_iff in Hlt'. congruence.
  - split; [discriminate|]. intros (p & Hp & Hnz & _).
    assert (Py.truthy (Listing.price l) = true) by (apply truthy_iff; eauto).
    congruence.
Qed.

Lemma drop_price_false_unchanged (l : Listing.t) (new_price : Q) :
  snd (Listing.drop_price new_price l) = false →
  fst (Listing.drop_price new_price l) = l.
Proof.
  unfold Listing.drop_price.
  by destruct (Py.truthy (Listing.price l) && Py.Qlt_bool new_price _).
Qed.

Lemma drop_price_keeps_original (l : Listing.t) (new_price : Q) :
  Py.truthy (Listing.original_price l) = true →
  Listing.original_price (fst (Listing.drop_price new_price l))
  = Listing.original_price l.
Proof.
  intros Ho. unfold Listing.drop_price.
  destruct (Py.truthy (Listing.price l) && Py.Qlt_bool new_price _); simpl;
    [by rewrite Ho | done].
Qed.

Lemma drop_prices_keep_original (later : list Q) (l : Listing.t) :
  Py.truthy (Listing.original_price l) = true →
  Listing.original_price (Listing.drop_prices later l) = Listing.original_price l.
Proof.
  revert l. induction later as [|p later IH]; intros l Ho; [done|].
  unfold Listing.drop_prices in *. simpl.
  rewrite IH; rewrite drop_price_keeps_original; auto.
Qed.

Lemma drop_price_true_effect (l : Listing.t) (new_price : Q) :
  snd (Listing.drop_price new_price l) = true →
  Listing.price (fst (Listing.drop_price new_price l)) = Some new_price ∧
  Listing.original_price (fst (Listing.drop_price new_price l))
  = (if Py.truthy (Listing.original_price l) then Listing.original_price l
     else Listing.price l) ∧
  Py.truthy (Listing.original_price (fst (Listing.drop_price new_price l))) = true.
Proof.
  unfold Listing.drop_price.
  destruct (Py.truthy (Listing.price l)) eqn:Hp; simpl; [|discriminate].
  destruct (Py.Qlt_bool new_price _); simpl; [intros _|discriminate].
  by destruct (Py.truthy (Listing.original_price l)) eqn:Ho; simpl.
Qed.

(** C10, as the code has it. [drop_price(new_price)] returns [True] if and
    only if the listing has a price other than zero and [new_price] is
    strictly below it; for a [new_price] that is not negative, as the
    request schema demands, this is the same as: the listing has a price
    and [new_price] is strictly below it.  When it returns [False] the
    listing is unchanged.  A successful drop on a listing without an
    original price sets [original_price] to the price before the drop,
    and no later call of [drop_price] changes an original price. *)
Theorem drop_price_spec :
  ∀ (l : Listing.t) (new_price : Q),
    (snd (Listing.drop_price new_price l) = true ↔
       ∃ p, Listing.price l = Some p ∧ ¬ (p == 0)%Q ∧ (new_price < p)%Q) ∧
    ((0 <= new_price)%Q →
       (snd (Listing.drop_price new_price l) = true ↔
          ∃ p, Listing.price l = Some p ∧ (new_price < p)%Q)) ∧
    (snd (Listing.drop_price new_price l) = false →
       fst (Listing.drop_price new_price l) = l) ∧
    (snd (Listing.drop_price new_price l) = true →
       Listing.price (fst (Listing.drop_price new_price l)) = Some new_price ∧
       (Py.truthy (Listing.original_price l) = false →
          Listing.original_price (fst (Listing.drop_price new_price l))
          = Listing.price l) ∧
       ∀ later : list Q,
         Listing.original_price
           (Listing.drop_prices later (fst (Listing.drop_price new_price l)))
         = Listing.original_price (fst (Listing.drop_price new_price l))).
Proof.
  intros l new_price. split; [apply drop_price_true_iff|].
  split; [|split; [apply drop_price_false_unchanged|]].
  - intros Hnn. rewrite drop_price_true_iff.
    split; intros (p & Hp & H); exists p; split; auto.
    + tauto.
    + split; [|done]. intros Hz. rewrite Hz in H. lra.
  - intros Hok. destruct (drop_price_true_effect l new_price Hok) as (Hp & Ho & Ht).
    split; [done|]. split.
    + intros Hf. by rewrite Ho, Hf.
    + intros later. by apply drop_prices_keep_original.
Qed.

Lemma drop_price_spec_witness :
  let l := Sample.listing 1 1 "Jordan 4 Bred" (Some 250%Q) Listing.BOTH "cell" 0%Q in
  snd (Listing.drop_price 200 l) = true ∧
  Listing.price (fst (Listing.drop_price 200 l)) = Some 200%Q ∧
  Listing.original_price (fst (Listing.drop_price 200 l)) = Some 250%Q ∧
  Listing.original_price
    (Listing.drop_prices [180%Q; 190%Q; 150%Q] (fst (Listing.drop_price 200 l)))
  = Some 250%Q ∧
  fst (Listing.drop_price 300 l) = l.
Proof.
  intros l.
  destruct (drop_price_spec l 200%Q) as (_ & Hiff & _ & Hok).
  destruct (drop_price_spec l 300%Q) as (_ & _ & Hno & _).
  assert (Ht : snd (Listing.drop_price 200 l) = true).
  { apply Hiff; [vm_compute; discriminate|].
    exists 250%Q. split; [reflexivity | reflexivity]. }
  destruct (Hok Ht) as (Hp & Ho & Hl).
  split; [exact Ht|]. split; [exact Hp|]. split; [exact (Ho eq_refl)|].
  split; [rewrite Hl; exact (Ho eq_refl) | exact (Hno eq_refl)].
Defined.

(** C10 as stated fails on a listing that was created with an original
    price above its price, as the seed script creates them: the first
    successful drop keeps that original price and does not set it to the
    price before the drop. *)
Lemma drop_price_recorded_original_counterexample :
  let l := Listing.set_prices (Some 200%Q) (Some 250%Q)
             (Sample.listing 1 1 "Jordan 4 Bred" None Listing.SALE "cell" 0%Q) in
  ¬ (snd (Listing.drop_price 180 l) = true →
     Listing.original_price (fst (Listing.drop_price 180 l))
     = Listing.price l).
Proof.
  intros l H.
  assert (Ht : snd (Listing.drop_price 180 l) = true) by reflexivity.
  specialize (H Ht). discriminate H.
Qed.

(** ** Heat score *)

(** The weighted sum with an absent velocity read as zero. *)
Lemma weighted_velocities_value (h : HeatIndex.t) :
  (HeatIndex.weighted_velocities h ==
   25 * default 0 (HeatIndex.save_velocity h) +
   30 * default 0 (HeatIndex.dm_velocity h) +
   20 * default 0 (HeatIndex.trade_request_velocity h) +
   15 * default 0 (HeatIndex.listing_velocity h) +
   10 * default 0 (HeatIndex.view_velocity h))%Q.
Proof.
  unfold HeatIndex.weighted_velocities. rewrite !or0_value. ring.
Qed.

Lemma heat_score_monotone (h h' : HeatIndex.t) :
  (default 0 (HeatIndex.save_velocity h) <= default 0 (HeatIndex.save_velocity h'))%Q →
  (default 0 (HeatIndex.dm_velocity h) <= default 0 (HeatIndex.dm_velocity h'))%Q →
  (default 0 (HeatIndex.trade_request_velocity h)
   <= default 0 (HeatIndex.trade_request_velocity h'))%Q →
  (default 0 (HeatIndex.listing_velocity h) <= default 0 (HeatIndex.listing_velocity h'))%Q →
  (default 0 (HeatIndex.view_velocity h) <= default 0 (HeatIndex.view_velocity h'))%Q →
  (HeatIndex.heat_score (HeatIndex.compute_heat_score h)
   <= HeatIndex.heat_score (HeatIndex.compute_heat_score h'))%Q.
Proof.
  intros Hs Hd Ht Hl Hv. simpl. apply Q.min_le_compat_l.
  rewrite !weighted_velocities_value. lra.
Qed.

(** C4. [compute_heat_score] sets [heat_score] to
    [min(100, 25 save + 30 dm + 20 trade_request + 15 listing + 10 view)],
    an absent velocity counting as 0; for velocities that are not negative
    the score lies in [0, 100]; and the score does not decrease when one
    velocity grows and the other four stay as they are. *)
Theorem compute_heat_score_spec :
  (∀ h : HeatIndex.t,
     (HeatIndex.heat_score (HeatIndex.compute_heat_score h) ==
      Qmin 100
        (25 * default 0 (HeatIndex.save_velocity h) +
         30 * default 0 (HeatIndex.dm_velocity h) +
         20 * default 0 (HeatIndex.trade_request_velocity h) +
         15 * default 0 (HeatIndex.listing_velocity h) +
         10 * default 0 (HeatIndex.view_velocity h)))%Q) ∧
  (∀ h : HeatIndex.t,
     (0 <= default 0 (HeatIndex.save_velocity h))%Q →
     (0 <= default 0 (HeatIndex.dm_velocity h))%Q →
     (0 <= default 0 (HeatIndex.trade_request_velocity h))%Q →
     (0 <= default 0 (HeatIndex.listing_velocity h))%Q →
     (0 <= default 0 (HeatIndex.view_velocity h))%Q →
     (0 <= HeatIndex.heat_score (HeatIndex.compute_heat_score h))%Q ∧
     (HeatIndex.heat_score (HeatIndex.compute_heat_score h) <= 100)%Q) ∧
  (∀ (c : string) (s d t l v x y : option Q) (hs : Q) (hl : string),
     (default 0 x <= default 0 y)%Q →
     let score h := HeatIndex.heat_score (HeatIndex.compute_heat_score h) in
     (score (HeatIndex.mk c x d t l v hs hl) <= score (HeatIndex.mk c y d t l v hs hl))%Q ∧
     (score (HeatIndex.mk c s x t l v hs hl) <= score (HeatIndex.mk c s y t l v hs hl))%Q ∧
     (score (HeatIndex.mk c s d x l v hs hl) <= score (HeatIndex.mk c s d y l v hs hl))%Q ∧
     (score (HeatIndex.mk c s d t x v hs hl) <= score (HeatIndex.mk c s d t y v hs hl))%Q ∧
     (score (HeatIndex.mk c s d t l x hs hl) <= score (HeatIndex.mk c s d t l y hs hl))%Q).
Proof.
  split; [|split].
  - intros h. simpl. by rewrite weighted_velocities_value.
  - intros h Hs Hd Ht Hl Hv. simpl. split.
    + apply Q.min_glb; [lra|]. rewrite weighted_velocities_value. lra.
    + apply Q.le_min_l.
  - intros c s d t l v x y hs hl Hxy score.
    repeat split; apply heat_score_monotone; simpl; lra.
Qed.

Lemma compute_heat_score_spec_witness :
  let h := HeatIndex.mk "892a100d2c3ffff" (Some 1%Q) None (Some 0.5%Q)
             (Some 0.25%Q) (Some 0%Q) 0%Q "cold" in
  let h' := HeatIndex.mk "892a100d2c3ffff" (Some 2%Q) None (Some 0.5%Q)
             (Some 0.25%Q) (Some 0%Q) 0%Q "cold" in
  ((0 <= HeatIndex.heat_score (HeatIndex.compute_heat_score h))%Q ∧
   (HeatIndex.heat_score (HeatIndex.compute_heat_score h) <= 100)%Q) ∧
  (HeatIndex.heat_score (HeatIndex.compute_heat_score h)
   <= HeatIndex.heat_score (HeatIndex.compute_heat_score h'))%Q.
Proof.
  intros h h'.
  destruct compute_heat_score_spec as (_ & Hrange & Hmono).
  split.
  - apply (Hrange h); vm_compute; discriminate.
  - refine (proj1 (Hmono "892a100d2c3ffff"%string None None (Some 0.5%Q)
                     (Some 0.25%Q) (Some 0%Q) (Some 1%Q) (Some 2%Q) 0%Q
                     "cold"%string _)).
    vm_compute; discriminate.
Defined.

(** The level follows the capped score: fire from 80, hot from 60, warm
    from 30, cold below. *)
Lemma heat_level_of_score (h : HeatIndex.t) :
  HeatIndex.heat_level (HeatIndex.compute_heat_score h)
  = HeatIndex.level_of (HeatIndex.heat_score (HeatIndex.compute_heat_score h)).
Proof. reflexivity. Qed.

(** ** Ranking *)

Lemma find_none_of_Forall {A} (f : A → bool) (xs : list A) :
  Forall (fun x => f x = false) xs → List.find f xs = None.
Proof.
  induction 1 as [|x xs Hx _ IH]; simpl; [done|]. by rewrite Hx.
Qed.

Lemma no_heat_index_for_cell (db : FeedTasks.DB) (l : Listing.t) :
  Forall (fun h => HeatIndex.h3_index h ≠ Listing.h3_index l)
         (FeedTasks.heat_indexes db) →
  FeedTasks.heat_index_of db l = None.
Proof.
  intros H. apply find_none_of_Forall.
  eapply Forall_impl; [exact H|]. intros h Hne. simpl in Hne.
  by apply String.eqb_neq.
Qed.

Lemma engagement_of_idle_listing (ms mm mv : Z) (l : Listing.t) :
  Listing.save_count l = 0%Z → Listing.message_count l = 0%Z →
  Listing.view_count l = 0%Z →
  (FeedTasks.engagement_score ms mm mv l == 0)%Q.
Proof.
  intros Hs Hm Hv. unfold FeedTasks.engagement_score.
  rewrite Hs, Hm, Hv. unfold Qdiv. ring.
Qed.

Lemma freshness_of_age_zero (age : Q) :
  (age == 0)%Q → (FeedTasks.freshness_score age == 10)%Q.
Proof.
  intros Hc. unfold FeedTasks.freshness_score. rewrite Hc. reflexivity.
Qed.

(** The subtraction [now - listing.created_at] of a naive [utcnow()] and
    a loaded, timezone-aware [created_at] raises for every row. *)
Lemma age_hours_raises (clock : Q) (l : Listing.t) :
  FeedTasks.age_hours (Datetime.utcnow clock) l = None.
Proof. reflexivity. Qed.

Lemma rank_batch_outcome (sel : Listing.t → bool)
    (f : Listing.t → option Listing.t) (ls : list Listing.t) :
  (∀ l, f l = None) →
  mapM (fun l => if sel l then f l else Some l) ls
  = match List.filter sel ls with
    | [] => Some ls
    | _ :: _ => None
    end.
Proof.
  intros Hf. induction ls as [|x ls IH]; [done|].
  cbn [mapM List.filter]. destruct (sel x).
  - by rewrite Hf.
  - rewrite IH. by destruct (List.filter sel ls).
Qed.

Lemma set_listings_same (db : FeedTasks.DB) :
  FeedTasks.set_listings (FeedTasks.listings db) db = db.
Proof. by destruct db. Qed.

(** The outcome of a ranking pass depends on the batch alone. *)
Lemma compute_listing_rankings_outcome (h3_indexes : option (list string))
    (clock : Q) (db : FeedTasks.DB) :
  FeedTasks.compute_listing_rankings h3_indexes clock db
  = match List.filter (FeedTasks.selected h3_indexes) (FeedTasks.listings db) with
    | [] => FeedTasks.Done (db, 0%nat)
    | _ :: _ => FeedTasks.Retry "TypeError"
    end.
Proof.
  unfold FeedTasks.compute_listing_rankings. cbv zeta.
  rewrite rank_batch_outcome by (intros l; reflexivity).
  destruct (List.filter _ _); [|done].
  by rewrite set_listings_same.
Qed.

Lemma ranking_pass_commits_nothing (h3_indexes : option (list string))
    (clock : Q) (db : FeedTasks.DB) :
  FeedTasks.committed db (FeedTasks.compute_listing_rankings h3_indexes clock db)
  = db.
Proof.
  rewrite compute_listing_rankings_outcome. by destruct (List.filter _ _).
Qed.

(** C3, on the code.  A batch that holds the listing of the scenario (no
    saves, messages or views, authenticity 100, staff-verified, created
    at the time of the pass, no original price, no heat-index row for
    its cell) is never ranked: [now - listing.created_at] subtracts the
    loaded, timezone-aware [created_at] from the naive [utcnow()],
    Python raises [TypeError], the task hands it to [self.retry] and
    commits nothing, so the listing keeps the [rank_score] it had.  The
    sum that the loop was to assign is the one of the scenario:
    engagement 0, demand 0, freshness 10, authenticity 10, verified
    bonus 5, price-drop bonus 0, in all 25. *)
Theorem ranking_pass_raises_on_fresh_verified_listing :
  ∀ (h3_indexes : option (list string)) (clock : Q) (db : FeedTasks.DB)
    (i : nat) (l : Listing.t),
    nth_error (FeedTasks.listings db) i = Some l →
    FeedTasks.selected h3_indexes l = true →
    Listing.save_count l = 0%Z →
    Listing.message_count l = 0%Z →
    Listing.view_count l = 0%Z →
    Listing.authenticity_score l = 100%Z →
    Listing.is_verified l = true →
    (Listing.created_at l == clock)%Q →
    Listing.original_price l = None →
    Forall (fun h => HeatIndex.h3_index h ≠ Listing.h3_index l)
           (FeedTasks.heat_indexes db) →
    FeedTasks.age_hours (Datetime.utcnow clock) l = None ∧
    FeedTasks.compute_listing_rankings h3_indexes clock db
    = FeedTasks.Retry "TypeError" ∧
    nth_error
      (FeedTasks.listings
         (FeedTasks.committed db
            (FeedTasks.compute_listing_rankings h3_indexes clock db))) i
    = Some l ∧
    ∀ (max_saves max_messages max_views : Z) (age : Q),
      (age == (clock - Listing.created_at l) / 3600)%Q →
      (FeedTasks.engagement_score max_saves max_messages max_views l == 0)%Q ∧
      (FeedTasks.demand_score db l == 0)%Q ∧
      (FeedTasks.freshness_score age == 10)%Q ∧
      (FeedTasks.auth_score l == 10)%Q ∧
      (FeedTasks.verified_bonus l == 5)%Q ∧
      (FeedTasks.price_drop_bonus l == 0)%Q ∧
      (FeedTasks.total_rank_score db max_saves max_messages max_views age l
       == 25)%Q.
Proof.
  intros h3_indexes clock db i l Hi Hsel Hs Hm Hv Ha Hver Hc Ho Hheat.
  split; [apply age_hours_raises|].
  assert (Hin : In l (List.filter (FeedTasks.selected h3_indexes)
                        (FeedTasks.listings db))).
  { apply List.filter_In. split; [by eapply nth_error_In|done]. }
  split; [|split].
  - rewrite compute_listing_rankings_outcome.
    by destruct (List.filter _ _).
  - by rewrite ranking_pass_commits_nothing.
  - intros ms mm mv age Hage.
    assert (He := engagement_of_idle_listing ms mm mv l Hs Hm Hv).
    assert (Hd : (FeedTasks.demand_score db l == 0)%Q).
    { unfold FeedTasks.demand_score. by rewrite no_heat_index_for_cell. }
    assert (Hf : (FeedTasks.freshness_score age == 10)%Q).
    { apply freshness_of_age_zero. rewrite Hage, Hc. field. }
    assert (Hau : (FeedTasks.auth_score l == 10)%Q).
    { unfold FeedTasks.auth_score. by rewrite Ha. }
    assert (Hvb : (FeedTasks.verified_bonus l == 5)%Q).
    { unfold FeedTasks.verified_bonus. by rewrite Hver. }
    assert (Hpd : (FeedTasks.price_drop_bonus l == 0)%Q).
    { unfold FeedTasks.price_drop_bonus. by rewrite Ho. }
    repeat (split; [assumption|]).
    unfold FeedTasks.total_rank_score.
    rewrite He, Hd, Hf, Hau, Hvb, Hpd. reflexivity.
Qed.

Lemma ranking_pass_raises_on_fresh_verified_listing_witness :
  FeedTasks.compute_listing_rankings None 1000%Q Sample.ranking_db
  = FeedTasks.Retry "TypeError" ∧
  ∃ l : Listing.t,
    nth_error
      (FeedTasks.listings
         (FeedTasks.committed Sample.ranking_db
            (FeedTasks.compute_listing_rankings None 1000%Q Sample.ranking_db))) 0
    = Some l ∧
    Listing.rank_score l = 0%Q.
Proof.
  destruct (ranking_pass_raises_on_fresh_verified_listing None 1000%Q
              Sample.ranking_db 0
              (Sample.listing 10 1 "Jordan 4 Bred" (Some 250%Q) Listing.BOTH
                 "892a100d2c3ffff" 1000%Q)
              eq_refl eq_refl eq_refl eq_refl eq_refl eq_refl eq_refl
              ltac:(reflexivity) eq_refl
              ltac:(repeat constructor; simpl; discriminate))
    as (_ & Hr & Hn & _).
  split; [exact Hr|].
  eexists. split; [exact Hn|reflexivity].
Defined.

(** ** Acceptance of a trade match *)

Section Acceptance.

Import TradeMatch Lifecycle.

Variables (now : Q) (user_id : uuid) (m : TradeMatch.t).

(** The [acceptances] object after the call. *)
Let after : gmap N acceptance :=
  <[user_id := mkAcceptance true None now]> (acceptances_or_empty m).

Lemma record_acceptance_fields :
  acceptances (record_acceptance now user_id m) = Some after ∧
  user_ids (record_acceptance now user_id m) = user_ids m ∧
  listing_ids (record_acceptance now user_id m) = listing_ids m.
Proof.
  unfold record_acceptance. fold after. simpl.
  destruct (forallb (has_accepted after) (user_ids m)); [done|].
  by destruct (status_eqb (status m) SUGGESTED || status_eqb (status m) VIEWED).
Qed.

Lemma record_acceptance_status :
  status (record_acceptance now user_id m) =
  if forallb (has_accepted after) (user_ids m) then ACCEPTED
  else match status m with
       | SUGGESTED | VIEWED => PENDING
       | s => s
       end.
Proof.
  unfold record_acceptance. fold after. simpl.
  destruct (forallb (has_accepted after) (user_ids m)); [done|].
  destruct (status m) eqn:E; simpl; by rewrite ?E.
Qed.

Lemma everyone_accepted_after :
  everyone_accepted (record_acceptance now user_id m) ↔
  forallb (has_accepted after) (user_ids m) = true.
Proof.
  destruct record_acceptance_fields as (Ha & Hu & _).
  unfold everyone_accepted. rewrite Ha, Hu, forallb_forall.
  split.
  - intros H uid Hin. destruct (H uid Hin) as (a & e & [= <-] & He & Hacc).
    unfold has_accepted. by rewrite He.
  - intros H uid Hin. specialize (H uid Hin). unfold has_accepted in H.
    destruct (after !! uid) as [e|] eqn:He; [|discriminate].
    by exists after, e.
Qed.

End Acceptance.

(** C7. On a match that is not over, [record_acceptance] by a participant
    sets the status to ACCEPTED exactly when, after the call, every user of
    [user_ids] has a recorded acceptance: if so the status is ACCEPTED, and
    if not the call does not write ACCEPTED -- it moves a SUGGESTED or
    VIEWED match to PENDING and leaves any other status as it was. *)
Theorem record_acceptance_spec :
  ∀ (now : Q) (user_id : uuid) (m : TradeMatch.t),
    Lifecycle.terminal (TradeMatch.status m) = false →
    In user_id (TradeMatch.user_ids m) →
    let m' := TradeMatch.record_acceptance now user_id m in
    (Lifecycle.everyone_accepted m' → TradeMatch.status m' = TradeMatch.ACCEPTED) ∧
    (¬ Lifecycle.everyone_accepted m' →
       (TradeMatch.status m = TradeMatch.SUGGESTED ∨
        TradeMatch.status m = TradeMatch.VIEWED →
        TradeMatch.status m' = TradeMatch.PENDING) ∧
       (TradeMatch.status m = TradeMatch.PENDING ∨
        TradeMatch.status m = TradeMatch.ACCEPTED →
        TradeMatch.status m' = TradeMatch.status m)) ∧
    (TradeMatch.status m ≠ TradeMatch.ACCEPTED →
       (TradeMatch.status m' = TradeMatch.ACCEPTED ↔ Lifecycle.everyone_accepted m')) ∧
    (∃ a e, TradeMatch.acceptances m' = Some a ∧ a !! user_id = Some e ∧
            TradeMatch.accepted e = true).
Proof.
  intros now user_id m Hterm Hin m'. subst m'.
  rewrite everyone_accepted_after, record_acceptance_status.
  destruct (record_acceptance_fields now user_id m) as (Ha & _ & _).
  destruct (forallb _ (TradeMatch.user_ids m)) eqn:Hall.
  - split; [done|]. split; [done|]. split; [done|].
    eexists _, _. split; [exact Ha|]. split; [apply lookup_insert_eq | done].
  - split; [done|]. split.
    + intros _. split; intros [-> | ->]; done.
    + split.
      * intros Hne. split; [|done].
        destruct (TradeMatch.status m); done.
      * eexists _, _. split; [exact Ha|]. split; [apply lookup_insert_eq | done].
Qed.

Lemma record_acceptance_spec_witness :
  Lifecycle.everyone_accepted
    (TradeMatch.record_acceptance 120 2
       (TradeMatch.record_acceptance 60 1 Sample.suggested_match)).
Proof.
  refine (proj1 (proj1 (proj2 (proj2
            (record_acceptance_spec 120 2
               (TradeMatch.record_acceptance 60 1 Sample.suggested_match)
               eq_refl _))) _) _).
  - vm_compute. right. left. reflexivity.
  - vm_compute. discriminate.
  - vm_compute. reflexivity.
Defined.

(** ** Status transitions *)

(** Case analysis on the status of a match. *)
Ltac by_status m :=
  let E := fresh "E" in
  destruct (TradeMatch.status m) eqn:E; simpl in *; rewrite ?E; try done.

Section Transitions.

Import TradeMatch Lifecycle.

(** From a status that is not terminal no operation goes back in the
    order SUGGESTED < VIEWED < PENDING < ACCEPTED < COMPLETED. *)
Lemma step_not_backward (m : TradeMatch.t) (o : op) :
  terminal (status m) = false →
  backward (status m) (status (step m o)) = false.
Proof.
  intros Hterm. destruct o as [u|now u|now u|now|now]; simpl.
  - unfold record_view. by_status m.
  - rewrite record_acceptance_status.
    destruct (forallb _ _); by_status m.
  - by_status m.
  - by_status m.
  - unfold FeedTasks.expire. destruct (expires_at m); [|by_status m].
    destruct (Py.Qlt_bool _ _); by_status m.
Qed.

(** The guarded writers leave a terminal status alone: a view, the
    expiry of the cleanup pass, and an acceptance that does not complete
    the set of acceptances. *)
Lemma guarded_steps_keep_terminal (m : TradeMatch.t) (o : op) :
  terminal (status m) = true →
  match o with
  | RecordView _ | Expire _ => True
  | RecordAcceptance _ _ => ¬ everyone_accepted (step m o)
  | RecordDecline _ _ | Complete _ => False
  end →
  status (step m o) = status m.
Proof.
  intros Hterm Hop. destruct o as [u|now u|now u|now|now]; simpl in *;
    try done.
  - unfold record_view. by_status m.
  - rewrite everyone_accepted_after in Hop. rewrite record_acceptance_status.
    destruct (forallb _ _); [done|]. by_status m.
  - unfold FeedTasks.expire. destruct (expires_at m); [|done].
    destruct (Py.Qlt_bool _ _); by_status m.
Qed.

(** The unguarded writers: whatever the status was. *)
Lemma record_decline_status (now : Q) (u : uuid) (m : TradeMatch.t) :
  status (record_decline now u m) = DECLINED.
Proof. reflexivity. Qed.

Lemma complete_status (now : Q) (m : TradeMatch.t) :
  status (complete now m) = COMPLETED.
Proof. reflexivity. Qed.

Lemma full_acceptance_status (now : Q) (u : uuid) (m : TradeMatch.t) :
  everyone_accepted (record_acceptance now u m) →
  status (record_acceptance now u m) = ACCEPTED.
Proof.
  rewrite everyone_accepted_after, record_acceptance_status. by intros ->.
Qed.

End Transitions.

(** C1, at two matches whose status is terminal.  A two-way match that
    the cleanup pass expired is EXPIRED; a decline by user 1 then sets it
    to DECLINED, and acceptances by both users set it to ACCEPTED.  A
    match that both users accepted and that was completed is COMPLETED; a
    decline sets it to DECLINED, a repeated acceptance sets it back to
    ACCEPTED, which is earlier in the order, and after the decline
    [complete] sets COMPLETED again.  So the status leaves a terminal
    state and moves backward. *)
Theorem terminal_status_is_overwritten :
  (TradeMatch.status Sample.expired_match = TradeMatch.EXPIRED ∧
   TradeMatch.status
     (Lifecycle.step Sample.expired_match
        (Lifecycle.RecordDecline (TradeMatch.days 9) 1))
   = TradeMatch.DECLINED ∧
   TradeMatch.status
     (Lifecycle.run
        [ Lifecycle.RecordAcceptance (TradeMatch.days 9) 1;
          Lifecycle.RecordAcceptance (TradeMatch.days 10) 2 ]
        Sample.expired_match)
   = TradeMatch.ACCEPTED) ∧
  (TradeMatch.status Sample.completed_match = TradeMatch.COMPLETED ∧
   TradeMatch.status
     (Lifecycle.step Sample.completed_match (Lifecycle.RecordDecline 7200 1))
   = TradeMatch.DECLINED ∧
   TradeMatch.status
     (Lifecycle.step Sample.completed_match (Lifecycle.RecordAcceptance 7200 2))
   = TradeMatch.ACCEPTED ∧
   Lifecycle.backward TradeMatch.COMPLETED TradeMatch.ACCEPTED = true ∧
   TradeMatch.status
     (Lifecycle.run [Lifecycle.RecordDecline 7200 1; Lifecycle.Complete 7300]
        Sample.completed_match)
   = TradeMatch.COMPLETED) ∧
  Lifecycle.terminal TradeMatch.EXPIRED = true ∧
  Lifecycle.terminal TradeMatch.COMPLETED = true ∧
  Lifecycle.terminal TradeMatch.DECLINED = true.
Proof. repeat split; vm_compute; reflexivity. Qed.

(** Hence the two properties do not hold of every match and operation. *)
Lemma status_can_move_backward :
  ¬ (∀ (m : TradeMatch.t) (o : Lifecycle.op),
       Lifecycle.backward (TradeMatch.status m)
         (TradeMatch.status (Lifecycle.step m o)) = false).
Proof.
  intros H.
  specialize (H Sample.completed_match (Lifecycle.RecordAcceptance 7200 2)).
  vm_compute in H. discriminate H.
Qed.

Lemma terminal_status_can_change :
  ¬ (∀ (m : TradeMatch.t) (o : Lifecycle.op),
       Lifecycle.terminal (TradeMatch.status m) = true →
       TradeMatch.status (Lifecycle.step m o) = TradeMatch.status m).
Proof.
  intros H.
  specialize (H Sample.expired_match (Lifecycle.RecordDecline 7200 1) eq_refl).
  vm_compute in H. discriminate H.
Qed.

(** ** Wishlist matching *)

Lemma truthy_str_iff (x : option string) :
  Py.truthy_str x = true ↔ ∃ s, x = Some s ∧ s ≠ EmptyString.
Proof.
  destruct x as [s|]; simpl.
  - rewrite negb_true_iff, String.eqb_neq.
    split; [intros H; exists s; auto | intros (s' & [= ->] & H); exact H].
  - split; [discriminate | intros (s & [=] & _)].
Qed.

Lemma truthy_str_false_iff (x : option string) :
  Py.truthy_str x = false ↔ x = None ∨ x = Some EmptyString.
Proof.
  destruct x as [s|]; simpl.
  - rewrite negb_false_iff, String.eqb_eq.
    split; [intros ->; auto | intros [[=] | [= ->]]; done].
  - split; auto.
Qed.

Section WishlistMatching.

Import UserWishlist WishlistSpec.

Variable upper : string → string.
Variable float_of_str : string → option float.
Variables (w : UserWishlist.t) (l : Listing.t).

Lemma sku_ok_iff :
  sku_ok upper w l = true ↔
  ∀ s s', sku w = Some s → s ≠ EmptyString →
    Listing.sku l = Some s' → s' ≠ EmptyString →
    upper s = upper s'.
Proof.
  unfold sku_ok.
  destruct (Py.truthy_str (sku w)) eqn:Hw; simpl.
  - apply truthy_str_iff in Hw as (s & Hs & Hne).
    destruct (Py.truthy_str (Listing.sku l)) eqn:Hl.
    + apply truthy_str_iff in Hl as (s' & Hs' & Hne').
      rewrite Hs, Hs'. simpl. rewrite String.eqb_eq.
      split; [intros H ? ? [= <-] _ [= <-] _; exact H | eauto].
    + apply truthy_str_false_iff in Hl.
      split; [|done]. intros _ ? s' _ _ Hs' Hne'.
      destruct Hl as [Hl | Hl]; congruence.
  - apply truthy_str_false_iff in Hw.
    split; [|done]. intros _ s ? Hs Hne.
    destruct Hw as [Hw | Hw]; congruence.
Qed.

Lemma brand_ok_iff :
  brand_ok upper w l = true ↔
  ∀ b, brand w = Some b → b ≠ EmptyString →
    Listing.brand l ≠ EmptyString →
    upper b = upper (Listing.brand l).
Proof.
  unfold brand_ok.
  destruct (Py.truthy_str (brand w)) eqn:Hw; simpl.
  - apply truthy_str_iff in Hw as (b & Hb & Hne).
    destruct (String.eqb (Listing.brand l) EmptyString) eqn:Hl; simpl.
    + apply String.eqb_eq in Hl. split; [|done]. intros _ ? _ _ ?. done.
    + apply String.eqb_neq in Hl. rewrite Hb. simpl. rewrite String.eqb_eq.
      split; [intros H ? [= <-] _ _; exact H | eauto].
  - apply truthy_str_false_iff in Hw.
    split; [|done]. intros _ b Hb Hne.
    destruct Hw as [Hw | Hw]; congruence.
Qed.

Lemma size_agrees_iff (want : string) :
  (if negb (size_flexible w) then String.eqb want (Listing.size l)
   else match float_of_str want, float_of_str (Listing.size l) with
        | Some want_size, Some have_size => negb (too_far want_size have_size)
        | _, _ => String.eqb want (Listing.size l)
        end) = true ↔
  size_agrees float_of_str w want (Listing.size l).
Proof.
  unfold size_agrees, compared_as_numbers.
  destruct (size_flexible w); cbn [negb].
  - destruct (float_of_str want) as [a|] eqn:Ha.
    + destruct (float_of_str (Listing.size l)) as [b|] eqn:Hb.
      * rewrite negb_true_iff. split.
        -- intros H. left. by exists a, b.
        -- intros [(a' & b' & _ & [= <-] & [= <-] & H) | (Hn & _)]; [exact H|].
           destruct Hn. by repeat split.
      * rewrite String.eqb_eq. split.
        -- intros H. right. split; [|exact H].
           intros (_ & _ & [? [=]]).
        -- intros [(? & ? & _ & _ & [=] & _) | (_ & H)]; exact H.
    + rewrite String.eqb_eq. split.
      * intros H. right. split; [|exact H].
        intros (_ & [? [=]] & _).
      * intros [(? & ? & _ & [=] & _) | (_ & H)]; exact H.
  - rewrite String.eqb_eq. split.
    + intros H. right. split; [|exact H]. intros ([=] & _).
    + intros [(? & ? & [=] & _) | (_ & H)]; exact H.
Qed.

Lemma size_ok_iff :
  size_ok float_of_str w l = true ↔
  ∀ s, size w = Some s → s ≠ EmptyString →
    Listing.size l ≠ EmptyString →
    size_agrees float_of_str w s (Listing.size l).
Proof.
  unfold size_ok.
  destruct (Py.truthy_str (size w)) eqn:Hw; simpl.
  - apply truthy_str_iff in Hw as (s & Hs & Hne).
    destruct (String.eqb (Listing.size l) EmptyString) eqn:Hl; simpl.
    + apply String.eqb_eq in Hl. split; [|done]. intros _ ? _ _ ?. done.
    + apply String.eqb_neq in Hl. rewrite Hs. simpl. rewrite size_agrees_iff.
      split; [intros H ? [= <-] _ _; exact H | eauto].
  - apply truthy_str_false_iff in Hw.
    split; [|done]. intros _ s Hs Hne.
    destruct Hw as [Hw | Hw]; congruence.
Qed.

Lemma price_ok_iff :
  price_ok w l = true ↔
  ∀ p q, max_price w = Some p → ¬ (p == 0)%Q →
    Listing.price l = Some q → ¬ (q == 0)%Q → (q <= p)%Q.
Proof.
  unfold price_ok.
  destruct (Py.truthy (max_price w)) eqn:Hw; simpl.
  - apply truthy_iff in Hw as (p & Hp & Hnz).
    destruct (Py.truthy (Listing.price l)) eqn:Hl.
    + apply truthy_iff in Hl as (q & Hq & Hqz).
      rewrite Hp, Hq. simpl. rewrite Qle_bool_iff.
      split; [intros H ? ? [= <-] _ [= <-] _; exact H | eauto].
    + split; [|done]. intros _ ? q _ _ Hq Hqz.
      assert (Py.truthy (Listing.price l) = true) by (apply truthy_iff; eauto).
      congruence.
  - split; [|done]. intros _ p ? Hp Hnz.
    assert (Py.truthy (max_price w) = true) by (apply truthy_iff; eauto).
    congruence.
Qed.

Lemma listing_condition_on_scale :
  ∃ j, position (Listing.condition_name (Listing.condition l)) = Some j.
Proof. destruct (Listing.condition l); eexists; reflexivity. Qed.

Lemma condition_ok_iff :
  condition_ok w l = true ↔
  ∀ c i, min_condition w = Some c → position c = Some i →
    ∃ j, position (Listing.condition_name (Listing.condition l)) = Some j ∧
         (j ≤ i)%nat.
Proof.
  unfold condition_ok.
  change (Py.index condition_order) with position.
  destruct listing_condition_on_scale as (j & Hj). rewrite Hj.
  destruct (min_condition w) as [c|] eqn:Hc; cbn [Py.truthy_str].
  - change (default EmptyString (Some c)) with c.
    destruct (String.eqb c EmptyString) eqn:Hn; cbn [negb].
    + apply String.eqb_eq in Hn as ->.
      split; [|done]. intros _ ? i [= <-] Hi. discriminate.
    + destruct (position c) as [i|] eqn:Hi.
      * rewrite negb_true_iff, Nat.ltb_ge.
        split.
        -- intros H c0 i0 [= <-] Hi0. rewrite Hi in Hi0.
           injection Hi0 as <-. eauto.
        -- intros H. destruct (H c i eq_refl Hi) as (j' & [= <-] & Hle).
           exact Hle.
      * split; [|done]. intros _ c0 i0 [= <-] Hi0. congruence.
  - split; [|done]. intros _ ? ? [=].
Qed.

End WishlistMatching.

(** C8, as the code has it. [matches_listing] returns [True] exactly when
    every wishlist field that has a value, and whose listing field has a
    value too, matches: SKU and brand equal after [str.upper]; size the
    same text, or instead, for a flexible wishlist whose size and the
    listing's are both read by [float], the difference of the two doubles
    not greater than 0.5; price at most [max_price]; condition not later
    than [min_condition] on the scale DS, VNDS, EXCELLENT, GOOD, FAIR,
    BEAT.  A field that is absent, empty or zero on either side imposes
    no constraint, and neither does a [min_condition] outside the
    scale.  [str.upper] and [float] are any functions. *)
Theorem matches_listing_iff_rel :
  ∀ (upper : string → string) (float_of_str : string → option float)
    (w : UserWishlist.t) (l : Listing.t),
    UserWishlist.matches_listing upper float_of_str w l = true ↔
    WishlistSpec.matches_listing_rel upper float_of_str w l.
Proof.
  intros upper float_of_str w l.
  unfold WishlistSpec.matches_listing_rel.
  rewrite <- (sku_ok_iff upper), <- (brand_ok_iff upper),
    <- (size_ok_iff float_of_str), <- price_ok_iff, <- condition_ok_iff.
  unfold UserWishlist.matches_listing.
  destruct (UserWishlist.sku_ok upper w l), (UserWishlist.brand_ok upper w l),
    (UserWishlist.size_ok float_of_str w l), (UserWishlist.price_ok w l),
    (UserWishlist.condition_ok w l); simpl; intuition congruence.
Qed.

(** The predicate on sample rows: a flexible size 10 accepts 10 and 10.5
    and rejects 11; a condition below the minimum is rejected. *)
Example matches_listing_samples :
  let l (size : string) cond :=
    Listing.mk 10 1 "Jordan 4 Bred" "Jordan" (Some "DH6927-061"%string) size cond
      100 true (Some 250%Q) None Listing.BOTH "892a100d2c3ffff"
      0 0 0 0 0 Listing.ACTIVE 0%Q in
  let matches := UserWishlist.matches_listing Sample.upper Sample.float_of_str in
  matches Sample.wishlist_size (l "10"%string Listing.DS) = true ∧
  matches Sample.wishlist_size (l "10.5"%string Listing.VNDS) = true ∧
  matches Sample.wishlist_size (l "11"%string Listing.DS) = false ∧
  matches Sample.wishlist_size (l "10"%string Listing.GOOD) = false.
Proof. repeat split; vm_compute; reflexivity. Qed.

(** The comparison is the one of doubles.  The doubles of 8.3 and 7.8
    differ by more than 0.5, so a flexible wishlist for size 7.8 refuses a
    listing of size 8.3; and no difference with [nan] is greater than 0.5,
    so a flexible wishlist whose size reads [nan] accepts every size that
    [float] reads. *)
Example matches_listing_doubles :
  let l (size : string) :=
    Listing.mk 10 1 "Jordan 4 Bred" "Jordan" None size Listing.DS
      100 true (Some 250%Q) None Listing.BOTH "892a100d2c3ffff"
      0 0 0 0 0 Listing.ACTIVE 0%Q in
  let w (size : string) :=
    UserWishlist.mk None None (Some size) true None None in
  let matches := UserWishlist.matches_listing Sample.upper Sample.float_of_str in
  matches (w "7.8"%string) (l "8.3"%string) = false ∧
  matches (w "7.5"%string) (l "8"%string) = true ∧
  matches (w "nan"%string) (l "8.3"%string) = true ∧
  matches (w "nan"%string) (l "14"%string) = true.
Proof. repeat split; vm_compute; reflexivity. Qed.

(** C8 as stated fails on a listing without a style code, whatever
    [str.upper] and [float] do: the wishlist specifies a SKU, the listing
    has none to equal it, and [matches_listing] returns [True]. *)
Lemma matches_listing_counterexample :
  ¬ (∃ (upper : string → string) (float_of_str : string → option float),
       ∀ (w : UserWishlist.t) (l : Listing.t),
         UserWishlist.matches_listing upper float_of_str w l = true ↔
         WishlistSpec.matches_listing_spec upper float_of_str w l).
Proof.
  intros (upper & float_of_str & H).
  pose (l := Sample.listing 10 1 "Jordan 4 Bred" (Some 250%Q) Listing.BOTH
               "892a100d2c3ffff" 0%Q).
  destruct (H Sample.wishlist_sku l) as [Hspec _].
  destruct (Hspec eq_refl) as (Hsku & _).
  destruct (Hsku _ eq_refl) as (s' & Hs' & _).
  discriminate Hs'.
Qed.

(** The same happens for a price ceiling of zero, which the code reads as
    no ceiling. *)
Lemma matches_listing_zero_ceiling :
  ∀ (upper : string → string) (float_of_str : string → option float),
    let w := UserWishlist.mk None None None false (Some 0%Q) None in
    let l := Sample.listing 10 1 "Jordan 4 Bred" (Some 250%Q) Listing.BOTH
               "892a100d2c3ffff" 0%Q in
    UserWishlist.matches_listing upper float_of_str w l = true ∧
    ¬ WishlistSpec.matches_listing_spec upper float_of_str w l.
Proof.
  intros upper float_of_str w l. split; [reflexivity|].
  intros (_ & _ & _ & Hp & _).
  destruct (Hp _ eq_refl) as (q & [= <-] & Hle).
  revert Hle. vm_compute. auto.
Qed.

(** ** Radius expansion *)

Lemma Qeq_bool_right (x r key : Q) :
  (r == key)%Q → Qeq_bool x r = Qeq_bool x key.
Proof.
  intros Hr. destruct (Qeq_bool x key) eqn:E.
  - apply Qeq_bool_iff. apply Qeq_bool_iff in E. by rewrite Hr.
  - apply not_true_iff_false. intros Ht. apply Qeq_bool_iff in Ht.
    apply not_true_iff_false in E. apply E, Qeq_bool_iff. by rewrite <- Hr.
Qed.

Lemma kring_size_in_table (r : Q) (key : Q) (k : Z) :
  (r == key)%Q →
  List.find (fun kv => Qeq_bool (fst kv) key) H3Geo.RADIUS_TO_KRING = Some (key, k) →
  H3Geo.kring_size r = k.
Proof.
  intros Hr Hfind. unfold H3Geo.kring_size, H3Geo.dict_get.
  assert (Hsame : ∀ d : list (Q * Z),
             List.find (fun kv => Qeq_bool (fst kv) r) d
             = List.find (fun kv => Qeq_bool (fst kv) key) d).
  { intros d. induction d as [|kv d IH]; simpl; [done|].
    by rewrite IH, (Qeq_bool_right _ r key Hr). }
  by rewrite Hsame, Hfind.
Qed.

Lemma kring_size_outside_table (r : Q) :
  ¬ (r == 0.25)%Q → ¬ (r == 0.5)%Q → ¬ (r == 1)%Q → ¬ (r == 3)%Q →
  ¬ (r == 5)%Q →
  H3Geo.kring_size r = Py.int (r * 2.5).
Proof.
  intros H1 H2 H3 H4 H5. unfold H3Geo.kring_size, H3Geo.dict_get. simpl.
  assert (Hne : ∀ key, ¬ (r == key)%Q → Qeq_bool key r = false).
  { intros key Hk. apply not_true_iff_false. intros Ht.
    apply Qeq_bool_eq in Ht. apply Hk. by symmetry. }
  by rewrite !Hne.
Qed.

(** [int] rounds a number that is not negative down. *)
Lemma int_floor (x : Q) :
  (0 <= x)%Q → (inject_Z (Py.int x) <= x)%Q ∧ (x < inject_Z (Py.int x) + 1)%Q.
Proof.
  intros Hx.
  assert (Hq : Py.int x = Qfloor x).
  { destruct x as [n d]. unfold Py.int, Qfloor. simpl.
    apply Z.quot_div_nonneg; [|lia].
    unfold Qle in Hx. simpl in Hx. lia. }
  rewrite Hq. split; [apply Qfloor_le|].
  pose proof (Qlt_floor x) as Hlt. rewrite inject_Z_plus in Hlt. exact Hlt.
Qed.

Lemma resolution_brackets (r : Q) :
  H3Geo.get_resolution_for_radius r =
  if Qle_bool r 0.5 then 9%Z else if Qle_bool r 1.5 then 8%Z
  else if Qle_bool r 5 then 7%Z else 6%Z.
Proof. reflexivity. Qed.

Section RadiusExpansion.

Variable cell : Type.
Variable geo_to_h3 : Q → Q → Z → cell.
Variable k_ring : cell → Z → list cell.
Variable h3_get_resolution : cell → Z.

(** What is assumed of h3: a cell has the resolution it was made at, a
    disk stays on the resolution of its centre, and the disk of size 0
    is the centre alone. *)
Hypothesis resolution_of_geo :
  ∀ lat lng res, h3_get_resolution (geo_to_h3 lat lng res) = res.
Hypothesis resolution_of_ring :
  ∀ c k c', In c' (k_ring c k) → h3_get_resolution c' = h3_get_resolution c.
Hypothesis ring_zero : ∀ c, k_ring c 0 = [c].

Lemma get_radius_hexes_resolution (lat lng r : Q) (res : Z) (c : cell) :
  In c (H3Geo.get_radius_hexes geo_to_h3 k_ring lat lng r res) →
  h3_get_resolution c = res.
Proof.
  unfold H3Geo.get_radius_hexes. intros Hin.
  by rewrite (resolution_of_ring _ _ _ Hin), resolution_of_geo.
Qed.

(** With a disk that holds its centre, the default expansion of 3 miles
    is not the disk of size 8 at resolution 7, whatever h3 computes. *)
Lemma default_expansion_not_at_resolution_7 (lat lng : Q) :
  (∀ c k, (0 ≤ k)%Z → In c (k_ring c k)) →
  H3Geo.get_radius_hexes geo_to_h3 k_ring lat lng 3 H3Geo.DEFAULT_RESOLUTION
  ≠ k_ring (geo_to_h3 lat lng 7) 8.
Proof.
  intros Hcentre Heq.
  assert (Hin : In (geo_to_h3 lat lng 7) (k_ring (geo_to_h3 lat lng 7) 8))
    by (apply Hcentre; lia).
  rewrite <- Heq in Hin. apply get_radius_hexes_resolution in Hin.
  rewrite resolution_of_geo in Hin. discriminate Hin.
Qed.

End RadiusExpansion.

(** The lattice meets the assumptions. *)
Lemma grid_resolution_of_ring (c : GridH3.cell) (k : Z) (c' : GridH3.cell) :
  In c' (GridH3.k_ring c k) →
  GridH3.h3_get_resolution c' = GridH3.h3_get_resolution c.
Proof.
  unfold GridH3.k_ring. rewrite in_flat_map. intros (dq & _ & Hin).
  rewrite in_flat_map in Hin. destruct Hin as (dr & _ & Hin).
  destruct (GridH3.steps dq dr <=? k)%Z; [|done].
  destruct Hin as [<- | []]. reflexivity.
Qed.

Lemma grid_ring_zero (c : GridH3.cell) : GridH3.k_ring c 0 = [c].
Proof.
  destruct c as [res [q r]]. unfold GridH3.k_ring. simpl.
  by rewrite !Z.add_0_r.
Qed.

Lemma grid_ring_centre (c : GridH3.cell) (k : Z) :
  (0 ≤ k)%Z → In c (GridH3.k_ring c k).
Proof.
  intros Hk. destruct c as [res [q r]]. unfold GridH3.k_ring.
  assert (Hz : In 0%Z (seqZ (- k) (2 * k + 1))).
  { apply list_elem_of_In, elem_of_seqZ. lia. }
  apply in_flat_map. exists 0%Z. split; [exact Hz|].
  apply in_flat_map. exists 0%Z. split; [exact Hz|].
  replace (GridH3.steps 0 0 <=? k)%Z with true
    by (symmetry; apply Z.leb_le; unfold GridH3.steps; lia).
  simpl. left. by rewrite !Z.add_0_r.
Qed.

(** C6, as the code has it.  The expansion maps the radius to the disk size
    [k] alone: 0.25 to 0, 0.5 to 1, 1 to 3, 3 to 8, 5 to 13, and any other
    radius to [radius * 2.5] cut to an integer.  The disk is taken around
    the cell of the point at the resolution that the caller passes, 9 by
    default, whatever the radius, so every cell of the result has that
    resolution.  [get_resolution_for_radius] is a separate function, which
    recommends 9 up to 0.5 miles, 8 up to 1.5, 7 up to 5 and 6 beyond (so
    9, 9, 8, 7, 7 for the five radii of the table).  In particular, at
    the default resolution the radius 0.25 yields the centre cell of
    resolution 9 alone, and the radius 3.0 yields the disk of size 8 at
    resolution 9. *)
Theorem radius_expansion_spec :
  ∀ (cell : Type) (geo_to_h3 : Q → Q → Z → cell)
    (k_ring : cell → Z → list cell) (h3_get_resolution : cell → Z),
    (∀ lat lng res, h3_get_resolution (geo_to_h3 lat lng res) = res) →
    (∀ c k c', In c' (k_ring c k) → h3_get_resolution c' = h3_get_resolution c) →
    (∀ c, k_ring c 0%Z = [c]) →
    (∀ r : Q,
       ((r == 0.25)%Q → H3Geo.kring_size r = 0%Z) ∧
       ((r == 0.5)%Q → H3Geo.kring_size r = 1%Z) ∧
       ((r == 1)%Q → H3Geo.kring_size r = 3%Z) ∧
       ((r == 3)%Q → H3Geo.kring_size r = 8%Z) ∧
       ((r == 5)%Q → H3Geo.kring_size r = 13%Z) ∧
       (¬ (r == 0.25)%Q → ¬ (r == 0.5)%Q → ¬ (r == 1)%Q → ¬ (r == 3)%Q →
        ¬ (r == 5)%Q →
        H3Geo.kring_size r = Py.int (r * 2.5) ∧
        ((0 <= r)%Q →
         (inject_Z (H3Geo.kring_size r) <= r * 2.5)%Q ∧
         (r * 2.5 < inject_Z (H3Geo.kring_size r) + 1)%Q))) ∧
    (∀ (lat lng r : Q) (res : Z),
       H3Geo.get_radius_hexes geo_to_h3 k_ring lat lng r res
       = k_ring (geo_to_h3 lat lng res) (H3Geo.kring_size r) ∧
       ∀ c, In c (H3Geo.get_radius_hexes geo_to_h3 k_ring lat lng r res) →
            h3_get_resolution c = res) ∧
    (∀ r : Q,
       ((r <= 0.5)%Q → H3Geo.get_resolution_for_radius r = 9%Z) ∧
       ((0.5 < r)%Q → (r <= 1.5)%Q → H3Geo.get_resolution_for_radius r = 8%Z) ∧
       ((1.5 < r)%Q → (r <= 5)%Q → H3Geo.get_resolution_for_radius r = 7%Z) ∧
       ((5 < r)%Q → H3Geo.get_resolution_for_radius r = 6%Z)) ∧
    (∀ lat lng : Q,
       H3Geo.get_radius_hexes geo_to_h3 k_ring lat lng 0.25 H3Geo.DEFAULT_RESOLUTION
       = [geo_to_h3 lat lng 9%Z] ∧
       H3Geo.get_radius_hexes geo_to_h3 k_ring lat lng 3 H3Geo.DEFAULT_RESOLUTION
       = k_ring (geo_to_h3 lat lng 9%Z) 8%Z).
Proof.
  intros cell geo_to_h3 k_ring h3_get_resolution Hgeo Hring Hzero.
  split; [|split; [|split]].
  - intros r. repeat split.
    + intros Hr. by apply (kring_size_in_table r 0.25).
    + intros Hr. by apply (kring_size_in_table r 0.5).
    + intros Hr. by apply (kring_size_in_table r 1).
    + intros Hr. by apply (kring_size_in_table r 3).
    + intros Hr. by apply (kring_size_in_table r 5).
    + by apply kring_size_outside_table.
    + rewrite kring_size_outside_table by done.
      apply int_floor. lra.
    + rewrite kring_size_outside_table by done.
      apply int_floor. lra.
  - intros lat lng r res. split; [reflexivity|].
    intros c. by apply get_radius_hexes_resolution.
  - intros r. rewrite resolution_brackets. repeat split.
    + intros H. apply Qle_bool_iff in H. by rewrite H.
    + intros H1 H2. apply Qlt_not_le in H1.
      destruct (Qle_bool r 0.5) eqn:E; [by apply Qle_bool_iff in E|].
      apply Qle_bool_iff in H2. by rewrite H2.
    + intros H1 H2. apply Qlt_not_le in H1.
      destruct (Qle_bool r 0.5) eqn:E; [apply Qle_bool_iff in E; lra|].
      destruct (Qle_bool r 1.5) eqn:E'; [by apply Qle_bool_iff in E'|].
      apply Qle_bool_iff in H2. by rewrite H2.
    + intros H.
      destruct (Qle_bool r 0.5) eqn:E; [apply Qle_bool_iff in E; lra|].
      destruct (Qle_bool r 1.5) eqn:E'; [apply Qle_bool_iff in E'; lra|].
      destruct (Qle_bool r 5) eqn:E''; [apply Qle_bool_iff in E''; lra|].
      done.
  - intros lat lng. split; [apply Hzero | reflexivity].
Qed.

Lemma radius_expansion_spec_witness :
  H3Geo.get_radius_hexes GridH3.geo_to_h3 GridH3.k_ring 40.7 (-74) 0.25
    H3Geo.DEFAULT_RESOLUTION
  = [GridH3.geo_to_h3 40.7 (-74) 9] ∧
  H3Geo.get_radius_hexes GridH3.geo_to_h3 GridH3.k_ring 40.7 (-74) 3
    H3Geo.DEFAULT_RESOLUTION
  = GridH3.k_ring (GridH3.geo_to_h3 40.7 (-74) 9) 8.
Proof.
  exact (proj2 (proj2 (proj2
    (radius_expansion_spec GridH3.cell GridH3.geo_to_h3 GridH3.k_ring
       GridH3.h3_get_resolution
       (fun _ _ _ => eq_refl) grid_resolution_of_ring grid_ring_zero)))
    40.7%Q (-74)%Q).
Defined.

(** C6 as stated fails: for the radius 3.0 the expansion does not yield
    the disk of size 8 at resolution 7.  On the lattice, which meets what
    is assumed of h3, the two differ. *)
Lemma radius_expansion_counterexample :
  ¬ (∀ (cell : Type) (geo_to_h3 : Q → Q → Z → cell)
       (k_ring : cell → Z → list cell) (h3_get_resolution : cell → Z),
       (∀ lat lng res, h3_get_resolution (geo_to_h3 lat lng res) = res) →
       (∀ c k c', In c' (k_ring c k) → h3_get_resolution c' = h3_get_resolution c) →
       (∀ c, k_ring c 0%Z = [c]) →
       H3Geo.get_radius_hexes geo_to_h3 k_ring 40.7 (-74) 3 H3Geo.DEFAULT_RESOLUTION
       = k_ring (geo_to_h3 40.7%Q (-74)%Q (H3Geo.get_resolution_for_radius 3)) 8%Z).
Proof.
  intros H.
  specialize (H GridH3.cell GridH3.geo_to_h3 GridH3.k_ring
                GridH3.h3_get_resolution
                (fun _ _ _ => eq_refl) grid_resolution_of_ring grid_ring_zero).
  revert H.
  apply (default_expansion_not_at_resolution_7 GridH3.cell GridH3.geo_to_h3
           GridH3.k_ring GridH3.h3_get_resolution
           (fun _ _ _ => eq_refl) grid_resolution_of_ring 40.7%Q (-74)%Q
           grid_ring_centre).
Qed.

(** ** Trade discovery: the scores of a new match *)

Section MatchScores.

Variable h3_distance : string → string → option Z.
Variables (now : Q) (user : uuid) (user_offers wanted : Listing.t).

Let m := FeedTasks.new_two_way h3_distance now user user_offers wanted.

Lemma new_two_way_fields :
  TradeMatch.match_type m = TradeMatch.TWO_WAY ∧
  TradeMatch.status m = TradeMatch.SUGGESTED ∧
  TradeMatch.user_ids m = [user; Listing.user_id wanted] ∧
  TradeMatch.listing_ids m = [Listing.id user_offers; Listing.id wanted] ∧
  TradeMatch.locality_score m
  = FeedTasks.locality_of h3_distance user_offers wanted.
Proof.
  subst m. unfold FeedTasks.new_two_way.
  by destruct (Py.truthy (Listing.price user_offers)
               && Py.truthy (Listing.price wanted)).
Qed.

Lemma new_two_way_locality :
  TradeMatch.locality_score m =
  match h3_distance (Listing.h3_index user_offers) (Listing.h3_index wanted) with
  | Some distance => Z.max 0 (100 - 10 * distance)
  | None => 50%Z
  end.
Proof.
  destruct new_two_way_fields as (_ & _ & _ & _ & ->).
  unfold FeedTasks.locality_of.
  destruct (h3_distance _ _) as [d|]; [|done]. f_equal. lia.
Qed.

Lemma new_two_way_priced (pa pb : Q) :
  Listing.price user_offers = Some pa → ¬ (pa == 0)%Q →
  Listing.price wanted = Some pb → ¬ (pb == 0)%Q →
  (TradeMatch.value_balance m == Qmin pa pb / Qmax pa pb)%Q ∧
  (TradeMatch.match_score m ==
   0.5 * inject_Z (TradeMatch.locality_score m)
   + 0.5 * 100 * TradeMatch.value_balance m)%Q.
Proof.
  intros Ha Hna Hb Hnb.
  destruct new_two_way_fields as (_ & _ & _ & _ & Hloc). revert Hloc.
  subst m. unfold FeedTasks.new_two_way.
  replace (Py.truthy (Listing.price user_offers)) with true
    by (symmetry; apply truthy_iff; eauto).
  replace (Py.truthy (Listing.price wanted)) with true
    by (symmetry; apply truthy_iff; eauto).
  rewrite Ha, Hb. cbn [andb Py.float]. intros Hloc.
  cbn [TradeMatch.set_scores TradeMatch.value_balance TradeMatch.match_score
       TradeMatch.locality_score TradeMatch.create_two_way] in *.
  split; [reflexivity | ring].
Qed.

Lemma new_two_way_unpriced :
  Listing.price user_offers = None ∨ Listing.price wanted = None →
  (TradeMatch.match_score m == 0.5 * inject_Z (TradeMatch.locality_score m))%Q ∧
  (TradeMatch.value_balance m == 0)%Q.
Proof.
  intros Hnone. subst m. unfold FeedTasks.new_two_way.
  replace (Py.truthy (Listing.price user_offers)
           && Py.truthy (Listing.price wanted)) with false
    by (destruct Hnone as [-> | ->]; simpl; by rewrite ?andb_false_r).
  cbn [TradeMatch.set_scores TradeMatch.value_balance TradeMatch.match_score
       TradeMatch.locality_score TradeMatch.create_two_way].
  split; [ring | reflexivity].
Qed.

End MatchScores.

(** ** Trade discovery: the scenario of two reciprocal listings *)

Section TwoListings.

Variable h3_distance : string → string → option Z.
Variables (now : Q) (cell : string).
Hypothesis same_cell : h3_distance cell cell = Some 0%Z.

(** The match of the scenario, whichever of the two users the pass
    meets first. *)
Lemma scenario_match_scores (m : TradeMatch.t) :
  m = FeedTasks.new_two_way h3_distance now 1
        (Sample.listing_a cell) (Sample.listing_b cell) ∨
  m = FeedTasks.new_two_way h3_distance now 2
        (Sample.listing_b cell) (Sample.listing_a cell) →
  TradeMatch.match_type m = TradeMatch.TWO_WAY ∧
  TradeMatch.status m = TradeMatch.SUGGESTED ∧
  FeedTasks.array_contains (TradeMatch.listing_ids m) [10; 20]%N = true ∧
  TradeMatch.locality_score m = 100%Z ∧
  (TradeMatch.value_balance m == 100 / 120)%Q ∧
  (TradeMatch.match_score m ==
   0.5 * inject_Z (TradeMatch.locality_score m)
   + 0.5 * 100 * TradeMatch.value_balance m)%Q.
Proof.
  intros [-> | ->].
  - destruct (new_two_way_fields h3_distance now 1
                (Sample.listing_a cell) (Sample.listing_b cell))
      as (Ht & Hs & _ & Hl & _).
    destruct (new_two_way_priced h3_distance now 1
                (Sample.listing_a cell) (Sample.listing_b cell) 100 120)
      as (Hv & Hm); try done.
    split; [exact Ht|]. split; [exact Hs|]. split; [by rewrite Hl|].
    split; [|split; [by rewrite Hv | exact Hm]].
    rewrite new_two_way_locality.
    change (Listing.h3_index (Sample.listing_a cell)) with cell.
    change (Listing.h3_index (Sample.listing_b cell)) with cell.
    by rewrite same_cell.
  - destruct (new_two_way_fields h3_distance now 2
                (Sample.listing_b cell) (Sample.listing_a cell))
      as (Ht & Hs & _ & Hl & _).
    destruct (new_two_way_priced h3_distance now 2
                (Sample.listing_b cell) (Sample.listing_a cell) 120 100)
      as (Hv & Hm); try done.
    split; [exact Ht|]. split; [exact Hs|]. split; [by rewrite Hl|].
    split; [|split; [by rewrite Hv | exact Hm]].
    rewrite new_two_way_locality.
    change (Listing.h3_index (Sample.listing_a cell)) with cell.
    change (Listing.h3_index (Sample.listing_b cell)) with cell.
    by rewrite same_cell.
Qed.

(** What a pass leaves in the match table, for each order of the user
    table and each choice of the user to process. *)
Lemma scenario_pass (users : list uuid) (user_id : option uuid) :
  users = [1; 2]%N ∨ users = [2; 1]%N →
  user_id = None ∨ user_id = Some 1%N ∨ user_id = Some 2%N →
  ∃ m,
    FeedTasks.find_trade_matches h3_distance user_id now
      (Sample.trade_db cell users)
    = (FeedTasks.set_trade_matches [m] (Sample.trade_db cell users), 1%nat) ∧
    (m = FeedTasks.new_two_way h3_distance now 1
           (Sample.listing_a cell) (Sample.listing_b cell) ∨
     m = FeedTasks.new_two_way h3_distance now 2
           (Sample.listing_b cell) (Sample.listing_a cell)).
Proof.
  intros [-> | ->] [-> | [-> | ->]];
    eexists; (split; [reflexivity|]); auto.
Qed.

End TwoListings.

(** C5. Listing A of user 1 at 100 and listing B of user 2 at 120, both
    open to trade and in one cell, A saved by user 2 and B by user 1: a
    discovery pass creates exactly one match; it is TWO_WAY, covers A and
    B, has [locality_score = 100], [value_balance = 100/120] and
    [match_score = 0.5 locality_score + 0.5 * 100 * value_balance].
    For every new match, [locality_score] is [max(0, 100 - 10 distance)],
    or 50 when the distance lookup fails; with both prices,
    [value_balance] is the smaller price over the larger and [match_score]
    is as above; when a listing has no price the value term is left out. *)
Theorem two_way_scenario :
  ∀ (h3_distance : string → string → option Z) (now : Q) (cell : string)
    (users : list uuid) (user_id : option uuid),
    h3_distance cell cell = Some 0%Z →
    users = [1; 2]%N ∨ users = [2; 1]%N →
    user_id = None ∨ user_id = Some 1%N ∨ user_id = Some 2%N →
    (∃ m : TradeMatch.t,
       FeedTasks.trade_matches
         (fst (FeedTasks.find_trade_matches h3_distance user_id now
                 (Sample.trade_db cell users))) = [m] ∧
       snd (FeedTasks.find_trade_matches h3_distance user_id now
              (Sample.trade_db cell users)) = 1%nat ∧
       TradeMatch.match_type m = TradeMatch.TWO_WAY ∧
       TradeMatch.status m = TradeMatch.SUGGESTED ∧
       FeedTasks.array_contains (TradeMatch.listing_ids m) [10; 20]%N = true ∧
       TradeMatch.locality_score m = 100%Z ∧
       (TradeMatch.value_balance m == 100 / 120)%Q ∧
       (TradeMatch.match_score m ==
        0.5 * inject_Z (TradeMatch.locality_score m)
        + 0.5 * 100 * TradeMatch.value_balance m)%Q) ∧
    (∀ (user : uuid) (user_offers wanted : Listing.t),
       let m := FeedTasks.new_two_way h3_distance now user user_offers wanted in
       TradeMatch.locality_score m =
         match h3_distance (Listing.h3_index user_offers) (Listing.h3_index wanted) with
         | Some distance => Z.max 0 (100 - 10 * distance)
         | None => 50%Z
         end ∧
       (∀ pa pb : Q,
          Listing.price user_offers = Some pa → ¬ (pa == 0)%Q →
          Listing.price wanted = Some pb → ¬ (pb == 0)%Q →
          (TradeMatch.value_balance m == Qmin pa pb / Qmax pa pb)%Q ∧
          (TradeMatch.match_score m ==
           0.5 * inject_Z (TradeMatch.locality_score m)
           + 0.5 * 100 * TradeMatch.value_balance m)%Q) ∧
       (Listing.price user_offers = None ∨ Listing.price wanted = None →
        (TradeMatch.match_score m
         == 0.5 * inject_Z (TradeMatch.locality_score m))%Q)).
Proof.
  intros h3_distance now cell users user_id Hcell Husers Huser. split.
  - destruct (scenario_pass h3_distance now cell users user_id Husers Huser)
      as (m & -> & Hm).
    exists m. split; [reflexivity|]. split; [reflexivity|].
    by apply (scenario_match_scores h3_distance now cell Hcell).
  - intros user user_offers wanted m. split; [apply new_two_way_locality|].
    split; [apply new_two_way_priced|].
    intros Hnone. by apply new_two_way_unpriced.
Qed.

Lemma two_way_scenario_witness :
  ∃ m : TradeMatch.t,
    FeedTasks.trade_matches
      (fst (FeedTasks.find_trade_matches Sample.h3_distance None 0
              (Sample.trade_db "892a100d2c3ffff" [1; 2]%N))) = [m] ∧
    TradeMatch.locality_score m = 100%Z ∧
    (TradeMatch.value_balance m == 100 / 120)%Q.
Proof.
  destruct (proj1 (two_way_scenario Sample.h3_distance 0 "892a100d2c3ffff"
                     [1; 2]%N None eq_refl (or_introl eq_refl)
                     (or_introl eq_refl)))
    as (m & Hm & _ & _ & _ & _ & Hl & Hv & _).
  exists m. split; [exact Hm|]. split; [exact Hl | exact Hv].
Defined.

(** ** Trade discovery: one match per pair of listings *)

Lemma array_contains_pair (x y c d : uuid) :
  c ≠ d →
  FeedTasks.array_contains [x; y] [c; d] = true →
  (c = x ∧ d = y) ∨ (c = y ∧ d = x).
Proof.
  intros Hcd. unfold FeedTasks.array_contains. simpl.
  rewrite !orb_false_r, !andb_true_r, andb_true_iff, !orb_true_iff, !N.eqb_eq.
  intros [[-> | ->] [-> | ->]]; first [tauto | congruence].
Qed.

Lemma array_contains_swap (ids : list uuid) (a b : uuid) :
  FeedTasks.array_contains ids [a; b] = FeedTasks.array_contains ids [b; a].
Proof.
  unfold FeedTasks.array_contains. simpl. rewrite !andb_true_r. apply andb_comm.
Qed.

Lemma covering_swap (ms : list TradeMatch.t) (a b : uuid) :
  Pairs.covering ms a b = Pairs.covering ms b a.
Proof.
  unfold Pairs.covering. apply List.filter_ext. intros m.
  apply array_contains_swap.
Qed.

Lemma filter_nil_of_find_none {A} (f : A → bool) (xs : list A) :
  List.find f xs = None → List.filter f xs = [].
Proof.
  induction xs as [|x xs IH]; simpl; [done|]. by destruct (f x).
Qed.

Lemma covering_nil_of_existing (ms : list TradeMatch.t) (a b : uuid) :
  FeedTasks.existing ms a b = None → Pairs.covering ms a b = [].
Proof. apply filter_nil_of_find_none. Qed.

Lemma covering_app (ms : list TradeMatch.t) (m : TradeMatch.t) (a b : uuid) :
  Pairs.covering (ms ++ [m]) a b =
  Pairs.covering ms a b ++
  (if FeedTasks.array_contains (TradeMatch.listing_ids m) [a; b] then [m] else []).
Proof. unfold Pairs.covering. by rewrite List.filter_app. Qed.

(** Adding a match for a pair that no match covers keeps both bounds. *)
Lemma at_most_one_app (ms : list TradeMatch.t) (m : TradeMatch.t) (x y : uuid) :
  TradeMatch.listing_ids m = [x; y] →
  Pairs.covering ms x y = [] →
  Pairs.at_most_one ms → Pairs.at_most_one (ms ++ [m]).
Proof.
  intros Hids Hnone Hinv c d Hcd. rewrite covering_app, length_app.
  destruct (FeedTasks.array_contains (TradeMatch.listing_ids m) [c; d]) eqn:E.
  - rewrite Hids in E.
    assert (Hz : Pairs.covering ms c d = []).
    { destruct (array_contains_pair x y c d Hcd E) as [[-> ->] | [-> ->]];
        [exact Hnone | by rewrite covering_swap]. }
    rewrite Hz. simpl. lia.
  - specialize (Hinv c d Hcd). simpl. lia.
Qed.

Lemma at_most_one_active_app (ms : list TradeMatch.t) (m : TradeMatch.t)
    (x y : uuid) :
  TradeMatch.listing_ids m = [x; y] →
  Pairs.covering ms x y = [] →
  Pairs.at_most_one_active ms → Pairs.at_most_one_active (ms ++ [m]).
Proof.
  intros Hids Hnone Hinv c d Hcd. unfold Pairs.active_covering.
  rewrite covering_app, List.filter_app, length_app.
  destruct (FeedTasks.array_contains (TradeMatch.listing_ids m) [c; d]) eqn:E.
  - rewrite Hids in E.
    assert (Hz : Pairs.covering ms c d = []).
    { destruct (array_contains_pair x y c d Hcd E) as [[-> ->] | [-> ->]];
        [exact Hnone | by rewrite covering_swap]. }
    rewrite Hz. simpl.
    destruct (negb (Lifecycle.terminal (TradeMatch.status m))); simpl; lia.
  - specialize (Hinv c d Hcd). unfold Pairs.active_covering in Hinv.
    simpl. lia.
Qed.

(** A property of the match table that every step of a pass keeps. *)
Lemma fold_left_keeps {A S} (P : S → Prop) (f : S → A → S) (xs : list A) :
  (∀ st x, P st → P (f st x)) → ∀ st, P st → P (fold_left f xs st).
Proof.
  intros Hstep. induction xs as [|x xs IH]; intros st Hst; simpl; auto.
Qed.

Section DiscoveryPass.

Variable h3_distance : string → string → option Z.
Variables (now : Q) (db : FeedTasks.DB).

(** One step of the loop over the saved listings either leaves the
    table as it is, or adds one match for a pair that no match of the
    table covers. *)
Lemma consider_wanted_cases (user : uuid) (offers : list Listing.t)
    (st : list TradeMatch.t * nat) (wanted : Listing.t) :
  FeedTasks.consider_wanted h3_distance now db user offers st wanted = st ∨
  ∃ user_offers : Listing.t,
    FeedTasks.existing (fst st) (Listing.id user_offers) (Listing.id wanted) = None ∧
    FeedTasks.consider_wanted h3_distance now db user offers st wanted
    = (fst st ++ [FeedTasks.new_two_way h3_distance now user user_offers wanted],
       S (snd st)).
Proof.
  unfold FeedTasks.consider_wanted.
  destruct (N.eqb (Listing.user_id wanted) user); [by left|].
  destruct (List.find _ (FeedTasks.listing_saves db)) as [s|]; [|by left].
  destruct (List.find _ (FeedTasks.listings db)) as [uo|]; [|by left].
  destruct (FeedTasks.existing _ _ _) eqn:E; [by left|].
  right. by exists uo.
Qed.

Section Invariant.

Variable P : list TradeMatch.t → Prop.
Hypothesis P_app :
  ∀ ms m x y, TradeMatch.listing_ids m = [x; y] →
              Pairs.covering ms x y = [] → P ms → P (ms ++ [m]).

Lemma consider_wanted_keeps user offers st wanted :
  P (fst st) →
  P (fst (FeedTasks.consider_wanted h3_distance now db user offers st wanted)).
Proof.
  intros Hst.
  destruct (consider_wanted_cases user offers st wanted)
    as [-> | (uo & Hnone & ->)]; [done|].
  simpl. eapply P_app; [|by apply covering_nil_of_existing|done].
  by destruct (new_two_way_fields h3_distance now user uo wanted)
    as (_ & _ & _ & -> & _).
Qed.

Lemma find_trade_matches_keeps (user_id : option uuid) :
  P (FeedTasks.trade_matches db) →
  P (FeedTasks.trade_matches
       (fst (FeedTasks.find_trade_matches h3_distance user_id now db))).
Proof.
  intros Hdb. unfold FeedTasks.find_trade_matches. simpl.
  apply (fold_left_keeps (fun st => P (fst st))); [|exact Hdb].
  intros st [u|] Hst; simpl; [|done].
  apply (fold_left_keeps (fun st => P (fst st))); [|exact Hst].
  intros st' w Hst'. by apply consider_wanted_keeps.
Qed.

End Invariant.

End DiscoveryPass.

Lemma find_some_of_In {A} (f : A → bool) (xs : list A) (x : A) :
  In x xs → f x = true → ∃ y, List.find f xs = Some y ∧ In y xs ∧ f y = true.
Proof.
  intros Hin Hf. destruct (List.find f xs) as [y|] eqn:E.
  - exists y. split; [done|]. by apply find_some in E.
  - pose proof (find_none _ _ E x Hin). congruence.
Qed.

Lemma array_contains_self (a b : uuid) :
  FeedTasks.array_contains [a; b] [a; b] = true.
Proof.
  unfold FeedTasks.array_contains. simpl. rewrite !N.eqb_refl.
  by rewrite !orb_true_r.
Qed.

Section DiscoveryFinds.

Variable h3_distance : string → string → option Z.
Variables (now : Q) (db : FeedTasks.DB).

(** The pass only adds matches. *)
Lemma consider_wanted_grows user offers st wanted (m : TradeMatch.t) :
  In m (fst st) →
  In m (fst (FeedTasks.consider_wanted h3_distance now db user offers st wanted)).
Proof.
  intros Hin.
  destruct (consider_wanted_cases h3_distance now db user offers st wanted)
    as [-> | (uo & _ & ->)]; [done|].
  simpl. apply in_or_app. by left.
Qed.

Lemma process_user_grows st user (m : TradeMatch.t) :
  In m (fst st) →
  In m (fst (FeedTasks.process_user h3_distance now db st user)).
Proof.
  intros Hin. destruct user as [u|]; simpl; [|done].
  apply (fold_left_keeps (fun st => In m (fst st))); [|exact Hin].
  intros st' w Hst'. by apply consider_wanted_grows.
Qed.

Variables x y : Listing.t.
Hypothesis pair : Pairs.reciprocal db x y.
Hypothesis only : Pairs.only_saved_offer db x y.

(** The step for [y] among the saved listings of the owner of [x] ends
    with a match over the two listings in the table. *)
Lemma consider_wanted_covers (st : list TradeMatch.t * nat) :
  ∃ m,
    In m (fst (FeedTasks.consider_wanted h3_distance now db (Listing.user_id x)
                 (FeedTasks.user_listings db (Listing.user_id x)) st y)) ∧
    FeedTasks.array_contains (TradeMatch.listing_ids m)
      [Listing.id x; Listing.id y] = true.
Proof.
  destruct pair as (Hx & Hy & Hid & Hu & Hex & Hey & Hsx & Hsy).
  assert (Hoffer : In (Listing.id x)
            (map Listing.id (FeedTasks.user_listings db (Listing.user_id x)))).
  { apply in_map, filter_In. split; [exact Hx|].
    by rewrite N.eqb_refl, Hex. }
  unfold FeedTasks.consider_wanted.
  replace (N.eqb (Listing.user_id y) (Listing.user_id x)) with false
    by (symmetry; apply N.eqb_neq; congruence).
  apply existsb_exists in Hsx as (s1 & Hs1 & Hp1).
  apply andb_true_iff in Hp1 as (Hl1 & Hu1).
  apply N.eqb_eq in Hl1, Hu1.
  edestruct (find_some_of_In
               (fun s => N.eqb (Listing.save_user_id s) (Listing.user_id y)
                         && existsb (N.eqb (Listing.save_listing_id s))
                              (map Listing.id
                                 (FeedTasks.user_listings db (Listing.user_id x))))
               (FeedTasks.listing_saves db) s1 Hs1)
    as (s0 & -> & Hs0 & Hp0).
  { rewrite Hu1, N.eqb_refl. simpl. apply existsb_exists.
    exists (Listing.id x). split; [exact Hoffer|]. by apply N.eqb_eq. }
  apply andb_true_iff in Hp0 as (Hu0 & Hl0).
  apply N.eqb_eq in Hu0. apply existsb_exists in Hl0 as (i & Hi & Hi').
  apply N.eqb_eq in Hi'. subst i.
  assert (Hsame : Listing.save_listing_id s0 = Listing.id x) by by apply only.
  edestruct (find_some_of_In
               (fun l => N.eqb (Listing.id l) (Listing.save_listing_id s0))
               (FeedTasks.listings db) x Hx)
    as (uo & -> & _ & Huo).
  { apply N.eqb_eq. by symmetry. }
  apply N.eqb_eq in Huo. rewrite Hsame in Huo. rewrite Huo.
  destruct (FeedTasks.existing (fst st) (Listing.id x) (Listing.id y))
    as [m0|] eqn:E.
  - exists m0. by apply find_some in E.
  - exists (FeedTasks.new_two_way h3_distance now (Listing.user_id x) uo y).
    split; [simpl; apply in_or_app; right; by left|].
    destruct (new_two_way_fields h3_distance now (Listing.user_id x) uo y)
      as (_ & _ & _ & -> & _).
    rewrite Huo. apply array_contains_self.
Qed.

(** So does the pass, when it processes the owner of [x]. *)
Lemma find_trade_matches_covers (user_id : option uuid) :
  In (Some (Listing.user_id x)) (FeedTasks.users_to_process user_id db) →
  Pairs.covering
    (FeedTasks.trade_matches
       (fst (FeedTasks.find_trade_matches h3_distance user_id now db)))
    (Listing.id x) (Listing.id y) ≠ [].
Proof.
  intros Huser.
  assert (Hsaved : In y (FeedTasks.saved_listings db (Listing.user_id x))).
  { destruct pair as (_ & Hy & _ & _ & _ & Hey & _ & Hsy).
    apply filter_In. split; [exact Hy|]. by rewrite Hsy, Hey. }
  enough (∃ m, In m (FeedTasks.trade_matches
                       (fst (FeedTasks.find_trade_matches h3_distance user_id now db)))
               ∧ FeedTasks.array_contains (TradeMatch.listing_ids m)
                   [Listing.id x; Listing.id y] = true) as (m & Hin & Hc).
  { intros Hnil.
    assert (Hm : In m (Pairs.covering
              (FeedTasks.trade_matches
                 (fst (FeedTasks.find_trade_matches h3_distance user_id now db)))
              (Listing.id x) (Listing.id y))) by (apply filter_In; auto).
    rewrite Hnil in Hm. destruct Hm. }
  unfold FeedTasks.find_trade_matches. simpl.
  destruct (in_split _ _ Huser) as (us1 & us2 & ->).
  rewrite fold_left_app. simpl.
  set (st1 := fold_left (FeedTasks.process_user h3_distance now db) us1
                (FeedTasks.trade_matches db, 0%nat)).
  destruct (in_split _ _ Hsaved) as (ws1 & ws2 & ->).
  rewrite fold_left_app. simpl.
  set (st2 := fold_left _ ws1 st1).
  destruct (consider_wanted_covers st2) as (m & Hin & Hc).
  exists m. split; [|exact Hc].
  apply (fold_left_keeps (fun st => In m (fst st)));
    [intros; by apply process_user_grows|].
  apply (fold_left_keeps (fun st => In m (fst st)));
    [intros; by apply consider_wanted_grows | exact Hin].
Qed.

End DiscoveryFinds.

Lemma at_most_one_nil : Pairs.at_most_one [].
Proof. intros a b _. simpl. lia. Qed.

(** C2, as the code has it.  In a discovery pass a TWO_WAY match is added
    for a pair of listings only if no match of the table, of whatever
    status, covers that unordered pair -- so none that is active does.
    Hence a pass keeps the bound of one active match per unordered pair,
    and the bound of one match per pair.  From a table with at most one
    match per pair, a pass leaves at most one match for every reciprocal
    pair, and exactly one when the pass processes the owner of the one
    listing and the owner of the other saved no other trade listing of
    that user. *)
Theorem discovery_one_match_per_pair :
  ∀ (h3_distance : string → string → option Z) (user_id : option uuid)
    (now : Q) (db : FeedTasks.DB),
    (∀ (user : uuid) (offers : list Listing.t)
       (st : list TradeMatch.t * nat) (wanted : Listing.t),
       FeedTasks.consider_wanted h3_distance now db user offers st wanted = st ∨
       ∃ (user_offers : Listing.t) (m : TradeMatch.t),
         FeedTasks.consider_wanted h3_distance now db user offers st wanted
         = (fst st ++ [m], S (snd st)) ∧
         TradeMatch.match_type m = TradeMatch.TWO_WAY ∧
         TradeMatch.listing_ids m = [Listing.id user_offers; Listing.id wanted] ∧
         Pairs.covering (fst st) (Listing.id user_offers) (Listing.id wanted) = [] ∧
         Pairs.active_covering (fst st) (Listing.id user_offers) (Listing.id wanted) = []) ∧
    (Pairs.at_most_one_active (FeedTasks.trade_matches db) →
     Pairs.at_most_one_active
       (FeedTasks.trade_matches
          (fst (FeedTasks.find_trade_matches h3_distance user_id now db)))) ∧
    (Pairs.at_most_one (FeedTasks.trade_matches db) →
     Pairs.at_most_one
       (FeedTasks.trade_matches
          (fst (FeedTasks.find_trade_matches h3_distance user_id now db)))) ∧
    (∀ x y : Listing.t,
       Pairs.reciprocal db x y →
       Pairs.at_most_one (FeedTasks.trade_matches db) →
       (length (Pairs.covering
                  (FeedTasks.trade_matches
                     (fst (FeedTasks.find_trade_matches h3_distance user_id now db)))
                  (Listing.id x) (Listing.id y)) ≤ 1)%nat ∧
       (In (Some (Listing.user_id x)) (FeedTasks.users_to_process user_id db) →
        Pairs.only_saved_offer db x y →
        length (Pairs.covering
                  (FeedTasks.trade_matches
                     (fst (FeedTasks.find_trade_matches h3_distance user_id now db)))
                  (Listing.id x) (Listing.id y)) = 1%nat)).
Proof.
  intros h3_distance user_id now db.
  assert (Hone : Pairs.at_most_one (FeedTasks.trade_matches db) →
                 Pairs.at_most_one
                   (FeedTasks.trade_matches
                      (fst (FeedTasks.find_trade_matches h3_distance user_id now db)))).
  { apply find_trade_matches_keeps. intros ms m a b. apply at_most_one_app. }
  split; [|split; [|split; [exact Hone|]]].
  - intros user offers st wanted.
    destruct (consider_wanted_cases h3_distance now db user offers st wanted)
      as [-> | (uo & Hnone & ->)]; [by left|].
    right. exists uo, (FeedTasks.new_two_way h3_distance now user uo wanted).
    destruct (new_two_way_fields h3_distance now user uo wanted)
      as (Ht & _ & _ & Hl & _).
    apply covering_nil_of_existing in Hnone.
    split; [done|]. split; [done|]. split; [done|]. split; [done|].
    unfold Pairs.active_covering. by rewrite Hnone.
  - apply find_trade_matches_keeps. intros ms m a b. apply at_most_one_active_app.
  - intros x y Hpair Hdb.
    assert (Hid : Listing.id x ≠ Listing.id y) by apply Hpair.
    pose proof (Hone Hdb (Listing.id x) (Listing.id y) Hid) as Hle.
    split; [exact Hle|]. intros Huser Honly.
    pose proof (find_trade_matches_covers h3_distance now db x y Hpair Honly
                  user_id Huser) as Hne.
    destruct (Pairs.covering _ _ _) as [|m [|m' ms]]; simpl in *; [done|done|lia].
Qed.

Lemma discovery_one_match_per_pair_witness :
  length
    (Pairs.covering
       (FeedTasks.trade_matches
          (fst (FeedTasks.find_trade_matches Sample.h3_distance None 0
                  (Sample.trade_db "892a100d2c3ffff" [1; 2]%N))))
       10 20) = 1%nat.
Proof.
  refine (proj2 (proj2 (proj2 (proj2
            (discovery_one_match_per_pair Sample.h3_distance None 0
               (Sample.trade_db "892a100d2c3ffff" [1; 2]%N))))
            (Sample.listing_a "892a100d2c3ffff")
            (Sample.listing_b "892a100d2c3ffff") _ at_most_one_nil) _ _).
  - unfold Pairs.reciprocal. simpl.
    repeat split; solve [auto | discriminate | reflexivity].
  - vm_compute. left. reflexivity.
  - intros s [<- | [<- | []]]; vm_compute; intros Hu Hl;
      first [reflexivity | discriminate Hu].
Defined.

(** C2 as stated fails where it promises a match for every reciprocal
    pair.  Users 1 and 2 own two trade listings each and saved both
    listings of the other; from an empty table the pass creates three
    matches, and the reciprocal pair of listings 12 and 22 has none. *)
Lemma discovery_counterexample :
  ¬ (∀ (db : FeedTasks.DB) (x y : Listing.t),
       FeedTasks.trade_matches db = [] →
       Pairs.reciprocal db x y →
       length
         (Pairs.covering
            (FeedTasks.trade_matches
               (fst (FeedTasks.find_trade_matches Sample.h3_distance None 0 db)))
            (Listing.id x) (Listing.id y)) = 1%nat).
Proof.
  intros H.
  specialize (H Sample.cross_db
    (Sample.listing 12 1 "Jordan 1 Chicago" (Some 300%Q) Listing.TRADE
       "892a100d2c3ffff" 0%Q)
    (Sample.listing 22 2 "Air Max 1 Patta" (Some 280%Q) Listing.BOTH
       "892a100d2c3ffff" 0%Q)
    eq_refl).
  assert (Hpair : Pairs.reciprocal Sample.cross_db
    (Sample.listing 12 1 "Jordan 1 Chicago" (Some 300%Q) Listing.TRADE
       "892a100d2c3ffff" 0%Q)
    (Sample.listing 22 2 "Air Max 1 Patta" (Some 280%Q) Listing.BOTH
       "892a100d2c3ffff" 0%Q)).
  { unfold Pairs.reciprocal. simpl.
    repeat split; solve [auto | discriminate | reflexivity]. }
  specialize (H Hpair). vm_compute in H. discriminate H.
Qed.

(** The matches of that pass. *)
Example cross_saves_matches :
  map TradeMatch.listing_ids
    (FeedTasks.trade_matches
       (fst (FeedTasks.find_trade_matches Sample.h3_distance None 0 Sample.cross_db)))
  = [[11; 21]; [11; 22]; [21; 12]]%N.
Proof. vm_compute. reflexivity. Qed.

(** * Further properties of the code *)

(** ** Engagement counters *)

Lemma count_of_cons (e e' : ListingMethods.event) (es : list ListingMethods.event) :
  ListingMethods.count_of e (e' :: es) =
  ((if match e, e' with
       | ListingMethods.View, ListingMethods.View
       | ListingMethods.Save, ListingMethods.Save
       | ListingMethods.Message, ListingMethods.Message => true
       | _, _ => false
       end then 1 else 0) + ListingMethods.count_of e es)%Z.
Proof.
  unfold ListingMethods.count_of. simpl.
  destruct e, e'; simpl length; lia.
Qed.

(** X1. After any sequence of views, saves and messages, each counter of
    the listing has grown by the number of events of its kind and
    [demand_score] by the number of saves plus twice the number of
    messages, in whatever order they came; price, original price, status
    and [rank_score] are as before. *)
Theorem record_all_counts :
  ∀ (es : list ListingMethods.event) (l : Listing.t),
    Listing.view_count (ListingMethods.record_all es l)
    = (Listing.view_count l + ListingMethods.count_of ListingMethods.View es)%Z ∧
    Listing.save_count (ListingMethods.record_all es l)
    = (Listing.save_count l + ListingMethods.count_of ListingMethods.Save es)%Z ∧
    Listing.message_count (ListingMethods.record_all es l)
    = (Listing.message_count l + ListingMethods.count_of ListingMethods.Message es)%Z ∧
    (Listing.demand_score (ListingMethods.record_all es l) ==
     Listing.demand_score l
     + inject_Z (ListingMethods.count_of ListingMethods.Save es)
     + 2 * inject_Z (ListingMethods.count_of ListingMethods.Message es))%Q ∧
    Listing.price (ListingMethods.record_all es l) = Listing.price l ∧
    Listing.original_price (ListingMethods.record_all es l)
    = Listing.original_price l ∧
    Listing.status (ListingMethods.record_all es l) = Listing.status l ∧
    Listing.rank_score (ListingMethods.record_all es l) = Listing.rank_score l.
Proof.
  intros es. unfold ListingMethods.record_all.
  induction es as [|e es IH]; intros l.
  - simpl. change (ListingMethods.count_of _ []) with 0%Z.
    repeat split; try lia. change (inject_Z 0) with 0%Q. ring.
  - simpl fold_left.
    destruct (IH (ListingMethods.record l e)) as (Hv & Hs & Hm & Hd & Hp & Ho & Hst & Hr).
    rewrite Hv, Hs, Hm, Hd, Hp, Ho, Hst, Hr, !count_of_cons.
    destruct e; simpl; rewrite ?inject_Z_plus;
      repeat split; try lia; change (inject_Z 1) with 1%Q;
      change (inject_Z 0) with 0%Q; ring.
Qed.

(** ** The price-drop percentage *)

Lemma truthy_false_iff (x : option Q) :
  Py.truthy x = false ↔ x = None ∨ ∃ q, x = Some q ∧ (q == 0)%Q.
Proof.
  destruct x as [q|]; simpl.
  - rewrite negb_false_iff, Qeq_bool_iff. split.
    + intros H. right. by exists q.
    + intros [[=] | (q' & [= <-] & H)]. exact H.
  - split; auto.
Qed.

Section PriceDrops.

Variables (p : Q).
Hypothesis p_positive : (0 < p)%Q.

Lemma dropped_from_step (new_price : Q) (l : Listing.t) :
  ListingMethods.dropped_from p l → ListingMethods.dropped_from p (fst (Listing.drop_price new_price l)).
Proof.
  intros (cur & Hcur & Hle & Horig).
  destruct (snd (Listing.drop_price new_price l)) eqn:Hd.
  - destruct (drop_price_true_effect l new_price Hd) as (Hp & Ho & _).
    apply drop_price_true_iff in Hd as (q & Hq & _ & Hlt).
    assert (q = cur) as -> by congruence.
    exists new_price. split; [exact Hp|]. split; [lra|]. right.
    rewrite Ho. destruct Horig as [[-> Hpp] | Horig]; [exact Hpp|].
    rewrite Horig.
    by replace (Py.truthy (Some p)) with true
      by (symmetry; apply truthy_iff; exists p; split; [done | lra]).
  - rewrite (drop_price_false_unchanged l new_price Hd). by exists cur.
Qed.

Lemma dropped_from_all (news : list Q) (l : Listing.t) :
  ListingMethods.dropped_from p l → ListingMethods.dropped_from p (Listing.drop_prices news l).
Proof.
  unfold Listing.drop_prices.
  apply (fold_left_keeps (ListingMethods.dropped_from p)). intros st x. apply dropped_from_step.
Qed.

Lemma drop_prices_nonneg (news : list Q) (l : Listing.t) (cur cur' : Q) :
  Forall (fun n => 0 <= n)%Q news →
  Listing.price l = Some cur → (0 <= cur)%Q →
  Listing.price (Listing.drop_prices news l) = Some cur' → (0 <= cur')%Q.
Proof.
  unfold Listing.drop_prices. revert l cur.
  induction news as [|n news IH]; intros l cur Hall Hcur Hnn; simpl.
  - intros Hc. assert (cur = cur') as <- by congruence. exact Hnn.
  - inversion Hall as [|? ? Hn Hrest]; subst.
    destruct (snd (Listing.drop_price n l)) eqn:Hd.
    + destruct (drop_price_true_effect l n Hd) as (Hp & _).
      by apply (IH _ n Hrest Hp).
    + rewrite (drop_price_false_unchanged l n Hd). by apply (IH _ cur).
Qed.

Lemma percent_of_dropped (l : Listing.t) :
  ListingMethods.dropped_from p l →
  ∃ cur, Listing.price l = Some cur ∧ (cur <= p)%Q ∧
    (¬ (cur == 0)%Q →
     (Listing.get_price_drop_percent l == (p - cur) / p * 100)%Q) ∧
    ((cur == 0)%Q → (Listing.get_price_drop_percent l == 0)%Q).
Proof.
  intros (cur & Hcur & Hle & Horig). exists cur.
  split; [exact Hcur|]. split; [exact Hle|].
  unfold Listing.get_price_drop_percent.
  destruct Horig as [[Hf Hpp] | Ho].
  - rewrite Hf. simpl. assert (cur = p) as -> by congruence.
    split; [intros _; field; lra | reflexivity].
  - rewrite Ho, Hcur.
    replace (Py.truthy (Some p)) with true
      by (symmetry; apply truthy_iff; exists p; split; [done | lra]).
    cbn [negb orb Py.float].
    destruct (Py.truthy (Some cur)) eqn:Ht; cbn [negb].
    + split; [reflexivity|]. intros Hz.
      apply truthy_iff in Ht as (q & [= <-] & Hnz). contradiction.
    + split; [|reflexivity]. intros Hnz.
      apply truthy_false_iff in Ht as [[=] | (q & [= <-] & Hz)]. contradiction.
Qed.

End PriceDrops.

(** X2. On a listing that starts at a positive price [p] with no original
    price, after any calls of [drop_price] the current price is at most
    [p], and [get_price_drop_percent] is [(p - current) / p * 100], the
    cut from the first price -- except that it is 0 once the price was
    dropped to 0.  With new prices that are not negative the percentage
    stays in [0, 100). *)
Theorem price_drop_percent_from_first_price :
  ∀ (l : Listing.t) (p : Q) (news : list Q),
    Listing.price l = Some p → (0 < p)%Q →
    Py.truthy (Listing.original_price l) = false →
    ∃ cur : Q,
      Listing.price (Listing.drop_prices news l) = Some cur ∧ (cur <= p)%Q ∧
      (¬ (cur == 0)%Q →
       (Listing.get_price_drop_percent (Listing.drop_prices news l)
        == (p - cur) / p * 100)%Q) ∧
      ((cur == 0)%Q →
       (Listing.get_price_drop_percent (Listing.drop_prices news l) == 0)%Q) ∧
      (Forall (fun n => 0 <= n)%Q news →
       (0 <= cur)%Q ∧
       (0 <= Listing.get_price_drop_percent (Listing.drop_prices news l))%Q ∧
       (Listing.get_price_drop_percent (Listing.drop_prices news l) < 100)%Q).
Proof.
  intros l p news Hp Hpos Hf.
  assert (Hd : ListingMethods.dropped_from p (Listing.drop_prices news l)).
  { apply dropped_from_all; [exact Hpos|]. exists p.
    split; [exact Hp|]. split; [lra|]. by left. }
  destruct (percent_of_dropped p Hpos _ Hd) as (cur & Hcur & Hle & Hnz & Hz).
  exists cur. split; [exact Hcur|]. split; [exact Hle|].
  split; [exact Hnz|]. split; [exact Hz|].
  intros Hall.
  assert (Hnn : (0 <= cur)%Q).
  { apply (drop_prices_nonneg news l p cur Hall Hp); [lra | exact Hcur]. }
  split; [exact Hnn|].
  destruct (Qeq_dec cur 0) as [E | E].
  - rewrite (Hz E). lra.
  - rewrite (Hnz E).
    assert (Hc : (0 < cur)%Q).
    { destruct (Qlt_le_dec 0 cur) as [H | H]; [exact H|].
      exfalso. apply E. lra. }
    assert (Hr : ((p - cur) / p * 100 == 100 - cur / p * 100)%Q) by (field; lra).
    rewrite Hr.
    assert (Hq : (0 < cur / p)%Q).
    { apply Qlt_shift_div_l; lra. }
    assert (Hq1 : (cur / p <= 1)%Q).
    { apply Qle_shift_div_r; lra. }
    lra.
Qed.

Lemma price_drop_percent_from_first_price_witness :
  let l := Sample.listing 1 1 "Jordan 4 Bred" (Some 250%Q) Listing.BOTH "cell" 0%Q in
  ∃ cur : Q,
    Listing.price (Listing.drop_prices [200%Q; 220%Q; 180%Q] l) = Some cur ∧
    (Listing.get_price_drop_percent (Listing.drop_prices [200%Q; 220%Q; 180%Q] l)
     == (250 - cur) / 250 * 100)%Q.
Proof.
  intros l.
  destruct (price_drop_percent_from_first_price l 250%Q [200%Q; 220%Q; 180%Q]
              eq_refl eq_refl eq_refl)
    as (cur & Hcur & _ & Hnz & _).
  exists cur. split; [exact Hcur|]. apply Hnz.
  assert (cur = 180%Q) as -> by (vm_compute in Hcur; congruence).
  vm_compute. discriminate.
Defined.

(** ** The ranking pass *)

(** X4. A ranking pass never writes a score.  When no ACTIVE listing is
    in the requested cells it returns [listings_updated = 0] and leaves
    the tables as they are.  When the batch holds a listing, the first
    round of the loop raises [TypeError] at [now - listing.created_at]
    (a naive [utcnow()] against a loaded, timezone-aware column), the
    task is handed to [self.retry] and nothing is committed.  Either way
    the database after the pass is the database before it. *)
Theorem ranking_pass_never_ranks :
  ∀ (h3_indexes : option (list string)) (clock : Q) (db : FeedTasks.DB),
    FeedTasks.compute_listing_rankings h3_indexes clock db
    = match List.filter (FeedTasks.selected h3_indexes) (FeedTasks.listings db) with
      | [] => FeedTasks.Done (db, 0%nat)
      | _ :: _ => FeedTasks.Retry "TypeError"
      end ∧
    Forall (fun l => FeedTasks.age_hours (Datetime.utcnow clock) l = None)
           (FeedTasks.listings db) ∧
    FeedTasks.committed db
      (FeedTasks.compute_listing_rankings h3_indexes clock db) = db.
Proof.
  intros h3_indexes clock db.
  split; [apply compute_listing_rankings_outcome|].
  split; [|apply ranking_pass_commits_nothing].
  apply List.Forall_forall. intros l _. apply age_hours_raises.
Qed.

(** ** The listing endpoints *)

Section EndpointInvariants.

Import FeedTasks Endpoints Requests.

Lemma update_first_as_map (lid : uuid) (f : Listing.t → Listing.t)
    (ls : list Listing.t) :
  NoDup (map Listing.id ls) →
  update_first (fun l => N.eqb (Listing.id l) lid) f ls
  = map (fun l => if N.eqb (Listing.id l) lid then f l else l) ls.
Proof.
  induction ls as [|x xs IH]; simpl; [done|]. intros Hnd.
  apply NoDup_cons in Hnd as [Hx Hxs].
  destruct (N.eqb_spec (Listing.id x) lid) as [E|E].
  - f_equal. rewrite <- (List.map_id xs) at 1. apply List.map_ext_in.
    intros a Ha. destruct (N.eqb_spec (Listing.id a) lid) as [E'|]; [|done].
    exfalso. apply Hx. rewrite E, <- E'. apply list_elem_of_In. by apply List.in_map.
  - f_equal. by apply IH.
Qed.

Lemma update_first_ids (lid : uuid) (f : Listing.t → Listing.t)
    (ls : list Listing.t) :
  (∀ l, Listing.id (f l) = Listing.id l) →
  map Listing.id (update_first (fun l => N.eqb (Listing.id l) lid) f ls)
  = map Listing.id ls.
Proof.
  intros Hf. induction ls as [|x xs IH]; simpl; [done|].
  destruct (N.eqb (Listing.id x) lid); simpl; by rewrite ?Hf, ?IH.
Qed.

Lemma find_listing_id (db : DB) (lid : uuid) (l : Listing.t) :
  find_listing db lid = Some l → In l (listings db) ∧ Listing.id l = lid.
Proof.
  intros H. apply List.find_some in H as [Hin E]. split; [done|].
  by apply N.eqb_eq.
Qed.

(** A write to one listing and to the saves keeps the counts right when
    it keeps them right for that listing and leaves the others alone. *)
Lemma write_keeps_counts (lid : uuid) (f : Listing.t → Listing.t)
    (ss : list Listing.ListingSave) (db : DB) :
  unique_ids db → save_counts_agree db →
  (∀ l, Listing.id (f l) = Listing.id l) →
  (∀ l, In l (listings db) → Listing.id l = lid →
        Listing.save_count (f l) = saves_of (set_listing_saves ss db) lid) →
  (∀ x, x ≠ lid → saves_of (set_listing_saves ss db) x = saves_of db x) →
  unique_ids (update_listing lid f (set_listing_saves ss db)) ∧
  save_counts_agree (update_listing lid f (set_listing_saves ss db)).
Proof.
  intros Hids Hagree Hf Hlid Hrest. split.
  - unfold unique_ids, update_listing. cbn [listings set_listings set_listing_saves].
    by rewrite update_first_ids.
  - unfold save_counts_agree, update_listing.
    cbn [listings set_listings set_listing_saves].
    rewrite update_first_as_map by exact Hids.
    apply List.Forall_forall. intros l' Hin.
    apply List.in_map_iff in Hin as (l & <- & Hin).
    pose proof (proj1 (List.Forall_forall _ _) Hagree l Hin) as Hl.
    change (saves_of (set_listings _ (set_listing_saves ss db)))
      with (saves_of (set_listing_saves ss db)).
    destruct (N.eqb_spec (Listing.id l) lid) as [E|E].
    + rewrite Hf, E. by apply Hlid.
    + rewrite Hrest by exact E. exact Hl.
Qed.

Lemma set_listing_saves_same (db : DB) : set_listing_saves (listing_saves db) db = db.
Proof. by destruct db. Qed.

Lemma update_keeps_counts (lid : uuid) (f : Listing.t → Listing.t) (db : DB) :
  unique_ids db → save_counts_agree db → one_save_each db →
  (∀ l, Listing.id (f l) = Listing.id l) →
  (∀ l, Listing.save_count (f l) = Listing.save_count l) →
  unique_ids (update_listing lid f db) ∧
  save_counts_agree (update_listing lid f db) ∧
  one_save_each (update_listing lid f db).
Proof.
  intros Hids Hagree Hone Hf Hc.
  destruct (write_keeps_counts lid f (listing_saves db) db) as [H1 H2];
    try done.
  intros l Hin E. rewrite Hc, set_listing_saves_same, <- E.
  exact (proj1 (List.Forall_forall _ _) Hagree l Hin).
Qed.

Lemma saves_of_app (db : DB) (u lid x : uuid) :
  saves_of (set_listing_saves (listing_saves db ++ [Listing.mkSave u lid]) db) x
  = (saves_of db x + if N.eqb lid x then 1 else 0)%Z.
Proof.
  unfold saves_of. cbn [listing_saves set_listing_saves].
  rewrite List.filter_app, length_app. cbn [List.filter Listing.save_listing_id].
  destruct (N.eqb lid x); simpl; lia.
Qed.

Lemma saves_of_delete (p : Listing.ListingSave → bool) (lid x : uuid)
    (ss : list Listing.ListingSave) (s : Listing.ListingSave) :
  List.find p ss = Some s →
  (∀ s, p s = true → Listing.save_listing_id s = lid) →
  Z.of_nat (length (List.filter
     (fun s => N.eqb (Listing.save_listing_id s) x) (delete_first p ss)))
  = (Z.of_nat (length (List.filter
       (fun s => N.eqb (Listing.save_listing_id s) x) ss))
     - if N.eqb lid x then 1 else 0)%Z.
Proof.
  intros Hfind Hp. induction ss as [|a ss IH]; simpl in *; [done|].
  destruct (p a) eqn:Ea.
  - rewrite (Hp a Ea). destruct (N.eqb lid x); simpl; lia.
  - specialize (IH Hfind). cbn [List.filter].
    destruct (N.eqb (Listing.save_listing_id a) x); cbn [length]; lia.
Qed.

Lemma delete_first_in {A} (p : A → bool) (xs : list A) (x : A) :
  In x (delete_first p xs) → In x xs.
Proof.
  induction xs as [|a xs IH]; simpl; [done|].
  destruct (p a); simpl; tauto.
Qed.

Lemma delete_first_nodup {A} (p : A → bool) (xs : list A) :
  NoDup xs → NoDup (delete_first p xs).
Proof.
  induction 1 as [|a xs Ha Hxs IH]; simpl; [constructor|].
  destruct (p a); [done|]. constructor; [|done].
  intros Hin. apply Ha. apply list_elem_of_In.
  apply list_elem_of_In in Hin. by apply delete_first_in in Hin.
Qed.

Lemma find_save_none (db : DB) (lid u : uuid) :
  find_save db lid u = None → ¬ In (Listing.mkSave u lid) (listing_saves db).
Proof.
  intros Hnone Hin.
  pose proof (List.find_none _ _ Hnone _ Hin) as H. simpl in H.
  by rewrite !N.eqb_refl in H.
Qed.

Lemma save_listing_keeps (lid u : uuid) (db : DB) :
  unique_ids db → save_counts_agree db → one_save_each db →
  unique_ids (committed db (save_listing lid u db)) ∧
  save_counts_agree (committed db (save_listing lid u db)) ∧
  one_save_each (committed db (save_listing lid u db)).
Proof.
  intros Hids Hagree Hone. unfold save_listing.
  destruct (find_listing db lid) as [l|] eqn:El; [|done].
  destruct (find_save db lid u) as [s|] eqn:Es; [done|].
  cbn [committed].
  destruct (write_keeps_counts lid ListingMethods.record_save
              (listing_saves db ++ [Listing.mkSave u lid]) db) as [H1 H2];
    try done.
  - intros l' Hin E. rewrite saves_of_app, N.eqb_refl. simpl.
    rewrite <- E. f_equal.
    exact (proj1 (List.Forall_forall _ _) Hagree l' Hin).
  - intros x Hx. rewrite saves_of_app.
    destruct (N.eqb_spec lid x); [congruence|lia].
  - repeat split; try done. unfold one_save_each, update_listing.
    cbn [listing_saves set_listings set_listing_saves].
    apply NoDup_app. repeat split.
    + exact Hone.
    + intros x Hx Hx'. apply list_elem_of_singleton in Hx'. subst x.
      apply list_elem_of_In in Hx. by apply find_save_none in Es.
    + apply NoDup_singleton.
Qed.

Lemma saves_of_pos (db : DB) (lid u : uuid) (s : Listing.ListingSave) :
  find_save db lid u = Some s → (1 ≤ saves_of db lid)%Z.
Proof.
  intros H. apply List.find_some in H as [Hin E].
  apply andb_true_iff in E as [E _].
  unfold saves_of. induction (listing_saves db) as [|a ss IH]; [done|].
  cbn [List.filter]. destruct Hin as [->|Hin].
  - rewrite E. cbn [length]. lia.
  - specialize (IH Hin).
    destruct (N.eqb (Listing.save_listing_id a) lid); cbn [length]; lia.
Qed.

Lemma unsave_listing_keeps (lid u : uuid) (db : DB) :
  unique_ids db → save_counts_agree db → one_save_each db →
  unique_ids (committed db (unsave_listing lid u db)) ∧
  save_counts_agree (committed db (unsave_listing lid u db)) ∧
  one_save_each (committed db (unsave_listing lid u db)).
Proof.
  intros Hids Hagree Hone. unfold unsave_listing.
  destruct (find_save db lid u) as [s|] eqn:Es; [|done].
  cbn [committed].
  set (p := fun s => N.eqb (Listing.save_listing_id s) lid
                     && N.eqb (Listing.save_user_id s) u).
  assert (Hp : ∀ s, p s = true → Listing.save_listing_id s = lid).
  { intros s' H. apply andb_true_iff in H as [H _]. by apply N.eqb_eq. }
  match goal with
  | |- context [update_listing lid ?g _] => set (f := g)
  end.
  destruct (write_keeps_counts lid f (delete_first p (listing_saves db)) db)
    as [H1 H2]; try done.
  - intros l Hin E. unfold saves_of at 1.
    cbn [listing_saves set_listing_saves].
    rewrite (saves_of_delete p lid lid _ s Es Hp), N.eqb_refl.
    fold (saves_of db lid). unfold f. cbn [ListingMethods.set_counts Listing.save_count].
    pose proof (proj1 (List.Forall_forall _ _) Hagree l Hin) as Hl.
    pose proof (saves_of_pos db lid u s Es) as Hpos.
    cbv beta in Hl. rewrite E in Hl. lia.
  - intros x Hx. unfold saves_of at 1.
    cbn [listing_saves set_listing_saves].
    rewrite (saves_of_delete p lid x _ s Es Hp).
    destruct (N.eqb_spec lid x); [congruence|]. fold (saves_of db x). lia.
  - repeat split; try done. unfold one_save_each, update_listing.
    cbn [listing_saves set_listings set_listing_saves].
    by apply delete_first_nodup.
Qed.

Lemma get_listing_keeps (lid u : uuid) (db : DB) :
  unique_ids db → save_counts_agree db → one_save_each db →
  unique_ids (committed db (get_listing lid u db)) ∧
  save_counts_agree (committed db (get_listing lid u db)) ∧
  one_save_each (committed db (get_listing lid u db)).
Proof.
  intros Hids Hagree Hone. unfold get_listing.
  destruct (find_listing db lid) as [l|]; [|done].
  destruct (negb _); [|done]. cbn [committed].
  by apply update_keeps_counts.
Qed.

Lemma drop_price_id (p : Q) (l : Listing.t) :
  Listing.id (fst (Listing.drop_price p l)) = Listing.id l.
Proof. unfold Listing.drop_price. by destruct (_ && _). Qed.

Lemma drop_listing_price_keeps (lid u : uuid) (p : Q) (db : DB) :
  unique_ids db → save_counts_agree db → one_save_each db →
  unique_ids (committed db (drop_listing_price lid u p db)) ∧
  save_counts_agree (committed db (drop_listing_price lid u p db)) ∧
  one_save_each (committed db (drop_listing_price lid u p db)).
Proof.
  intros Hids Hagree Hone. unfold drop_listing_price.
  destruct (Py.Qlt_bool p 0); [done|].
  destruct (find_listing db lid) as [l|]; [|done].
  destruct (negb _); [done|].
  destruct (Listing.drop_price p l) as [l' dropped].
  destruct (negb dropped); [done|].
  destruct (event_drop_percent _ _); [|done].
  destruct (Decimal.numeric_10_2 p); [|done]. cbn [committed].
  by apply update_keeps_counts.
Qed.

Lemma mark_listing_sold_keeps (lid u : uuid) (db : DB) :
  unique_ids db → save_counts_agree db → one_save_each db →
  unique_ids (committed db (mark_listing_sold lid u db)) ∧
  save_counts_agree (committed db (mark_listing_sold lid u db)) ∧
  one_save_each (committed db (mark_listing_sold lid u db)).
Proof.
  intros Hids Hagree Hone. unfold mark_listing_sold.
  destruct (find_listing db lid) as [l|]; [|done].
  destruct (negb _); [done|]. cbn [committed].
  by apply update_keeps_counts.
Qed.

End EndpointInvariants.

(** X5. Whatever requests the listing endpoints serve (views, saves,
    unsaves, price drops, sales; failed requests included), and in
    whatever order, every listing's [save_count] stays equal to the number
    of rows of [listing_saves] for it and no user gets two saves of one
    listing, provided this held before and listing ids are unique. *)
Theorem save_count_is_number_of_saves :
  ∀ (rs : list Requests.request) (db : FeedTasks.DB),
    Requests.unique_ids db →
    Requests.save_counts_agree db →
    Requests.one_save_each db →
    Requests.unique_ids (Requests.handle_all rs db) ∧
    Requests.save_counts_agree (Requests.handle_all rs db) ∧
    Requests.one_save_each (Requests.handle_all rs db).
Proof.
  intros rs db H1 H2 H3. unfold Requests.handle_all.
  apply (fold_left_keeps
           (fun db => Requests.unique_ids db ∧ Requests.save_counts_agree db
                      ∧ Requests.one_save_each db)); [|done].
  intros st r (I1 & I2 & I3). destruct r; cbn [Requests.handle].
  - by apply get_listing_keeps.
  - by apply save_listing_keeps.
  - by apply unsave_listing_keeps.
  - by apply drop_listing_price_keeps.
  - by apply mark_listing_sold_keeps.
Qed.

Lemma save_count_is_number_of_saves_witness :
  let db := FeedTasks.mkDB [1; 2]%N
              [Sample.listing_a "892a100d2c3ffff"; Sample.listing_b "892a100d2c3ffff"]
              [] [] [] in
  Requests.save_counts_agree
    (Requests.handle_all
       [ Requests.SaveListing 20 1; Requests.SaveListing 20 1;
         Requests.GetListing 10 2; Requests.SaveListing 10 2;
         Requests.UnsaveListing 20 1; Requests.UnsaveListing 20 1 ] db).
Proof.
  intros db.
  refine (proj1 (proj2 (save_count_is_number_of_saves _ db _ _ _))).
  - unfold Requests.unique_ids. simpl. apply NoDup_ListNoDup.
    repeat constructor; simpl; intuition discriminate.
  - repeat constructor.
  - constructor.
Defined.

(** ** Saving and unsaving *)

Section SaveUnsave.

Import FeedTasks Endpoints.

Lemma update_first_twice {A} (p : A → bool) (f g : A → A) (xs : list A) :
  (∀ x, p x = true → p (f x) = true) →
  update_first p g (update_first p f xs)
  = update_first p (fun x => g (f x)) xs.
Proof.
  intros Hp. induction xs as [|x xs IH]; simpl; [done|].
  destruct (p x) eqn:E; simpl.
  - by rewrite (Hp x E).
  - by rewrite E, IH.
Qed.

Lemma update_first_ext {A} (p : A → bool) (f g : A → A) (xs : list A) :
  (∀ x, In x xs → f x = g x) →
  update_first p f xs = update_first p g xs.
Proof.
  induction xs as [|x xs IH]; simpl; [done|]. intros H.
  destruct (p x).
  - f_equal. apply H. by left.
  - f_equal. apply IH. intros y Hy. apply H. by right.
Qed.

Lemma delete_first_appended {A} (p : A → bool) (xs : list A) (x : A) :
  List.find p xs = None → p x = true → delete_first p (xs ++ [x]) = xs.
Proof.
  intros Hnone Hx. induction xs as [|a xs IH]; simpl in *.
  - by rewrite Hx.
  - destruct (p a); [done|]. by rewrite IH.
Qed.

Lemma find_appended {A} (p : A → bool) (xs : list A) (x : A) :
  List.find p xs = None → p x = true → List.find p (xs ++ [x]) = Some x.
Proof.
  intros Hnone Hx. induction xs as [|a xs IH]; simpl in *.
  - by rewrite Hx.
  - destruct (p a); [done|]. by apply IH.
Qed.

Lemma find_update_first (lid : uuid) (f : Listing.t → Listing.t)
    (ls : list Listing.t) :
  (∀ l, Listing.id (f l) = Listing.id l) →
  List.find (fun l => N.eqb (Listing.id l) lid)
    (update_first (fun l => N.eqb (Listing.id l) lid) f ls)
  = f <$> List.find (fun l => N.eqb (Listing.id l) lid) ls.
Proof.
  intros Hf. induction ls as [|x xs IH]; simpl; [done|].
  destruct (N.eqb (Listing.id x) lid) eqn:E; simpl.
  - by rewrite Hf, E.
  - by rewrite E, IH.
Qed.

End SaveUnsave.

(** Save, then unsave, on the tables of the model. *)
Lemma save_then_unsave_tables :
  ∀ (listing_id current_user : uuid) (db db1 : FeedTasks.DB) (resp : string * Z),
    Forall (fun l => (0 ≤ Listing.save_count l)%Z) (FeedTasks.listings db) →
    Endpoints.save_listing listing_id current_user db = Endpoints.Returns (db1, resp) →
    Endpoints.save_listing listing_id current_user db1
    = Endpoints.Raises (Endpoints.HTTP 400 "Already saved") ∧
    (∃ l, Endpoints.find_listing db1 listing_id = Some l ∧
          FeedTasks.has_saved db1 current_user l = true ∧
          snd resp = Listing.save_count l) ∧
    Endpoints.unsave_listing listing_id current_user db1
    = Endpoints.Returns
        (Endpoints.update_listing listing_id
           (fun l => ListingMethods.set_counts
                       (Listing.view_count l) (Listing.save_count l)
                       (Listing.message_count l) (Listing.demand_score l + 1)%Q l)
           db,
         "Save removed"%string).
Proof.
  intros lid u db db1 resp Hpos Hsave.
  unfold Endpoints.save_listing in Hsave.
  destruct (Endpoints.find_listing db lid) as [l|] eqn:El; [|done].
  destruct (Endpoints.find_save db lid u) as [s|] eqn:Es; [done|].
  injection Hsave as <- <-.
  set (p := fun s => N.eqb (Listing.save_listing_id s) lid
                     && N.eqb (Listing.save_user_id s) u).
  assert (Hnew : p (Listing.mkSave u lid) = true).
  { unfold p. simpl. by rewrite !N.eqb_refl. }
  assert (Hfind1 : ∀ f, (∀ l, Listing.id (f l) = Listing.id l) →
            Endpoints.find_listing
              (Endpoints.update_listing lid f
                 (Endpoints.set_listing_saves
                    (FeedTasks.listing_saves db ++ [Listing.mkSave u lid]) db)) lid
            = Some (f l)).
  { intros f Hf. unfold Endpoints.find_listing, Endpoints.update_listing.
    cbn [FeedTasks.listings FeedTasks.set_listings Endpoints.set_listing_saves].
    rewrite find_update_first by exact Hf.
    unfold Endpoints.find_listing in El. by rewrite El. }
  assert (Hsaved :
            Endpoints.find_save
              (Endpoints.update_listing lid ListingMethods.record_save
                 (Endpoints.set_listing_saves
                    (FeedTasks.listing_saves db ++ [Listing.mkSave u lid]) db)) lid u
            = Some (Listing.mkSave u lid)).
  { unfold Endpoints.find_save.
    cbn [FeedTasks.listing_saves FeedTasks.set_listings Endpoints.update_listing
         Endpoints.set_listing_saves].
    by apply (find_appended p). }
  split; [|split].
  - unfold Endpoints.save_listing. rewrite Hfind1 by done. by rewrite Hsaved.
  - exists (ListingMethods.record_save l). split; [by apply Hfind1|]. split; [|done].
    unfold FeedTasks.has_saved.
    cbn [FeedTasks.listing_saves FeedTasks.set_listings Endpoints.update_listing
         Endpoints.set_listing_saves].
    rewrite existsb_app. apply orb_true_iff. right. simpl.
    apply find_listing_id in El as [_ ->].
    by rewrite !N.eqb_refl.
  - unfold Endpoints.unsave_listing. rewrite Hsaved.
    do 2 f_equal. unfold Endpoints.update_listing.
    cbn [FeedTasks.listing_saves FeedTasks.listings FeedTasks.set_listings
         Endpoints.set_listing_saves FeedTasks.users FeedTasks.heat_indexes
         FeedTasks.trade_matches].
    fold p. rewrite (delete_first_appended p) by done.
    unfold FeedTasks.set_listings. cbn. f_equal.
    rewrite update_first_twice by done.
    apply update_first_ext. intros x Hx.
    pose proof (proj1 (List.Forall_forall _ _) Hpos x Hx) as H0. cbv beta in H0.
    unfold ListingMethods.record_save, ListingMethods.set_counts. cbn.
    f_equal. lia.
Qed.

(** ** The price-drop endpoint *)

Lemma cents_bounds (q : Q) :
  (0 <= q)%Q →
  (0 ≤ Decimal.cents q)%Z ∧
  (inject_Z (Decimal.cents q) <= q * 100 + (1 # 2))%Q ∧
  (q * 100 + (1 # 2) < inject_Z (Decimal.cents q) + 1)%Q.
Proof.
  intros Hq. unfold Decimal.cents.
  rewrite (proj2 (Qle_bool_iff 0 q) Hq).
  split; [|split].
  - change 0%Z with (Qfloor 0). apply Qfloor_resp_le. lra.
  - apply Qfloor_le.
  - rewrite <- (inject_Z_plus _ 1). apply Qlt_floor.
Qed.

Lemma cents_below (q : Q) (c : Z) :
  (0 <= q)%Q → (q < inject_Z c / 100)%Q → (Decimal.cents q ≤ c)%Z.
Proof.
  intros Hq Hlt. destruct (cents_bounds q Hq) as (_ & Hle & _).
  assert (H : (inject_Z (Decimal.cents q) < inject_Z (c + 1))%Q).
  { rewrite inject_Z_plus. change (inject_Z 1) with 1%Q.
    assert ((q * 100 < inject_Z c)%Q); [|lra].
    assert (E : (inject_Z c == inject_Z c / 100 * 100)%Q) by field.
    rewrite E. lra. }
  rewrite <- Zlt_Qlt in H. lia.
Qed.

(** A price from [0] to below a stored price fits the column; what the
    column keeps of it is within half a cent of it and not above the
    stored price. *)
Lemma numeric_below_stored (q cur : Q) :
  (0 <= q)%Q → (q < cur)%Q → Decimal.fits cur →
  ∃ stored,
    Decimal.numeric_10_2 q = Some stored ∧
    (0 <= stored)%Q ∧ (stored <= cur)%Q ∧
    (q - (1 # 200) < stored)%Q ∧ (stored <= q + (1 # 200))%Q.
Proof.
  intros Hq Hlt (c & Hc & Ecur). rewrite Ecur in Hlt.
  pose proof (cents_below q c Hq Hlt) as Hle.
  destruct (cents_bounds q Hq) as (H0 & H1 & H2).
  unfold Decimal.numeric_10_2. cbv zeta.
  assert ((Z.abs (Decimal.cents q) <? 10 ^ 10)%Z = true) as ->
    by (apply Z.ltb_lt; lia).
  eexists. split; [reflexivity|].
  assert (E0 : (0 <= inject_Z (Decimal.cents q))%Q)
    by (change 0%Q with (inject_Z 0); by rewrite <- Zle_Qle).
  assert (E1 : (inject_Z (Decimal.cents q) <= inject_Z c)%Q)
    by (by rewrite <- Zle_Qle).
  rewrite Ecur.
  assert (Ed : ∀ x : Q, (x / 100 == x * (1 # 100))%Q) by (intros; field).
  rewrite !Ed. clear Hlt Ed Ecur.
  generalize dependent (inject_Z (Decimal.cents q)).
  generalize (inject_Z c). intros y x ? ? ? ?.
  split; [|split; [|split]]; lra.
Qed.

Lemma drop_price_original (p : Q) (l : Listing.t) :
  snd (Listing.drop_price p l) = true →
  Listing.original_price (fst (Listing.drop_price p l))
  = if Py.truthy (Listing.original_price l) then Listing.original_price l
    else Listing.price l.
Proof. intros H. by destruct (drop_price_true_effect l p H) as (_ & ? & _). Qed.

Lemma find_listing_prices (db : FeedTasks.DB) (lid : uuid) (l : Listing.t) (p : Q) :
  Requests.prices_stored db → Endpoints.find_listing db lid = Some l →
  Listing.price l = Some p → Decimal.fits p.
Proof.
  intros Hall Hl Hp. apply List.find_some in Hl as [Hin _].
  exact (proj1 (List.Forall_forall _ _) Hall l Hin p Hp).
Qed.

(** What a handler that returned has done. *)
Lemma drop_listing_price_returns (lid u : uuid) (p : Q) (db db' : FeedTasks.DB)
    (r : Endpoints.price_drop_response) :
  Endpoints.drop_listing_price lid u p db = Endpoints.Returns (db', r) →
  ∃ l cur stored,
    (0 <= p)%Q ∧
    Endpoints.find_listing db lid = Some l ∧ Listing.user_id l = u ∧
    Listing.price l = Some cur ∧ (p < cur)%Q ∧
    Decimal.numeric_10_2 p = Some stored ∧
    db' = Endpoints.update_listing lid (Endpoints.store_price_drop p stored) db ∧
    r = Endpoints.mkPriceDrop "Price dropped" cur p
          (Listing.get_price_drop_percent
             (Listing.set_prices (Some stored)
                (if Py.truthy (Listing.original_price l)
                 then Listing.original_price l else Some cur) l)).
Proof.
  unfold Endpoints.drop_listing_price.
  destruct (Py.Qlt_bool p 0) eqn:Hneg; [done|].
  apply not_true_iff_false in Hneg. rewrite Qlt_bool_iff in Hneg.
  apply Qnot_lt_le in Hneg.
  destruct (Endpoints.find_listing db lid) as [l|] eqn:El; [|done].
  destruct (N.eqb_spec (Listing.user_id l) u) as [Eu|Eu]; cbn [negb]; [|done].
  destruct (Listing.drop_price p l) as [l' dropped] eqn:Ed.
  assert (Hsnd : snd (Listing.drop_price p l) = dropped) by (by rewrite Ed).
  destruct dropped; cbn [negb]; [|done].
  pose proof (proj1 (drop_price_true_iff l p) Hsnd) as (cur & Hcur & Hnz & Hlt).
  assert (Ht : Py.truthy (Listing.price l) = true) by (apply truthy_iff; eauto).
  rewrite Ht, Hcur. cbn [Py.float]. unfold Endpoints.event_drop_percent.
  destruct (Qeq_bool cur 0) eqn:E0; [by apply Qeq_bool_iff in E0|].
  destruct (Decimal.numeric_10_2 p) as [stored|] eqn:Es; [|done].
  intros [= <- <-]. exists l, cur, stored.
  repeat (split; [done|]). f_equal. f_equal.
  unfold Endpoints.store_price_drop.
  by rewrite (drop_price_original p l Hsnd), Hcur.
Qed.

(** X7. The price-drop endpoint, on a table whose prices are values of
    their column.  A negative new price is refused when the request is
    validated; otherwise the handler answers 404 for an unknown listing,
    403 for a listing of another user and 400 exactly when the listing
    has no price above the new one.  It raises nothing else: a listing
    without a price, or with price 0, is refused with 400 before the
    event divides by the old price, and a new price below a stored one
    fits the column.  On success the stored price is the new price rounded
    to cents, which is never above the previous price; the first
    non-zero price is kept as original price; and the response carries
    the previous price, the requested price and
    [get_price_drop_percent] of the stored row. *)
Theorem drop_listing_price_outcomes :
  ∀ (listing_id current_user : uuid) (new_price : Q) (db : FeedTasks.DB),
    Requests.prices_stored db →
    match Endpoints.drop_listing_price listing_id current_user new_price db with
    | Endpoints.Fails exception =>
        exception = "RequestValidationError"%string ∧ (new_price < 0)%Q
    | Endpoints.Raises e =>
        (0 <= new_price)%Q ∧
        ((e = Endpoints.HTTP 404 "Listing not found" ∧
          Endpoints.find_listing db listing_id = None) ∨
         (∃ l, Endpoints.find_listing db listing_id = Some l ∧
            ((e = Endpoints.HTTP 403 "Not your listing" ∧
              Listing.user_id l ≠ current_user) ∨
             (e = Endpoints.HTTP 400 "New price must be lower than current price" ∧
              Listing.user_id l = current_user ∧
              ¬ ∃ cur, Listing.price l = Some cur ∧ (new_price < cur)%Q))))
    | Endpoints.Returns (db', r) =>
        ∃ l cur stored l',
          (0 <= new_price)%Q ∧
          Endpoints.find_listing db listing_id = Some l ∧
          Listing.user_id l = current_user ∧
          Listing.price l = Some cur ∧ (new_price < cur)%Q ∧
          Decimal.numeric_10_2 new_price = Some stored ∧
          (0 <= stored)%Q ∧ (stored <= cur)%Q ∧
          (new_price - (1 # 200) < stored)%Q ∧
          (stored <= new_price + (1 # 200))%Q ∧
          Endpoints.find_listing db' listing_id = Some l' ∧
          Listing.price l' = Some stored ∧
          Listing.original_price l'
          = (if Py.truthy (Listing.original_price l)
             then Listing.original_price l else Some cur) ∧
          r = Endpoints.mkPriceDrop "Price dropped" cur new_price
                (Listing.get_price_drop_percent l')
    end.
Proof.
  intros lid u p db Hfit.
  destruct (Endpoints.drop_listing_price lid u p db) as [[db' r]|e|ex] eqn:E.
  - apply drop_listing_price_returns in E
      as (l & cur & stored & Hp & Hl & Hu & Hcur & Hlt & Hs & -> & ->).
    destruct (numeric_below_stored p cur Hp Hlt
                (find_listing_prices db lid l cur Hfit Hl Hcur))
      as (stored' & Hs' & H0 & H1 & H2 & H3).
    assert (stored' = stored) as -> by congruence.
    exists l, cur, stored,
      (Listing.set_prices (Some stored)
         (if Py.truthy (Listing.original_price l)
          then Listing.original_price l else Some cur) l).
    do 10 (split; [done|]). split; [|done].
    unfold Endpoints.find_listing, Endpoints.update_listing.
    cbn [FeedTasks.listings FeedTasks.set_listings].
    rewrite find_update_first by done.
    unfold Endpoints.find_listing in Hl. rewrite Hl.
    unfold Endpoints.store_price_drop. cbn [fmap option_fmap option_map].
    rewrite drop_price_original, Hcur; [done|].
    apply drop_price_true_iff. exists cur. repeat split; [done| |done].
    intros Hz. rewrite Hz in Hlt. lra.
  - revert E. unfold Endpoints.drop_listing_price.
    destruct (Py.Qlt_bool p 0) eqn:Hneg; [done|].
    apply not_true_iff_false in Hneg. rewrite Qlt_bool_iff in Hneg.
    apply Qnot_lt_le in Hneg. split; [done|]. revert E.
    destruct (Endpoints.find_listing db lid) as [l|] eqn:El;
      [|intros [= <-]; by left].
    destruct (N.eqb_spec (Listing.user_id l) u) as [Eu|Eu]; cbn [negb];
      [|intros [= <-]; right; exists l; split; [done|by left]].
    destruct (Listing.drop_price p l) as [l' dropped] eqn:Ed.
    assert (Hsnd : snd (Listing.drop_price p l) = dropped) by (by rewrite Ed).
    destruct dropped; cbn [negb].
    + destruct (Endpoints.event_drop_percent _ _); [|done].
      by destruct (Decimal.numeric_10_2 p).
    + intros [= <-]. right. exists l. split; [done|]. right.
      repeat split; [done|]. intros (cur & Hcur & Hlt).
      assert (snd (Listing.drop_price p l) = true); [|congruence].
      apply drop_price_true_iff. exists cur. repeat split; [done| |done].
      intros Hz. rewrite Hz in Hlt. lra.
  - revert E. unfold Endpoints.drop_listing_price.
    destruct (Py.Qlt_bool p 0) eqn:Hneg.
    { intros [= <-]. split; [done|]. by apply Qlt_bool_iff. }
    apply not_true_iff_false in Hneg. rewrite Qlt_bool_iff in Hneg.
    apply Qnot_lt_le in Hneg.
    destruct (Endpoints.find_listing db lid) as [l|] eqn:El; [|done].
    destruct (negb _); [done|].
    destruct (Listing.drop_price p l) as [l' dropped] eqn:Ed.
    assert (Hsnd : snd (Listing.drop_price p l) = dropped) by (by rewrite Ed).
    destruct dropped; cbn [negb]; [|done].
    pose proof (proj1 (drop_price_true_iff l p) Hsnd) as (cur & Hcur & Hnz & Hlt).
    assert (Ht : Py.truthy (Listing.price l) = true) by (apply truthy_iff; eauto).
    rewrite Ht, Hcur. cbn [Py.float]. unfold Endpoints.event_drop_percent.
    destruct (Qeq_bool cur 0) eqn:E0; [by apply Qeq_bool_iff in E0|].
    destruct (numeric_below_stored p cur Hneg Hlt
                (find_listing_prices db lid l cur Hfit El Hcur))
      as (stored & -> & _). done.
Qed.

Lemma drop_listing_price_outcomes_witness :
  let db := FeedTasks.mkDB [1]%N
              [Sample.listing 10 1 "Jordan 4 Bred" (Some 250%Q) Listing.SALE
                 "892a100d2c3ffff" 0%Q] [] [] [] in
  ∃ db' l',
    Endpoints.drop_listing_price 10 1 249.999 db
    = Endpoints.Returns
        (db', Endpoints.mkPriceDrop "Price dropped" 250 249.999
                (Listing.get_price_drop_percent l')) ∧
    Endpoints.find_listing db' 10 = Some l' ∧
    Listing.price l' = Some (inject_Z 25000 / 100)%Q ∧
    (Listing.get_price_drop_percent l' == 0)%Q.
Proof.
  intros db.
  pose proof (drop_listing_price_outcomes 10 1 249.999 db
                ltac:(repeat constructor; intros p [= <-]; exists 25000%Z;
                      split; [reflexivity|reflexivity])) as H.
  destruct (Endpoints.drop_listing_price 10 1 249.999 db) as [[db' r]|e|ex] eqn:E;
    [|vm_compute in E; discriminate E..].
  destruct H as (l & cur & stored & l' & _ & Hl & _ & Hcur & _ & Hs & _ & _ & _ & _
                 & Hl' & Hp' & Ho' & ->).
  injection Hl as <-. injection Hcur as <-. injection Hs as <-.
  exists db', l'. split; [reflexivity|]. split; [exact Hl'|]. split; [exact Hp'|].
  unfold Listing.get_price_drop_percent. rewrite Hp', Ho'. reflexivity.
Defined.

Lemma numeric_is_cents (q stored : Q) :
  Decimal.numeric_10_2 q = Some stored →
  stored = (inject_Z (Decimal.cents q) / 100)%Q.
Proof.
  unfold Decimal.numeric_10_2. cbv zeta.
  destruct (Z.abs _ <? _)%Z; [|done]. by intros [= <-].
Qed.

Lemma percent_of_stored (o p : Q) (l : Listing.t) :
  (0 < o)%Q → (0 <= p)%Q → (p <= o)%Q →
  let percent :=
    Listing.get_price_drop_percent (Listing.set_prices (Some p) (Some o) l) in
  ((p == 0)%Q → (percent == 0)%Q) ∧
  ((p == o)%Q → (percent == 0)%Q) ∧
  (¬ (p == 0)%Q →
     (percent == (o - p) / o * 100)%Q ∧ (0 <= percent)%Q ∧ (percent < 100)%Q).
Proof.
  intros Ho Hp Hle percent. subst percent.
  unfold Listing.get_price_drop_percent.
  cbn [Listing.price Listing.original_price Listing.set_prices].
  assert (Hto : Py.truthy (Some o) = true).
  { apply truthy_iff. exists o. split; [done|]. lra. }
  rewrite Hto. cbn [negb orb Py.float].
  assert (Hratio : ((o - p) / o * 100 == 100 - 100 * (p / o))%Q) by (field; lra).
  assert (H0 : (0 <= p / o)%Q) by (apply Qle_shift_div_l; lra).
  assert (H1 : (p / o <= 1)%Q) by (apply Qle_shift_div_r; lra).
  split; [|split].
  - intros Hz. assert (Py.truthy (Some p) = false) as ->; [|reflexivity].
    simpl. apply negb_false_iff. by apply Qeq_bool_iff.
  - intros Heq. destruct (Py.truthy (Some p)); [|reflexivity]. cbn [negb].
    rewrite Hratio.
    assert ((p / o == 1)%Q) as ->; [|reflexivity].
    rewrite Heq. field. lra.
  - intros Hnz. assert (Py.truthy (Some p) = true) as ->.
    { apply truthy_iff. by exists p. }
    cbn [negb]. split; [reflexivity|]. rewrite Hratio.
    assert (0 < p / o)%Q by (apply Qlt_shift_div_l; lra).
    split; lra.
Qed.

(** X8. What a successful price drop stores and reports, on a table
    whose prices are values of their column.  The response's
    [drop_percent] is read from the stored row.  A new price below half a
    cent is stored as 0, and the response reports 0 percent, because a
    price of 0 counts as no price.  A new price less than half a cent
    below the current one is stored as the current price: the answer is
    "Price dropped" although the price is what it was, and on a listing
    without an original price the response reports 0 percent.  On a
    listing without an original price, any other drop reports the drop
    from the previous price to the stored one, a value in [0, 100). *)
Theorem price_drop_is_stored_in_cents :
  ∀ (listing_id current_user : uuid) (new_price : Q) (db db' : FeedTasks.DB)
    (r : Endpoints.price_drop_response) (l : Listing.t) (cur : Q),
    Requests.prices_stored db →
    Endpoints.drop_listing_price listing_id current_user new_price db
    = Endpoints.Returns (db', r) →
    Endpoints.find_listing db listing_id = Some l →
    Listing.price l = Some cur →
    ∃ l' stored,
      Endpoints.find_listing db' listing_id = Some l' ∧
      Listing.price l' = Some stored ∧
      Endpoints.message r = "Price dropped"%string ∧
      Endpoints.drop_percent r = Listing.get_price_drop_percent l' ∧
      ((new_price < 1 # 200)%Q →
         (stored == 0)%Q ∧ (Endpoints.drop_percent r == 0)%Q) ∧
      ((cur - (1 # 200) <= new_price)%Q →
         (stored == cur)%Q ∧
         (Py.truthy (Listing.original_price l) = false →
          (Endpoints.drop_percent r == 0)%Q)) ∧
      (Py.truthy (Listing.original_price l) = false → ¬ (stored == 0)%Q →
         (Endpoints.drop_percent r == (cur - stored) / cur * 100)%Q ∧
         (0 <= Endpoints.drop_percent r)%Q ∧ (Endpoints.drop_percent r < 100)%Q).
Proof.
  intros lid u p db db' r l cur Hfit Hret Hl Hcur.
  apply drop_listing_price_returns in Hret
    as (l0 & cur0 & stored & Hp & Hl0 & Hu & Hcur0 & Hlt & Hs & -> & ->).
  assert (l0 = l) as -> by congruence.
  assert (cur0 = cur) as -> by congruence.
  pose proof (find_listing_prices db lid l cur Hfit Hl Hcur) as Hcents.
  destruct (numeric_below_stored p cur Hp Hlt Hcents)
    as (stored' & Hs' & H0 & H1 & H2 & H3).
  assert (stored' = stored) as -> by congruence. clear Hs'.
  pose proof (numeric_is_cents p stored Hs) as Hc.
  destruct (cents_bounds p Hp) as (C0 & C1 & C2).
  set (l' := Listing.set_prices (Some stored)
               (if Py.truthy (Listing.original_price l)
                then Listing.original_price l else Some cur) l).
  exists l', stored.
  assert (Hfind : Endpoints.find_listing
                    (Endpoints.update_listing lid
                       (Endpoints.store_price_drop p stored) db) lid = Some l').
  { unfold Endpoints.find_listing, Endpoints.update_listing.
    cbn [FeedTasks.listings FeedTasks.set_listings].
    rewrite find_update_first by done.
    unfold Endpoints.find_listing in Hl. rewrite Hl.
    unfold Endpoints.store_price_drop. cbn [fmap option_fmap option_map].
    rewrite drop_price_original, Hcur; [done|].
    apply drop_price_true_iff. exists cur. repeat split; [done| |done].
    intros Hz. rewrite Hz in Hlt. lra. }
  assert (Hpos : (0 < cur)%Q) by lra.
  split; [exact Hfind|]. split; [done|]. split; [done|]. split; [done|].
  cbn [Endpoints.drop_percent]. fold l'.
  split; [|split].
  - intros Hsmall.
    assert (Hz : Decimal.cents p = 0%Z).
    { assert (H : (inject_Z (Decimal.cents p) < inject_Z 1)%Q)
        by (change (inject_Z 1) with 1%Q; lra).
      rewrite <- Zlt_Qlt in H. lia. }
    assert (Hst : (stored == 0)%Q) by (rewrite Hc, Hz; reflexivity).
    split; [exact Hst|].
    unfold Listing.get_price_drop_percent. subst l'.
    cbn [Listing.price Listing.set_prices].
    assert (Py.truthy (Some stored) = false) as ->.
    { simpl. apply negb_false_iff. by apply Qeq_bool_iff. }
    by rewrite orb_true_r.
  - intros Hnear.
    assert (Hst : (stored == cur)%Q).
    { destruct Hcents as (c0 & _ & Ec0).
      assert (Hle : (Decimal.cents p ≤ c0)%Z).
      { apply cents_below; [done|]. by rewrite <- Ec0. }
      assert (Hge : (c0 ≤ Decimal.cents p)%Z).
      { assert (H : (inject_Z c0 < inject_Z (Decimal.cents p + 1))%Q).
        { rewrite inject_Z_plus. change (inject_Z 1) with 1%Q.
          assert (E : (inject_Z c0 == cur * 100)%Q) by (rewrite Ec0; field).
          rewrite E. lra. }
        rewrite <- Zlt_Qlt in H. lia. }
      assert (Decimal.cents p = c0) as Heq by lia.
      rewrite Hc, Heq. by symmetry. }
    split; [exact Hst|]. intros Ho. subst l'. rewrite Ho.
    by apply (percent_of_stored cur stored l Hpos H0 H1).
  - intros Ho Hnz. subst l'. rewrite Ho.
    by apply (percent_of_stored cur stored l Hpos H0 H1).
Qed.

Lemma price_drop_is_stored_in_cents_witness :
  let db := FeedTasks.mkDB [1]%N
              [Sample.listing 10 1 "Jordan 4 Bred" (Some 250%Q) Listing.SALE
                 "892a100d2c3ffff" 0%Q] [] [] [] in
  ∃ db' r,
    Endpoints.drop_listing_price 10 1 0.004 db = Endpoints.Returns (db', r) ∧
    (Endpoints.drop_percent r == 0)%Q.
Proof.
  intros db. eexists _, _. split; [reflexivity|].
  destruct (price_drop_is_stored_in_cents 10 1 0.004 db _ _ _ 250
              ltac:(repeat constructor; intros p [= <-]; exists 25000%Z;
                    split; [reflexivity|reflexivity])
              eq_refl eq_refl eq_refl)
    as (l' & stored & _ & _ & _ & _ & Hsmall & _).
  exact (proj2 (Hsmall ltac:(vm_compute; reflexivity))).
Defined.

(** ** Views *)

Section Views.

Import FeedTasks Endpoints Requests.

Lemma find_listing_update (lid lid' : uuid) (f : Listing.t → Listing.t) (db : DB) :
  (∀ l, Listing.id (f l) = Listing.id l) →
  find_listing (update_listing lid' f db) lid
  = (fun l => if N.eqb lid' lid then f l else l) <$> find_listing db lid.
Proof.
  intros Hf. unfold find_listing, update_listing.
  cbn [listings set_listings].
  induction (listings db) as [|x xs IH]; simpl; [done|].
  destruct (N.eqb_spec (Listing.id x) lid') as [E'|E'];
    destruct (N.eqb_spec (Listing.id x) lid) as [E|E]; simpl.
  - rewrite Hf. subst. by rewrite !N.eqb_refl.
  - rewrite Hf. destruct (N.eqb_spec (Listing.id x) lid); [done|].
    destruct (N.eqb_spec lid' lid); [congruence|].
    clear IH. induction xs as [|y ys IH]; simpl; [done|].
    destruct (N.eqb (Listing.id y) lid); [done|]. exact IH.
  - destruct (N.eqb_spec (Listing.id x) lid); [|done].
    destruct (N.eqb_spec lid' lid); [congruence|done].
  - destruct (N.eqb_spec (Listing.id x) lid); [done|]. exact IH.
Qed.

(** What one request does to a listing that exists. *)
Lemma handle_listing (r : request) (db : DB) (lid : uuid) (l : Listing.t) :
  find_listing db lid = Some l →
  ∃ l', find_listing (handle db r) lid = Some l' ∧
        Listing.user_id l' = Listing.user_id l ∧
        Listing.view_count l'
        = (Listing.view_count l + views_by_others (Listing.user_id l) lid [r])%Z.
Proof.
  intros Hl.
  assert (Hsame : ∃ l', find_listing db lid = Some l' ∧
            Listing.user_id l' = Listing.user_id l ∧
            Listing.view_count l' = (Listing.view_count l + 0)%Z).
  { exists l. repeat split; [done|lia]. }
  assert (Hupd : ∀ lid' f,
            (∀ l, Listing.id (f l) = Listing.id l) →
            (∀ l, Listing.user_id (f l) = Listing.user_id l) →
            (∀ l, Listing.view_count (f l) = Listing.view_count l) →
            ∃ l', find_listing (update_listing lid' f db) lid = Some l' ∧
              Listing.user_id l' = Listing.user_id l ∧
              Listing.view_count l' = (Listing.view_count l + 0)%Z).
  { intros lid' f H1 H2 H3. rewrite find_listing_update, Hl by exact H1.
    eexists. split; [reflexivity|].
    destruct (N.eqb lid' lid); rewrite ?H2, ?H3; split; (done || lia). }
  destruct r as [lid' u|lid' u|lid' u|lid' u p|lid' u]; cbn [handle].
  - unfold views_by_others. cbn [List.filter].
    unfold get_listing.
    destruct (N.eqb_spec lid' lid) as [->|E].
    + rewrite Hl. cbn [andb].
      destruct (N.eqb (Listing.user_id l) u); cbn [negb committed length].
      * exact Hsame.
      * rewrite find_listing_update, Hl by done. rewrite N.eqb_refl.
        eexists. split; [reflexivity|]. split; [done|]. simpl. lia.
    + cbn [andb length].
      destruct (find_listing db lid') as [l0|]; [|exact Hsame].
      destruct (negb _); cbn [committed]; [|exact Hsame].
      rewrite find_listing_update, Hl by done.
      destruct (N.eqb_spec lid' lid); [done|].
      eexists. split; [reflexivity|]. split; [done|]. simpl. lia.
  - unfold save_listing.
    destruct (find_listing db lid') as [l0|]; [|exact Hsame].
    destruct (find_save db lid' u); [exact Hsame|]. cbn [committed].
    change (views_by_others (Listing.user_id l) lid [SaveListing lid' u]) with 0%Z.
    rewrite find_listing_update by done.
    change (find_listing (set_listing_saves _ db) lid) with (find_listing db lid).
    rewrite Hl. eexists. split; [reflexivity|].
    destruct (N.eqb lid' lid); split; (done || (simpl; lia)).
  - unfold unsave_listing.
    destruct (find_save db lid' u); [|exact Hsame]. cbn [committed].
    change (views_by_others (Listing.user_id l) lid [UnsaveListing lid' u]) with 0%Z.
    rewrite find_listing_update by done.
    change (find_listing (set_listing_saves _ db) lid) with (find_listing db lid).
    rewrite Hl. eexists. split; [reflexivity|].
    destruct (N.eqb lid' lid); split; (done || (simpl; lia)).
  - unfold drop_listing_price.
    destruct (Py.Qlt_bool p 0); [exact Hsame|].
    destruct (find_listing db lid') as [l0|]; [|exact Hsame].
    destruct (negb _); [exact Hsame|].
    destruct (Listing.drop_price p l0) as [l1 dropped].
    destruct (negb dropped); [exact Hsame|].
    destruct (event_drop_percent _ _); [|exact Hsame].
    destruct (Decimal.numeric_10_2 p); [|exact Hsame]. cbn [committed].
    by apply Hupd.
  - unfold mark_listing_sold.
    destruct (find_listing db lid') as [l0|]; [|exact Hsame].
    destruct (negb _); [exact Hsame|]. cbn [committed].
    by apply Hupd.
Qed.

Lemma views_by_others_cons (owner lid : uuid) (r : request) (rs : list request) :
  views_by_others owner lid (r :: rs)
  = (views_by_others owner lid [r] + views_by_others owner lid rs)%Z.
Proof.
  unfold views_by_others. cbn [List.filter].
  destruct r; cbn [length]; try lia.
  destruct (_ && _); cbn [length]; lia.
Qed.

End Views.

(** X9. Over any sequence of requests to the listing endpoints, a
    listing that exists keeps existing and keeps its owner, and its
    [view_count] grows by exactly the number of [get_listing] requests for
    it that come from users other than the owner: the owner's own views,
    views of other listings and all other requests leave it alone. *)
Theorem view_count_counts_other_users :
  ∀ (rs : list Requests.request) (db : FeedTasks.DB) (listing_id : uuid)
    (l : Listing.t),
    Endpoints.find_listing db listing_id = Some l →
    ∃ l', Endpoints.find_listing (Requests.handle_all rs db) listing_id = Some l' ∧
          Listing.user_id l' = Listing.user_id l ∧
          Listing.view_count l'
          = (Listing.view_count l
             + Requests.views_by_others (Listing.user_id l) listing_id rs)%Z.
Proof.
  intros rs. induction rs as [|r rs IH]; intros db lid l Hl.
  - exists l. repeat split; [done|]. unfold Requests.views_by_others. simpl. lia.
  - destruct (handle_listing r db lid l Hl) as (l1 & H1 & Hu1 & Hv1).
    destruct (IH _ lid l1 H1) as (l' & H' & Hu' & Hv').
    exists l'. split; [exact H'|]. split; [congruence|].
    rewrite views_by_others_cons, Hv', Hv1, Hu1. lia.
Qed.

Lemma view_count_counts_other_users_witness :
  let db := FeedTasks.mkDB [1; 2]%N
              [Sample.listing_a "892a100d2c3ffff"; Sample.listing_b "892a100d2c3ffff"]
              [] [] [] in
  ∃ l', Endpoints.find_listing
          (Requests.handle_all
             [ Requests.GetListing 10 1; Requests.GetListing 10 2;
               Requests.GetListing 20 2; Requests.SaveListing 10 2;
               Requests.GetListing 10 3 ] db) 10 = Some l' ∧
        Listing.view_count l' = 2%Z.
Proof.
  intros db.
  destruct (view_count_counts_other_users
              [ Requests.GetListing 10 1; Requests.GetListing 10 2;
                Requests.GetListing 20 2; Requests.SaveListing 10 2;
                Requests.GetListing 10 3 ] db 10
              (Sample.listing_a "892a100d2c3ffff") eq_refl)
    as (l' & H & _ & Hv).
  exists l'. split; [exact H|exact Hv].
Defined.

(** ** Saving and unsaving, column by column *)

(** X6. After a user has saved a listing, a second save by the same user
    is refused with status 400, trade discovery sees the save, the
    response carries the stored [save_count], and an unsave succeeds.
    After the unsave the table of saves is what it was before the save,
    the rows of the other listings are untouched, and the listing has
    its [save_count], [view_count], [message_count], [rank_score],
    prices and status back; its [demand_score] stays one higher: the
    unsave takes back the [save_count] but not the demand.  (Listings
    start with a [save_count] that is not negative.) *)
Theorem save_then_unsave :
  ∀ (listing_id current_user : uuid) (db db1 : FeedTasks.DB) (resp : string * Z),
    Forall (fun l => (0 ≤ Listing.save_count l)%Z) (FeedTasks.listings db) →
    Endpoints.save_listing listing_id current_user db = Endpoints.Returns (db1, resp) →
    Endpoints.save_listing listing_id current_user db1
    = Endpoints.Raises (Endpoints.HTTP 400 "Already saved") ∧
    (∃ l, Endpoints.find_listing db1 listing_id = Some l ∧
          FeedTasks.has_saved db1 current_user l = true ∧
          snd resp = Listing.save_count l) ∧
    ∃ db2 l l2,
      Endpoints.unsave_listing listing_id current_user db1
      = Endpoints.Returns (db2, "Save removed"%string) ∧
      FeedTasks.listing_saves db2 = FeedTasks.listing_saves db ∧
      (∀ other, other ≠ listing_id →
         Endpoints.find_listing db2 other = Endpoints.find_listing db other) ∧
      Endpoints.find_listing db listing_id = Some l ∧
      Endpoints.find_listing db2 listing_id = Some l2 ∧
      Listing.save_count l2 = Listing.save_count l ∧
      Listing.demand_score l2 = (Listing.demand_score l + 1)%Q ∧
      Listing.view_count l2 = Listing.view_count l ∧
      Listing.message_count l2 = Listing.message_count l ∧
      Listing.rank_score l2 = Listing.rank_score l ∧
      Listing.price l2 = Listing.price l ∧
      Listing.original_price l2 = Listing.original_price l ∧
      Listing.status l2 = Listing.status l.
Proof.
  intros lid u db db1 resp Hpos Hsave.
  destruct (save_then_unsave_tables lid u db db1 resp Hpos Hsave) as (H1 & H2 & H3).
  split; [exact H1|]. split; [exact H2|].
  assert (Hl : ∃ l, Endpoints.find_listing db lid = Some l).
  { unfold Endpoints.save_listing in Hsave.
    destruct (Endpoints.find_listing db lid) as [l|]; [by exists l|done]. }
  destruct Hl as (l & Hl).
  eexists _, l, _. split; [exact H3|]. split; [reflexivity|]. split.
  { intros other Hne. rewrite find_listing_update by done.
    destruct (N.eqb_spec lid other) as [E|E]; [congruence|].
    by destruct (Endpoints.find_listing db other). }
  split; [exact Hl|]. split.
  { rewrite find_listing_update, Hl by done. rewrite N.eqb_refl. reflexivity. }
  repeat split.
Qed.

Lemma save_then_unsave_witness :
  let db := FeedTasks.mkDB [1; 2]%N
              [Sample.listing_a "892a100d2c3ffff"; Sample.listing_b "892a100d2c3ffff"]
              [] [] [] in
  Endpoints.save_listing 20 1 (Requests.handle db (Requests.SaveListing 20 1))
  = Endpoints.Raises (Endpoints.HTTP 400 "Already saved").
Proof.
  intros db.
  refine (proj1 (save_then_unsave 20 1 db
                   (Requests.handle db (Requests.SaveListing 20 1))
                   ("Listing saved"%string, 1%Z) _ eq_refl)).
  repeat constructor; simpl; lia.
Defined.

(** ** Trade discovery: what a pass adds *)

Lemma fold_left_keeps_in {A S} (P : S → Prop) (f : S → A → S) (xs : list A) :
  (∀ st x, In x xs → P st → P (f st x)) → ∀ st, P st → P (fold_left f xs st).
Proof.
  induction xs as [|x xs IH]; intros Hstep st Hst; simpl; [done|].
  apply IH.
  - intros st' x' Hin. apply Hstep. by right.
  - apply Hstep; [by left|done].
Qed.

Lemma same_id_same_row (ls : list Listing.t) (a b : Listing.t) :
  NoDup (map Listing.id ls) → In a ls → In b ls →
  Listing.id a = Listing.id b → a = b.
Proof.
  induction ls as [|x xs IH]; simpl; [done|].
  intros Hnd Ha Hb E. apply NoDup_cons in Hnd as [Hx Hxs].
  assert (Hnot : ∀ c, In c xs → Listing.id c ≠ Listing.id x).
  { intros c Hc Ec. apply Hx. rewrite <- Ec. apply list_elem_of_In.
    by apply List.in_map. }
  destruct Ha as [->|Ha], Hb as [->|Hb]; try done.
  - exfalso. by apply (Hnot b Hb).
  - exfalso. by apply (Hnot a Ha).
  - by apply IH.
Qed.

Section DiscoverySound.

Variable h3_distance : string → string → option Z.
Variables (now : Q) (db : FeedTasks.DB).
Hypothesis unique_ids : NoDup (map Listing.id (FeedTasks.listings db)).

(** The matches that a pass may add: a new two-way match of a reciprocal
    pair, built for the owner of the first listing. *)
Let sound (m : TradeMatch.t) : Prop :=
  ∃ x y, Pairs.reciprocal db x y ∧
         m = FeedTasks.new_two_way h3_distance now (Listing.user_id x) x y.

Let added_to (ms0 : list TradeMatch.t) (st : list TradeMatch.t * nat) : Prop :=
  ∃ added, fst st = ms0 ++ added ∧ length added = snd st ∧ Forall sound added.

Lemma consider_wanted_sound (ms0 : list TradeMatch.t) (user : uuid)
    (st : list TradeMatch.t * nat) (wanted : Listing.t) :
  In wanted (FeedTasks.saved_listings db user) →
  added_to ms0 st →
  added_to ms0
    (FeedTasks.consider_wanted h3_distance now db user
       (FeedTasks.user_listings db user) st wanted).
Proof.
  intros Hw Hst. unfold FeedTasks.consider_wanted.
  destruct (N.eqb_spec (Listing.user_id wanted) user) as [|Hu]; [done|].
  destruct (List.find _ (FeedTasks.listing_saves db)) as [s|] eqn:Es; [|done].
  destruct (List.find _ (FeedTasks.listings db)) as [uo|] eqn:Eo; [|done].
  destruct (FeedTasks.existing _ _ _); [done|].
  destruct Hst as (added & Hfst & Hlen & Hall).
  exists (added ++ [FeedTasks.new_two_way h3_distance now user uo wanted]).
  cbn [fst snd]. rewrite Hfst, length_app, Hlen, <- app_assoc.
  split; [done|]. split; [simpl; lia|].
  apply Forall_app. split; [done|]. apply Forall_singleton.
  apply List.find_some in Es as [Hs Es]. apply andb_true_iff in Es as [Es1 Es2].
  apply N.eqb_eq in Es1. apply existsb_exists in Es2 as (i & Hi & Ei).
  apply N.eqb_eq in Ei. apply List.in_map_iff in Hi as (o & <- & Ho).
  apply List.filter_In in Ho as [Ho Eo'].
  apply andb_true_iff in Eo' as [Eou Eoe]. apply N.eqb_eq in Eou.
  apply List.find_some in Eo as [Huo Euo]. apply N.eqb_eq in Euo.
  assert (uo = o) as ->
    by (apply (same_id_same_row (FeedTasks.listings db)); congruence).
  apply List.filter_In in Hw as [Hw Ew]. apply andb_true_iff in Ew as [Ews Ewe].
  exists o, wanted. rewrite Eou. split; [|done].
  repeat split; try done.
  - intros E. apply Hu. rewrite <- Eou. f_equal. symmetry.
    by apply (same_id_same_row (FeedTasks.listings db)).
  - congruence.
  - unfold FeedTasks.has_saved. apply existsb_exists. exists s.
    split; [done|]. by rewrite Ei, Es1, !N.eqb_refl.
  - by rewrite Eou.
Qed.

Lemma find_trade_matches_sound (user_id : option uuid) :
  added_to (FeedTasks.trade_matches db)
    (fold_left (FeedTasks.process_user h3_distance now db)
       (FeedTasks.users_to_process user_id db)
       (FeedTasks.trade_matches db, 0%nat)).
Proof.
  apply (fold_left_keeps (added_to (FeedTasks.trade_matches db))).
  - intros st [u|] Hst; simpl; [|done].
    apply (fold_left_keeps_in (added_to (FeedTasks.trade_matches db)));
      [|exact Hst].
    intros st' w Hw Hst'. by apply consider_wanted_sound.
  - exists []. by rewrite app_nil_r.
Qed.

End DiscoverySound.

(** X10. A discovery pass only appends to the match table, the number it
    reports is the number of rows it appended, and, listing ids being
    unique, every row it appends is the two-way match of a reciprocal pair
    of the database: two trade-eligible listings of two different users,
    each saved by the owner of the other, the match built for the owner of
    the first. *)
Theorem discovery_adds_only_reciprocal_matches :
  ∀ (h3_distance : string → string → option Z) (user_id : option uuid)
    (now : Q) (db : FeedTasks.DB),
    NoDup (map Listing.id (FeedTasks.listings db)) →
    ∃ added : list TradeMatch.t,
      FeedTasks.trade_matches
        (fst (FeedTasks.find_trade_matches h3_distance user_id now db))
      = FeedTasks.trade_matches db ++ added ∧
      length added = snd (FeedTasks.find_trade_matches h3_distance user_id now db) ∧
      Forall (fun m => ∃ x y, Pairs.reciprocal db x y ∧
                m = FeedTasks.new_two_way h3_distance now (Listing.user_id x) x y)
             added.
Proof.
  intros h3d uid now db Hids.
  exact (find_trade_matches_sound h3d now db Hids uid).
Qed.

Lemma discovery_adds_only_reciprocal_matches_witness :
  ∃ added : list TradeMatch.t,
    FeedTasks.trade_matches
      (fst (FeedTasks.find_trade_matches Sample.h3_distance None 0 Sample.cross_db))
    = added ∧
    length added = 3%nat.
Proof.
  destruct (discovery_adds_only_reciprocal_matches Sample.h3_distance None 0
              Sample.cross_db) as (added & H1 & H2 & _).
  - apply NoDup_ListNoDup. repeat constructor; simpl; intuition discriminate.
  - exists added. split; [exact H1|]. rewrite H2. vm_compute. reflexivity.
Defined.

(** ** Trade discovery: a second pass *)

Section DiscoveryAgain.

Variable h3_distance : string → string → option Z.
Variables (now later : Q) (db : FeedTasks.DB).

Lemma existing_of_covering (ms : list TradeMatch.t) (m : TradeMatch.t)
    (a b : uuid) :
  In m ms →
  FeedTasks.array_contains (TradeMatch.listing_ids m) [a; b] = true →
  ∃ m', FeedTasks.existing ms a b = Some m'.
Proof.
  intros Hin Hc.
  destruct (find_some_of_In
              (fun m => FeedTasks.array_contains (TradeMatch.listing_ids m) [a; b])
              ms m Hin Hc) as (m' & H & _).
  by exists m'.
Qed.

(** Once a step has run, it finds its pair covered in every table that
    holds the rows of the table it left. *)
Lemma consider_wanted_settled (ms : list TradeMatch.t) (matches : list TradeMatch.t)
    (user : uuid) (offers : list Listing.t) (st : list TradeMatch.t * nat)
    (wanted : Listing.t) (n : nat) :
  (∀ m, In m (fst (FeedTasks.consider_wanted h3_distance now db user offers st wanted))
        → In m matches) →
  FeedTasks.consider_wanted h3_distance later
    (FeedTasks.set_trade_matches ms db) user offers (matches, n) wanted
  = (matches, n).
Proof.
  unfold FeedTasks.consider_wanted.
  cbn [FeedTasks.listing_saves FeedTasks.listings FeedTasks.set_trade_matches fst].
  destruct (N.eqb (Listing.user_id wanted) user); [done|].
  destruct (List.find _ (FeedTasks.listing_saves db)) as [s|]; [|done].
  destruct (List.find _ (FeedTasks.listings db)) as [uo|]; [|done].
  destruct (FeedTasks.existing (fst st) _ _) as [m|] eqn:E; cbn [fst]; intros Hsub.
  - apply List.find_some in E as [Hin Hc].
    by destruct (existing_of_covering matches m _ _ (Hsub m Hin) Hc) as (m' & ->).
  - edestruct (existing_of_covering matches
                 (FeedTasks.new_two_way h3_distance now user uo wanted))
      as (m' & ->); [| |done].
    + apply Hsub, in_or_app. right. by left.
    + destruct (new_two_way_fields h3_distance now user uo wanted)
        as (_ & _ & _ & -> & _).
      apply array_contains_self.
Qed.

Lemma saved_listings_set_trade_matches (ms : list TradeMatch.t) (u : uuid) :
  FeedTasks.saved_listings (FeedTasks.set_trade_matches ms db) u
  = FeedTasks.saved_listings db u.
Proof. reflexivity. Qed.

Lemma process_user_settled (ms matches : list TradeMatch.t) (user : option uuid)
    (st : list TradeMatch.t * nat) (n : nat) :
  (∀ m, In m (fst (FeedTasks.process_user h3_distance now db st user))
        → In m matches) →
  FeedTasks.process_user h3_distance later
    (FeedTasks.set_trade_matches ms db) (matches, n) user
  = (matches, n).
Proof.
  destruct user as [u|]; [|done]. unfold FeedTasks.process_user.
  change (FeedTasks.saved_listings (FeedTasks.set_trade_matches ms db) u)
    with (FeedTasks.saved_listings db u).
  change (FeedTasks.user_listings (FeedTasks.set_trade_matches ms db) u)
    with (FeedTasks.user_listings db u).
  revert st. induction (FeedTasks.saved_listings db u) as [|w ws IH];
    intros st Hsub; simpl in *; [done|].
  rewrite (consider_wanted_settled ms matches u _ st w n).
  - by apply (IH _ Hsub).
  - intros m Hm. apply Hsub.
    apply (fold_left_keeps (fun st => In m (fst st))); [|exact Hm].
    intros st' w' Hst'. by apply consider_wanted_grows.
Qed.

Lemma users_settled (ms matches : list TradeMatch.t) (users : list (option uuid))
    (st : list TradeMatch.t * nat) (n : nat) :
  (∀ m, In m (fst (fold_left (FeedTasks.process_user h3_distance now db) users st))
        → In m matches) →
  fold_left (FeedTasks.process_user h3_distance later
               (FeedTasks.set_trade_matches ms db)) users (matches, n)
  = (matches, n).
Proof.
  revert st. induction users as [|u us IH]; intros st Hsub; simpl in *; [done|].
  rewrite (process_user_settled ms matches u st n).
  - by apply (IH _ Hsub).
  - intros m Hm. apply Hsub.
    apply (fold_left_keeps (fun st => In m (fst st))); [|exact Hm].
    intros st' u' Hst'. by apply process_user_grows.
Qed.

End DiscoveryAgain.

(** X11. Trade discovery is idempotent: a second pass for the same users
    over the database that the first pass left creates no match and
    leaves the match table as it is, whatever matches the table held
    before. *)
Theorem discovery_second_pass_adds_nothing :
  ∀ (h3_distance : string → string → option Z) (user_id : option uuid)
    (now later : Q) (db : FeedTasks.DB),
    let db1 := fst (FeedTasks.find_trade_matches h3_distance user_id now db) in
    FeedTasks.find_trade_matches h3_distance user_id later db1 = (db1, 0%nat).
Proof.
  intros h3d uid now later db db1.
  unfold FeedTasks.find_trade_matches at 1.
  assert (Husers : FeedTasks.users_to_process uid db1
                   = FeedTasks.users_to_process uid db) by reflexivity.
  rewrite Husers.
  assert (Hfold :
    fold_left (FeedTasks.process_user h3d later db1)
      (FeedTasks.users_to_process uid db) (FeedTasks.trade_matches db1, 0%nat)
    = (FeedTasks.trade_matches db1, 0%nat)).
  { subst db1. unfold FeedTasks.find_trade_matches.
    cbn [fst FeedTasks.trade_matches FeedTasks.set_trade_matches].
    match goal with
    | |- context [FeedTasks.set_trade_matches ?ms db] =>
        apply (users_settled h3d now later db ms ms _
                 (FeedTasks.trade_matches db, 0%nat))
    end.
    auto. }
  rewrite Hfold. cbn [fst snd]. f_equal.
Qed.

(** ** The status of a match and its acceptances *)

Section MatchInvariant.

Import TradeMatch Lifecycle.

(** No operation touches the parties, the listings, the scores or the
    expiry of a match. *)
Lemma step_frame (m : TradeMatch.t) (o : op) :
  participants (step m o) = participants m ∧
  user_ids (step m o) = user_ids m ∧
  listing_ids (step m o) = listing_ids m ∧
  match_score (step m o) = match_score m ∧
  expires_at (step m o) = expires_at m.
Proof.
  destruct o as [u|now u|now u|now|now]; cbn [step].
  - unfold record_view. by destruct (status_eqb _ _).
  - unfold record_acceptance. destruct (forallb _ _); [done|].
    by destruct (_ || _).
  - done.
  - done.
  - unfold FeedTasks.expire. destruct (expires_at m) eqn:E; [|done].
    destruct (_ && _); [|done]. by cbn.
Qed.

End MatchInvariant.

Section AcceptEndpoint.

Import TradeMatch MatchEndpoints.

(** The acceptances that a request of [u] sees: the stored ones and its
    own. *)
Lemma has_accepted_insert (a : gmap N acceptance) (now : Q) (u uid : uuid) :
  has_accepted (<[u := mkAcceptance true None now]> a) uid
  = N.eqb u uid || has_accepted a uid.
Proof.
  unfold has_accepted. destruct (N.eqb_spec u uid) as [->|Hne].
  - by rewrite lookup_insert_eq.
  - by rewrite lookup_insert_ne.
Qed.

(** One request on a row whose [acceptances] already hold an entry. *)
Lemma accept_with_stored_acceptances (i : nat) (u : uuid) (now : Q)
    (table : list t) (m : t) (a : gmap N acceptance) :
  table !! i = Some m → acceptances m = Some a → size a ≠ 0%nat →
  ∃ m',
    accepted i table (u, now) = <[i := m']> table ∧
    acceptances m' = Some a ∧ user_ids m' = user_ids m ∧
    (status m' = ACCEPTED →
     status m = ACCEPTED ∨
     (In u (user_ids m) ∧
      ∀ uid, In uid (user_ids m) → uid = u ∨ has_accepted a uid = true)).
Proof.
  intros Hi Ha Hsize. unfold accepted, accept_trade_match. cbn [fst snd].
  rewrite Hi.
  assert (Hsame : <[i := m]> table = table) by (by apply list_insert_id).
  destruct (existsb (N.eqb u) (user_ids m)) eqn:Hu; cbn [negb].
  - assert (Hacc : has_acceptances m = true).
    { unfold has_acceptances. rewrite Ha. apply negb_true_iff.
      by apply Nat.eqb_neq. }
    unfold flushed. rewrite Hacc. eexists. split; [reflexivity|].
    cbn [acceptances user_ids status]. rewrite Ha.
    destruct (record_acceptance_fields now u m) as (_ & Hids & _).
    split; [done|]. split; [exact Hids|].
    unfold record_acceptance. cbv zeta.
    unfold acceptances_or_empty. rewrite Ha. cbn [default]. unfold id.
    destruct (forallb _ _) eqn:Hall.
    + intros _. right. split.
      * apply existsb_exists in Hu as (x & Hx & E).
        apply N.eqb_eq in E. by subst x.
      * intros uid Hin. cbn [user_ids set_acceptances] in Hall.
        pose proof (proj1 (forallb_forall _ _) Hall uid Hin) as H.
        rewrite has_accepted_insert in H.
        apply orb_true_iff in H as [H|H]; [|by right].
        apply N.eqb_eq in H. by left.
    + cbn [status set_acceptances].
      destruct (status m) eqn:Es; cbn; intros H; try discriminate H;
        try (rewrite Es in H; discriminate H).
      by left.
  - exists m. rewrite Hsame. split; [done|]. split; [done|]. split; [done|].
    by left.
Qed.

End AcceptEndpoint.

(** X12. The accept endpoint keeps only the first acceptance.  Once the
    [acceptances] of a stored match hold an entry, no accept request
    changes the column: [record_acceptance] puts the user's entry into the
    loaded dictionary, and the commit does not write a JSON column that
    was changed in place.  So after any sequence of accept requests the
    stored [acceptances] are the same, and the match is ACCEPTED only if
    it was so before or one of the requests came from a participant
    without whom every other user had accepted in the stored entries: a
    match that lacks the acceptance of two users is never ACCEPTED. *)
Theorem accept_endpoint_keeps_first_acceptance :
  ∀ (match_id : nat) (requests : list (uuid * Q)) (table : list TradeMatch.t)
    (m : TradeMatch.t) (a : gmap N TradeMatch.acceptance),
    table !! match_id = Some m →
    TradeMatch.acceptances m = Some a → size a ≠ 0%nat →
    ∃ m',
      MatchEndpoints.accepted_all match_id requests table
      = <[match_id := m']> table ∧
      TradeMatch.acceptances m' = Some a ∧
      TradeMatch.user_ids m' = TradeMatch.user_ids m ∧
      (TradeMatch.status m' = TradeMatch.ACCEPTED →
       TradeMatch.status m = TradeMatch.ACCEPTED ∨
       ∃ u, In u (map fst requests) ∧ In u (TradeMatch.user_ids m) ∧
            ∀ uid, In uid (TradeMatch.user_ids m) →
                   uid = u ∨ TradeMatch.has_accepted a uid = true) ∧
      ((∃ x y, x ≠ y ∧ In x (TradeMatch.user_ids m) ∧ In y (TradeMatch.user_ids m) ∧
               TradeMatch.has_accepted a x = false ∧
               TradeMatch.has_accepted a y = false) →
       TradeMatch.status m ≠ TradeMatch.ACCEPTED →
       TradeMatch.status m' ≠ TradeMatch.ACCEPTED).
Proof.
  intros i requests. induction requests as [|[u now] rs IH] using rev_ind;
    intros table m a Hi Ha Hsize.
  - exists m. split; [by rewrite list_insert_id|]. split; [done|]. split; [done|].
    split; [by left|]. by intros _ H.
  - destruct (IH table m a Hi Ha Hsize) as (m1 & Ht & Ha1 & Hu1 & Hs1 & _).
    unfold MatchEndpoints.accepted_all in *. rewrite fold_left_app. cbn [fold_left].
    rewrite Ht.
    assert (Hi1 : <[i := m1]> table !! i = Some m1).
    { apply list_lookup_insert_eq. by apply lookup_lt_Some in Hi. }
    destruct (accept_with_stored_acceptances i u now _ m1 a Hi1 Ha1 Hsize)
      as (m2 & Ht2 & Ha2 & Hu2 & Hs2).
    exists m2. rewrite Ht2, list_insert_insert_eq.
    split; [done|]. split; [done|]. split; [congruence|].
    assert (Hacc : TradeMatch.status m2 = TradeMatch.ACCEPTED →
              TradeMatch.status m = TradeMatch.ACCEPTED ∨
              ∃ u0, In u0 (map fst (rs ++ [(u, now)])) ∧
                    In u0 (TradeMatch.user_ids m) ∧
                    ∀ uid, In uid (TradeMatch.user_ids m) →
                           uid = u0 ∨ TradeMatch.has_accepted a uid = true).
    { intros H. destruct (Hs2 H) as [H1|[Hin Hall]].
      - destruct (Hs1 H1) as [?|(u0 & Hu0 & Hrest)]; [by left|].
        right. exists u0. split; [|done].
        rewrite map_app. apply in_or_app. by left.
      - right. exists u. rewrite Hu1 in Hin, Hall. split; [|done].
        rewrite map_app. apply in_or_app. right. by left. }
    split; [exact Hacc|].
    intros (x & y & Hxy & Hx & Hy & Hax & Hay) Hne H.
    destruct (Hacc H) as [?|(u0 & _ & _ & Hall)]; [done|].
    destruct (Hall x Hx) as [->|E]; [|congruence].
    destruct (Hall y Hy) as [->|E]; [done|congruence].
Qed.

(** The accept endpoint on the match of users 1 and 2 that discovery
    has stored.  The acceptance of user 1 is stored and makes the match
    PENDING.  The acceptance of user 2 then makes it ACCEPTED, and the
    stored [acceptances] still hold the entry of user 1 alone. *)
Lemma accept_endpoint_keeps_first_acceptance_witness :
  let table1 := MatchEndpoints.accepted 0 [Sample.suggested_match] (1%N, 60%Q) in
  let table2 := MatchEndpoints.accepted 0 table1 (2%N, 120%Q) in
  ∃ m1 m2 a,
    table1 = [m1] ∧ table2 = [m2] ∧
    TradeMatch.status m1 = TradeMatch.PENDING ∧
    TradeMatch.status m2 = TradeMatch.ACCEPTED ∧
    TradeMatch.acceptances m1 = Some a ∧
    TradeMatch.acceptances m2 = Some a ∧
    a !! 2%N = None.
Proof.
  intros table1 table2.
  destruct (accept_endpoint_keeps_first_acceptance 0 [(2%N, 120%Q)] table1
              (TradeMatch.record_acceptance 60 1 Sample.suggested_match)
              {[ 1%N := TradeMatch.mkAcceptance true None 60 ]}
              eq_refl eq_refl ltac:(rewrite map_size_singleton; lia))
    as (m2 & Ht & Ha & _).
  exists (TradeMatch.record_acceptance 60 1 Sample.suggested_match), m2,
    {[ 1%N := TradeMatch.mkAcceptance true None 60 ]}.
  split; [reflexivity|]. split; [exact Ht|]. split; [reflexivity|].
  split; [|split; [reflexivity|split; [exact Ha|reflexivity]]].
  assert (E : table2 = [m2]) by exact Ht.
  vm_compute in E. injection E as <-. reflexivity.
Defined.

(** ** What the two users of a discovered match see *)

Lemma run_participants (ops : list Lifecycle.op) (m : TradeMatch.t) :
  TradeMatch.participants (Lifecycle.run ops m) = TradeMatch.participants m.
Proof.
  unfold Lifecycle.run.
  apply (fold_left_keeps
           (fun m' => TradeMatch.participants m' = TradeMatch.participants m));
    [|done].
  intros st o H. by destruct (step_frame st o) as (-> & _).
Qed.

Lemma new_two_way_participants (h3_distance : string → string → option Z)
    (now : Q) (user : uuid) (x y : Listing.t) :
  TradeMatch.participants (FeedTasks.new_two_way h3_distance now user x y)
  = [ TradeMatch.mkParticipant user (Listing.id x) (Listing.id y)
        (Listing.title x) (Listing.title y);
      TradeMatch.mkParticipant (Listing.user_id y) (Listing.id y) (Listing.id x)
        (Listing.title y) (Listing.title x) ].
Proof.
  unfold FeedTasks.new_two_way.
  by destruct (Py.truthy (Listing.price x) && Py.truthy (Listing.price y)).
Qed.

(** X13. In a match that discovery built for the listings [x] and [y] of
    two different users, and after any operations on it, each of the two
    users sees their own listing as what they offer, the other's listing
    as what they receive, and one other party: the two views mirror each
    other.  Any third user has no role in the match. *)
Theorem two_way_views_mirror_each_other :
  ∀ (h3_distance : string → string → option Z) (now : Q) (x y : Listing.t)
    (ops : list Lifecycle.op),
    Listing.user_id x ≠ Listing.user_id y →
    let m := Lifecycle.run ops
               (FeedTasks.new_two_way h3_distance now (Listing.user_id x) x y) in
    (∃ v, MatchViews.to_user_view (Listing.user_id x) m = Some v ∧
          MatchViews.you_offer v = (Listing.id x, Listing.title x) ∧
          MatchViews.you_receive v = (Listing.id y, Listing.title y) ∧
          MatchViews.other_parties v = 1%nat) ∧
    (∃ v, MatchViews.to_user_view (Listing.user_id y) m = Some v ∧
          MatchViews.you_offer v = (Listing.id y, Listing.title y) ∧
          MatchViews.you_receive v = (Listing.id x, Listing.title x) ∧
          MatchViews.other_parties v = 1%nat) ∧
    (∀ u, u ≠ Listing.user_id x → u ≠ Listing.user_id y →
          MatchViews.get_user_role u m = None ∧
          MatchViews.to_user_view u m = None).
Proof.
  intros h3d now x y ops Hne m.
  assert (Hp : TradeMatch.participants m
               = [ TradeMatch.mkParticipant (Listing.user_id x) (Listing.id x)
                     (Listing.id y) (Listing.title x) (Listing.title y);
                   TradeMatch.mkParticipant (Listing.user_id y) (Listing.id y)
                     (Listing.id x) (Listing.title y) (Listing.title x) ]).
  { subst m. by rewrite run_participants, new_two_way_participants. }
  unfold MatchViews.to_user_view, MatchViews.get_user_role. rewrite Hp.
  cbn [List.find List.filter TradeMatch.p_user_id].
  rewrite !N.eqb_refl.
  assert (Hxy : N.eqb (Listing.user_id x) (Listing.user_id y) = false)
    by (by apply N.eqb_neq).
  assert (Hyx : N.eqb (Listing.user_id y) (Listing.user_id x) = false)
    by (apply N.eqb_neq; congruence).
  rewrite Hxy, Hyx. cbn [negb length].
  split; [|split].
  - eexists. split; [reflexivity|]. done.
  - eexists. split; [reflexivity|]. done.
  - intros u Hux Huy.
    assert (N.eqb (Listing.user_id x) u = false) as ->
      by (apply N.eqb_neq; congruence).
    assert (N.eqb (Listing.user_id y) u = false) as ->
      by (apply N.eqb_neq; congruence).
    done.
Qed.

Lemma two_way_views_mirror_each_other_witness :
  let x := Sample.listing_a "892a100d2c3ffff" in
  let y := Sample.listing_b "892a100d2c3ffff" in
  ∃ v, MatchViews.to_user_view 2
         (Lifecycle.run [Lifecycle.RecordView 1; Lifecycle.RecordAcceptance 60 2]
            (FeedTasks.new_two_way Sample.h3_distance 0 1 x y)) = Some v ∧
       MatchViews.you_offer v = (20%N, "Dunk Low Panda"%string) ∧
       MatchViews.you_receive v = (10%N, "Jordan 4 Bred"%string).
Proof.
  intros x y.
  destruct (two_way_views_mirror_each_other Sample.h3_distance 0 x y
              [Lifecycle.RecordView 1; Lifecycle.RecordAcceptance 60 2])
    as (_ & (v & Hv & Ho & Hr & _) & _).
  - discriminate.
  - exists v. split; [exact Hv|]. split; [exact Ho|exact Hr].
Defined.

(** ** The cleanup pass *)

Section CleanupPass.

Import Cleanup.

Variable now : Q.

Lemma expire_is_update (m : TradeMatch.t) :
  FeedTasks.expire now m
  = if stale_match now m then TradeMatch.set_status TradeMatch.EXPIRED m else m.
Proof.
  unfold FeedTasks.expire, stale_match. by destruct (TradeMatch.expires_at m).
Qed.

Lemma expire_not_stale (m : TradeMatch.t) :
  stale_match now (FeedTasks.expire now m) = false.
Proof.
  rewrite expire_is_update. destruct (stale_match now m) eqn:E; [|done].
  unfold stale_match. cbn. destruct (TradeMatch.expires_at m); [|done].
  apply andb_false_r.
Qed.

Lemma expire_row_not_stale (r : ListingMethods.row) :
  stale_row now (expire_row now r) = false.
Proof.
  unfold expire_row. destruct (stale_row now r) eqn:E; [|done].
  unfold stale_row. cbn. destruct (ListingMethods.expires_at r); [|done].
  apply andb_false_r.
Qed.

Lemma map_fixed {A} (f : A → A) (xs : list A) :
  Forall (fun x => f x = x) xs → map f xs = xs.
Proof. induction 1 as [|x xs Hx _ IH]; simpl; [done|]. by rewrite Hx, IH. Qed.

Lemma filter_none {A} (p : A → bool) (xs : list A) :
  Forall (fun x => p x = false) xs → List.filter p xs = [].
Proof. induction 1 as [|x xs Hx _ IH]; simpl; [done|]. by rewrite Hx. Qed.

Lemma filter_all {A} (p : A → bool) (xs : list A) :
  Forall (fun x => p x = true) xs → List.filter p xs = xs.
Proof. induction 1 as [|x xs Hx _ IH]; simpl; [done|]. by rewrite Hx, IH. Qed.

Lemma Forall_filter_kept {A} (p : A → bool) (xs : list A) :
  Forall (fun x => p x = true) (List.filter p xs).
Proof.
  apply List.Forall_forall. intros x Hx. by apply List.filter_In in Hx as [_ ?].
Qed.

Lemma Forall_map_all {A B} (P : B → Prop) (f : A → B) (xs : list A) :
  (∀ x, P (f x)) → Forall P (map f xs).
Proof. intros H. induction xs; simpl; constructor; auto. Qed.

End CleanupPass.

(** X14. After a cleanup pass the stored statuses agree with the clock
    of the pass: no event older than seven days is left, no SUGGESTED,
    VIEWED or PENDING match has an [expires_at] before the clock, and no
    ACTIVE listing has one.  Of the columns of a match that the model
    holds (participants, users, listings, scores, acceptances and the
    two timestamps) the pass changes the status only.  The number of
    events it reports is the number of rows it deleted, and a second
    pass at the same time updates no row and reports three zeros. *)
Theorem cleanup_settles_statuses :
  ∀ (now : Q) (st : Cleanup.Store),
    let st' := fst (Cleanup.cleanup_expired_feed_data now st) in
    Forall (fun e => (now - TradeMatch.days 7 <= FeedEvent.created_at e)%Q)
           (Cleanup.events st') ∧
    Forall (fun m =>
              match TradeMatch.status m with
              | TradeMatch.SUGGESTED | TradeMatch.VIEWED | TradeMatch.PENDING =>
                  match TradeMatch.expires_at m with
                  | Some at_ => (now <= at_)%Q
                  | None => True
                  end
              | _ => True
              end) (Cleanup.matches st') ∧
    Forall (fun r =>
              Listing.status (ListingMethods.listing r) = Listing.ACTIVE →
              match ListingMethods.expires_at r with
              | Some at_ => (now <= at_)%Q
              | None => True
              end)
           (Cleanup.rows st') ∧
    map (TradeMatch.set_status TradeMatch.EXPIRED) (Cleanup.matches st')
    = map (TradeMatch.set_status TradeMatch.EXPIRED) (Cleanup.matches st) ∧
    (length (Cleanup.events st') + Cleanup.expired_events
       (snd (Cleanup.cleanup_expired_feed_data now st)))%nat
    = length (Cleanup.events st) ∧
    Cleanup.cleanup_expired_feed_data now st' = (st', Cleanup.mkCounts 0 0 0).
Proof.
  intros now st st'. subst st'. cbn [fst Cleanup.cleanup_expired_feed_data
    Cleanup.events Cleanup.matches Cleanup.rows].
  assert (Hev : Forall (fun e => Cleanup.old_event now e = false)
                  (List.filter (fun e => negb (Cleanup.old_event now e))
                               (Cleanup.events st))).
  { eapply Forall_impl; [apply Forall_filter_kept|].
    intros e He. by apply negb_true_iff. }
  assert (Hms : Forall (fun m => Cleanup.stale_match now m = false)
                  (map (FeedTasks.expire now) (Cleanup.matches st)))
    by (apply Forall_map_all, expire_not_stale).
  assert (Hrs : Forall (fun r => Cleanup.stale_row now r = false)
                  (map (Cleanup.expire_row now) (Cleanup.rows st)))
    by (apply Forall_map_all, expire_row_not_stale).
  assert (Hle : ∀ a b, Py.Qlt_bool a b = false → (b <= a)%Q).
  { intros a b H. apply not_true_iff_false in H. rewrite Qlt_bool_iff in H.
    by apply Qnot_lt_le. }
  split; [|split; [|split; [|split; [|split]]]].
  - eapply Forall_impl; [exact Hev|]. intros e He. cbv beta in He.
    unfold Cleanup.old_event in He. by apply Hle.
  - eapply Forall_impl; [exact Hms|]. intros m Hm. cbv beta in Hm.
    unfold Cleanup.stale_match in Hm.
    destruct (TradeMatch.expires_at m); [|by destruct (TradeMatch.status m)].
    destruct (TradeMatch.status m); try done;
      rewrite andb_true_r in Hm; by apply Hle.
  - eapply Forall_impl; [exact Hrs|]. intros r Hr Ha. cbv beta in Hr.
    unfold Cleanup.stale_row in Hr. rewrite Ha in Hr.
    destruct (ListingMethods.expires_at r); [|done].
    rewrite andb_true_r in Hr. by apply Hle.
  - rewrite map_map. apply map_ext. intros m. rewrite expire_is_update.
    by destruct (Cleanup.stale_match now m).
  - cbn [snd Cleanup.expired_events Cleanup.cleanup_expired_feed_data]. clear Hev.
    induction (Cleanup.events st) as [|e es IH]; simpl; [done|].
    destruct (Cleanup.old_event now e); simpl; lia.
  - unfold Cleanup.cleanup_expired_feed_data.
    cbn [Cleanup.events Cleanup.matches Cleanup.rows].
    rewrite (filter_none (Cleanup.old_event now)) by exact Hev.
    rewrite (filter_none (Cleanup.stale_match now)) by exact Hms.
    rewrite (filter_none (Cleanup.stale_row now)) by exact Hrs.
    cbn [length]. f_equal. f_equal.
    + apply filter_all. eapply Forall_impl; [exact Hev|].
      intros e He. cbv beta in He. by rewrite He.
    + apply map_fixed. eapply Forall_impl; [exact Hms|].
      intros m Hm. cbv beta in Hm. by rewrite expire_is_update, Hm.
    + apply map_fixed. eapply Forall_impl; [exact Hrs|].
      intros r Hr. cbv beta in Hr. unfold Cleanup.expire_row. by rewrite Hr.
Qed.

Lemma filter_filter_weaker {A} (p q : A → bool) (xs : list A) :
  (∀ x, p x = true → q x = true) →
  List.filter p (List.filter q xs) = List.filter p xs.
Proof.
  intros H. induction xs as [|x xs IH]; simpl; [done|].
  destruct (q x) eqn:Eq; simpl.
  - by rewrite IH.
  - destruct (p x) eqn:Ep; [|done]. apply H in Ep. congruence.
Qed.

Lemma filter_map_unseen {A} (p : A → bool) (g : A → A) (xs : list A) :
  (∀ x, p (g x) = p x) → (∀ x, p x = true → g x = x) →
  List.filter p (map g xs) = List.filter p xs.
Proof.
  intros H1 H2. induction xs as [|x xs IH]; simpl; [done|].
  rewrite H1. destruct (p x) eqn:Ep; [|done]. by rewrite (H2 x Ep), IH.
Qed.

Lemma recent_event_not_old (hexes : list string) (types : option (list string))
    (now : Q) (e : FeedEvent.t) :
  Queries.ribbon_filter hexes types now e = true →
  negb (Cleanup.old_event now e) = true.
Proof.
  unfold Queries.ribbon_filter, Cleanup.old_event. intros H.
  apply andb_true_iff in H as [H _]. apply andb_true_iff in H as [H _].
  apply andb_true_iff in H as [_ H]. apply Qle_bool_iff in H.
  apply negb_true_iff, not_true_iff_false. rewrite Qlt_bool_iff.
  unfold Queries.hours in H. unfold TradeMatch.days. lra.
Qed.

Lemma stale_match_unlisted (user : uuid) (status_filter : option TradeMatch.MatchStatus)
    (now : Q) (m : TradeMatch.t) :
  Cleanup.stale_match now m = true →
  Queries.matches_filter user status_filter now m = false ∧
  Queries.matches_filter user status_filter now
    (TradeMatch.set_status TradeMatch.EXPIRED m) = false.
Proof.
  unfold Cleanup.stale_match, Queries.matches_filter. cbn.
  destruct (TradeMatch.expires_at m) as [at_|]; [|done]. intros H.
  apply andb_true_iff in H as [H _]. cbn.
  assert (Py.Qlt_bool now at_ = false) as ->.
  { apply not_true_iff_false. rewrite Qlt_bool_iff.
    apply Qlt_bool_iff in H. lra. }
  cbn. by rewrite !andb_false_r.
Qed.

(** X15. The cleanup pass is invisible to the two read endpoints at the
    time it runs: the activity ribbon never shows an event that the pass
    deletes (it shows the last 24 hours, the pass deletes what is older
    than seven days), and the list of trade matches, with or without a
    status filter, never shows a match that the pass expires (its expiry
    has passed, and the list leaves such matches out).  Both queries give
    the same response before and after the pass. *)
Theorem cleanup_is_invisible_to_queries :
  ∀ (now : Q) (st : Cleanup.Store)
    (search_hexes : list string) (event_types : option (list string))
    (limit : nat) (user : uuid) (status_filter : option TradeMatch.MatchStatus)
    (matches_limit : nat),
    let st' := fst (Cleanup.cleanup_expired_feed_data now st) in
    Queries.ribbon_query search_hexes event_types limit now (Cleanup.events st')
    = Queries.ribbon_query search_hexes event_types limit now (Cleanup.events st) ∧
    Queries.get_trade_matches user status_filter matches_limit now (Cleanup.matches st')
    = Queries.get_trade_matches user status_filter matches_limit now (Cleanup.matches st).
Proof.
  intros now st hexes types limit user sf mlimit st'. subst st'.
  cbn [fst Cleanup.cleanup_expired_feed_data Cleanup.events Cleanup.matches].
  split.
  - unfold Queries.ribbon_query.
    rewrite filter_filter_weaker; [done|]. apply recent_event_not_old.
  - unfold Queries.get_trade_matches.
    rewrite filter_map_unseen; [done| |].
    + intros m. rewrite expire_is_update.
      destruct (Cleanup.stale_match now m) eqn:E; [|done].
      destruct (stale_match_unlisted user sf now m E) as [-> ->]. done.
    + intros m Hm. rewrite expire_is_update.
      destruct (Cleanup.stale_match now m) eqn:E; [|done].
      destruct (stale_match_unlisted user sf now m E) as [H _]. congruence.
Qed.

(** ** The activity ribbon *)

Section OrderBy.

Context {A : Type} (before : A → A → bool).
Hypothesis before_total : ∀ a b, before a b = true ∨ before b a = true.
Hypothesis before_trans :
  ∀ a b c, before a b = true → before b c = true → before a c = true.

Lemma insert_by_perm (x : A) (xs : list A) :
  Permutation (Queries.insert_by before x xs) (x :: xs).
Proof.
  induction xs as [|y ys IH]; simpl; [done|].
  destruct (before x y); [done|].
  rewrite IH. apply perm_swap.
Qed.

Lemma order_by_perm (xs : list A) : Permutation (Queries.order_by before xs) xs.
Proof.
  induction xs as [|x xs IH]; simpl; [done|].
  rewrite insert_by_perm. by constructor.
Qed.

Lemma insert_by_sorted (x : A) (xs : list A) :
  StronglySorted (fun a b => before a b = true) xs →
  StronglySorted (fun a b => before a b = true) (Queries.insert_by before x xs).
Proof.
  induction 1 as [|y ys Hys IH Hy]; simpl.
  - repeat constructor.
  - destruct (before x y) eqn:E.
    + constructor; [by constructor|]. constructor; [done|].
      eapply Forall_impl; [exact Hy|]. intros z Hz. by eapply before_trans.
    + constructor; [done|].
      assert (Hyx : before y x = true) by (destruct (before_total x y); congruence).
      eapply Permutation_Forall; [symmetry; apply insert_by_perm|].
      by constructor.
Qed.

Lemma order_by_sorted (xs : list A) :
  StronglySorted (fun a b => before a b = true) (Queries.order_by before xs).
Proof.
  induction xs as [|x xs IH]; simpl; [constructor|]. by apply insert_by_sorted.
Qed.

(** The first rows of a sorted table come before all the others. *)
Lemma firstn_before_skipn (n : nat) (xs : list A) :
  StronglySorted (fun a b => before a b = true) xs →
  Forall (fun a => Forall (fun b => before a b = true) (skipn n xs)) (firstn n xs).
Proof.
  intros Hs. revert n. induction Hs as [|x xs Hxs IH Hx]; intros n.
  - destruct n; constructor.
  - destruct n; simpl; [constructor|]. constructor; [|apply IH].
    rewrite <- (firstn_skipn n xs) in Hx. by apply Forall_app in Hx as [_ ?].
Qed.

End OrderBy.

Lemma newer_total (a b : FeedEvent.t) :
  Queries.newer a b = true ∨ Queries.newer b a = true.
Proof.
  unfold Queries.newer. rewrite !Qle_bool_iff.
  destruct (Qlt_le_dec (FeedEvent.created_at a) (FeedEvent.created_at b));
    [right|left]; lra.
Qed.

Lemma newer_trans (a b c : FeedEvent.t) :
  Queries.newer a b = true → Queries.newer b c = true → Queries.newer a c = true.
Proof. unfold Queries.newer. rewrite !Qle_bool_iff. lra. Qed.

(** X16. The activity ribbon returns at most [limit] events, newest
    first, each a row of the table that passes the filters (cell, last 24
    hours, event type, not expired); the matching rows it leaves out are
    none of them newer than a row it returns.  [has_more] is true exactly
    when at least [limit] rows match, so also when exactly [limit] rows
    match and nothing more is left to fetch. *)
Theorem ribbon_returns_newest_matching_events :
  ∀ (search_hexes : list string) (event_types : option (list string))
    (limit : nat) (now : Q) (table : list FeedEvent.t),
    let matching :=
      List.filter (Queries.ribbon_filter search_hexes event_types now) table in
    let events := fst (Queries.ribbon_query search_hexes event_types limit now table) in
    let has_more := snd (Queries.ribbon_query search_hexes event_types limit now table) in
    length events = Nat.min limit (length matching) ∧
    StronglySorted
      (fun a b => (FeedEvent.created_at b <= FeedEvent.created_at a)%Q) events ∧
    (∃ left_out,
       Permutation (events ++ left_out) matching ∧
       Forall (fun e => Forall (fun e' => (FeedEvent.created_at e'
                                            <= FeedEvent.created_at e)%Q) left_out)
              events) ∧
    (has_more = true ↔ (limit ≤ length matching)%nat).
Proof.
  intros hexes types limit now table matching events has_more.
  subst events has_more. unfold Queries.ribbon_query. cbn [fst snd].
  fold matching.
  pose proof (order_by_perm Queries.newer matching) as Hperm.
  pose proof (order_by_sorted Queries.newer newer_total newer_trans matching) as Hsorted.
  set (sorted := Queries.order_by Queries.newer matching) in *.
  assert (Hlen : length (firstn limit sorted) = Nat.min limit (length matching)).
  { rewrite length_firstn. by rewrite (Permutation_length Hperm). }
  split; [exact Hlen|]. split; [|split].
  - assert (Hs : StronglySorted
                   (fun a b => (FeedEvent.created_at b <= FeedEvent.created_at a)%Q)
                   sorted).
    { clear -Hsorted. induction Hsorted as [|x xs Hxs IH Hx]; constructor; [done|].
      eapply Forall_impl; [exact Hx|]. intros y Hy. by apply Qle_bool_iff. }
    clear -Hs. revert limit. induction Hs as [|x xs Hxs IH Hx]; intros limit.
    + destruct limit; constructor.
    + destruct limit; simpl; [constructor|]. constructor; [apply IH|].
      rewrite <- (firstn_skipn limit xs) in Hx. by apply Forall_app in Hx as [? _].
  - exists (skipn limit sorted). split.
    + by rewrite firstn_skipn.
    + pose proof (firstn_before_skipn Queries.newer limit sorted Hsorted) as H.
      eapply Forall_impl; [exact H|]. intros e He. cbv beta in He.
      eapply Forall_impl; [exact He|]. intros e' He'. by apply Qle_bool_iff.
  - rewrite Hlen, Nat.eqb_eq. lia.
Qed.

(** ** The channels of a connection to the activity stream *)

Section Channels.

Import ActivityStream.

Variable cell : Type.
Variable geo_to_h3 : Q → Q → Z → cell.
Variable k_ring : cell → Z → list cell.
Variable h3_get_resolution : cell → Z.

Hypothesis resolution_of_point :
  ∀ lat lng res, h3_get_resolution (geo_to_h3 lat lng res) = res.
Hypothesis resolution_of_ring :
  ∀ c k c', In c' (k_ring c k) → h3_get_resolution c' = h3_get_resolution c.

Lemma ring_channel_resolution (lat lng : Q) (k : Z) (c : cell) :
  In (Feed c) (map Feed (k_ring (geo_to_h3 lat lng 7) k)) →
  h3_get_resolution c = 7%Z.
Proof.
  intros H. apply List.in_map_iff in H as (c' & [= ->] & Hin).
  by rewrite (resolution_of_ring _ _ _ Hin), resolution_of_point.
Qed.

Lemma published_resolution (lat lng : Q) :
  ∀ c, published_on geo_to_h3 lat lng = Feed c → h3_get_resolution c = 9%Z.
Proof. intros c [= <-]. apply resolution_of_point. Qed.

End Channels.

(** X17. Which listing events reach a connection of the activity stream.
    The listing endpoints publish on the channel of the listing's cell of
    resolution 9; a connection subscribes to the cells of resolution 7
    around the client, and to the client's own cells of resolution 8 and 9.
    So, whatever the radius, the connection is subscribed to the channel of
    a listing exactly when the listing lies in the client's own cell of
    resolution 9.  After an [update_location] message with non-zero
    coordinates only channels of resolution 7 are left, and the connection
    is subscribed to the channel of no listing; a message whose latitude or
    longitude is 0 or missing leaves the channels as they were. *)
Theorem stream_delivers_only_own_cell :
  ∀ (cell : Type) (geo_to_h3 : Q → Q → Z → cell) (k_ring : cell → Z → list cell)
    (h3_get_resolution : cell → Z),
    (∀ lat lng res, h3_get_resolution (geo_to_h3 lat lng res) = res) →
    (∀ c k c', In c' (k_ring c k) → h3_get_resolution c' = h3_get_resolution c) →
    ∀ (lat lng radius listing_lat listing_lng : Q),
      (In (ActivityStream.published_on geo_to_h3 listing_lat listing_lng)
          (ActivityStream.subscribed geo_to_h3 k_ring lat lng radius)
       ↔ geo_to_h3 listing_lat listing_lng 9%Z = geo_to_h3 lat lng 9%Z) ∧
      (∀ (new_lat new_lng : Q) (channels : list (ActivityStream.channel cell)),
         ¬ (new_lat == 0)%Q → ¬ (new_lng == 0)%Q →
         ¬ In (ActivityStream.published_on geo_to_h3 listing_lat listing_lng)
              (ActivityStream.update_location geo_to_h3 k_ring radius
                 (Some new_lat) (Some new_lng) channels)) ∧
      (∀ (new_lat new_lng : option Q) (channels : list (ActivityStream.channel cell)),
         Py.truthy new_lat = false ∨ Py.truthy new_lng = false →
         ActivityStream.update_location geo_to_h3 k_ring radius
           new_lat new_lng channels = channels).
Proof.
  intros cell geo_to_h3 k_ring res Hpoint Hring lat lng radius llat llng.
  split; [|split].
  - unfold ActivityStream.subscribed, ActivityStream.published_on.
    rewrite !in_app_iff. split.
    + intros [H|[H|H]].
      * apply (ring_channel_resolution cell geo_to_h3 k_ring res Hpoint Hring) in H.
        rewrite Hpoint in H. discriminate.
      * destruct H as [[= H]|[]].
        apply (f_equal res) in H. rewrite !Hpoint in H. discriminate.
      * destruct H as [[= H]|[]]. done.
    + intros ->. right. right. by left.
  - intros nlat nlng chans Hlat Hlng.
    unfold ActivityStream.update_location.
    assert (Py.truthy (Some nlat) = true) as -> by (apply truthy_iff; eauto).
    assert (Py.truthy (Some nlng) = true) as -> by (apply truthy_iff; eauto).
    cbn [andb Py.float]. unfold ActivityStream.published_on. intros H.
    apply (ring_channel_resolution cell geo_to_h3 k_ring res Hpoint Hring) in H.
    rewrite Hpoint in H. discriminate.
  - intros nlat nlng chans [H|H]; unfold ActivityStream.update_location;
      rewrite H; by rewrite ?andb_false_r.
Qed.

Lemma stream_delivers_only_own_cell_witness :
  ¬ In (ActivityStream.published_on GridH3.geo_to_h3 40.7 (-73.2))
       (ActivityStream.subscribed GridH3.geo_to_h3 GridH3.k_ring 40.7 (-74.2) 10).
Proof.
  intros H.
  apply (proj1 (stream_delivers_only_own_cell GridH3.cell GridH3.geo_to_h3
                  GridH3.k_ring GridH3.h3_get_resolution
                  (fun _ _ _ => eq_refl) grid_resolution_of_ring
                  40.7 (-74.2) 10 40.7 (-73.2))) in H.
  discriminate.
Defined.

(** ** The heat-index pass *)

Section HeatPass.

Import HeatUpdate.

Variable h3_to_geo : string → Q * Q.
Variable geo_to_h3 : Q → Q → Z → string.
Variables (now : Q) (saves : list save_row) (events : list event_row)
          (db : FeedTasks.DB).

(** The row of a cell as a lookup finds it. *)
Let lookup (hex : string) (table : list HeatIndex.t) : option HeatIndex.t :=
  List.find (fun h => String.eqb (HeatIndex.h3_index h) hex) table.

(** The row that the pass leaves for a cell. *)
Let written (hex : string) : HeatIndex.t :=
  update_row now saves events db hex (HeatIndex.mk hex None None None None None 0 "cold").

Lemma update_row_written (hex : string) (h : HeatIndex.t) :
  HeatIndex.h3_index h = hex →
  update_row now saves events db hex h = written hex.
Proof. intros <-. reflexivity. Qed.

Lemma lookup_app (hex : string) (l1 l2 : list HeatIndex.t) :
  lookup hex (l1 ++ l2)
  = match lookup hex l1 with Some h => Some h | None => lookup hex l2 end.
Proof.
  unfold lookup. induction l1 as [|x xs IH]; simpl; [done|].
  by destruct (String.eqb _ _).
Qed.

Lemma lookup_none (hex : string) (l : list HeatIndex.t) :
  Forall (fun h => HeatIndex.h3_index h ≠ hex) l → lookup hex l = None.
Proof.
  unfold lookup. induction 1 as [|x xs Hx _ IH]; simpl; [done|].
  apply String.eqb_neq in Hx. by rewrite Hx.
Qed.

Lemma update_hex_spec (table : list HeatIndex.t) (hex : string) :
  NoDup (map HeatIndex.h3_index table) →
  created_h3_index h3_to_geo geo_to_h3 hex = hex →
  let table' := update_hex h3_to_geo geo_to_h3 now saves events db table hex in
  NoDup (map HeatIndex.h3_index table') ∧
  lookup hex table' = Some (written hex) ∧
  (∀ hex', hex' ≠ hex → lookup hex' table' = lookup hex' table).
Proof.
  intros Hnd Hcanon. unfold update_hex, get_or_create.
  destruct (list_find _ table) as [[i h]|] eqn:Ef.
  - apply list_find_Some in Ef as (Hi & Hh & Hfirst).
    pose proof (take_drop_middle _ _ _ Hi) as Hsplit.
    assert (Hlen : length (take i table) = i).
    { apply length_take_le. apply lookup_lt_Some in Hi. lia. }
    set (l1 := take i table) in *. set (l2 := drop (S i) table) in *.
    assert (Halter : alter (update_row now saves events db hex) i table
                     = l1 ++ written hex :: l2).
    { rewrite <- Hsplit at 1. rewrite alter_app_r_alt by lia.
      rewrite Hlen, Nat.sub_diag. simpl. by rewrite update_row_written. }
    assert (Hl1 : Forall (fun h => HeatIndex.h3_index h ≠ hex) l1).
    { apply List.Forall_forall. intros y Hy. apply list_elem_of_In in Hy.
      apply list_elem_of_lookup in Hy as (j & Hj).
      assert (j < i)%nat by (apply lookup_lt_Some in Hj; lia).
      apply (Hfirst j y); [|done].
      subst l1. by rewrite lookup_take_lt in Hj. }
    cbv zeta. rewrite Halter. split; [|split].
    + rewrite <- Hsplit in Hnd. rewrite map_app in *. simpl in *. by rewrite Hh in Hnd.
    + rewrite lookup_app, lookup_none by done. unfold lookup. simpl.
      by rewrite String.eqb_refl.
    + intros hex' Hne. rewrite <- Hsplit. rewrite !lookup_app.
      destruct (lookup hex' l1); [done|]. unfold lookup. simpl.
      rewrite Hh. by replace (String.eqb hex hex') with false
        by (symmetry; apply String.eqb_neq; congruence).
  - apply list_find_None in Ef.
    assert (Halter : alter (update_row now saves events db hex) (length table)
                       (table ++ [HeatIndex.mk (created_h3_index h3_to_geo geo_to_h3 hex)
                                    (Some 0%Q) (Some 0%Q) (Some 0%Q) (Some 0%Q)
                                    (Some 0%Q) 0 "cold"])
                     = table ++ [written hex]).
    { rewrite alter_app_r_alt by lia. rewrite Nat.sub_diag. simpl.
      by rewrite Hcanon. }
    cbv zeta. rewrite Halter. split; [|split].
    + rewrite map_app. simpl. apply NoDup_app. split; [done|]. split.
      * intros x Hx Hx'. apply list_elem_of_singleton in Hx'. subst x.
        apply list_elem_of_fmap in Hx as (h & Hh & Hin).
        by apply (proj1 (Forall_forall _ _) Ef h Hin).
      * apply NoDup_singleton.
    + rewrite lookup_app, lookup_none.
      * unfold lookup. simpl. by rewrite String.eqb_refl.
      * eapply Forall_impl; [exact Ef|]. done.
    + intros hex' Hne. rewrite lookup_app.
      destruct (lookup hex' table); [done|]. unfold lookup. simpl.
      by replace (String.eqb hex hex') with false
        by (symmetry; apply String.eqb_neq; congruence).
Qed.

Lemma update_hexes_spec (hexes : list string) (table : list HeatIndex.t) :
  NoDup (map HeatIndex.h3_index table) →
  Forall (fun hex => created_h3_index h3_to_geo geo_to_h3 hex = hex) hexes →
  let table' := fold_left (update_hex h3_to_geo geo_to_h3 now saves events db)
                          hexes table in
  NoDup (map HeatIndex.h3_index table') ∧
  (∀ hex, In hex hexes → lookup hex table' = Some (written hex)) ∧
  (∀ hex, ¬ In hex hexes → lookup hex table' = lookup hex table).
Proof.
  intros Hnd Hcanon. induction hexes as [|x xs IH] using rev_ind.
  - cbn. split; [done|]. split; [intros hex []|done].
  - apply Forall_app in Hcanon as [Hxs Hx]. apply List.Forall_inv in Hx.
    destruct (IH Hxs) as (I1 & I2 & I3). cbv zeta in *.
    rewrite fold_left_app. simpl.
    destruct (update_hex_spec _ x I1 Hx) as (S1 & S2 & S3). cbv zeta in *.
    split; [done|]. split.
    + intros hex Hin. destruct (String.string_dec hex x) as [->|Hne]; [done|].
      rewrite S3 by done. apply I2. apply in_app_or in Hin as [|[|[]]]; congruence.
    + intros hex Hnot. rewrite S3.
      * apply I3. intros H. apply Hnot. apply in_or_app. by left.
      * intros ->. apply Hnot. apply in_or_app. right. by left.
Qed.

End HeatPass.

(** X18. The heat-index pass, for cells whose centre maps back to the
    cell (cells of resolution 9, as the cells of listings are), and a table
    with one row per cell: the table keeps one row per cell; every cell of
    the pass has a row afterwards, new if there was none; in that row the
    DM velocity is the trade-request velocity (both are written from the
    count of TRADE_REQUEST events) and the view velocity is 0; the rows
    of all other cells are as they were.  The pass reports the number of
    cells it was given, repetitions included. *)
Theorem heat_pass_writes_one_row_per_cell :
  ∀ (h3_to_geo : string → Q * Q) (geo_to_h3 : Q → Q → Z → string)
    (h3_indexes : option (list string)) (now : Q)
    (saves : list HeatUpdate.save_row) (events : list HeatUpdate.event_row)
    (db : FeedTasks.DB),
    NoDup (map HeatIndex.h3_index (FeedTasks.heat_indexes db)) →
    Forall (fun hex => HeatUpdate.created_h3_index h3_to_geo geo_to_h3 hex = hex)
           (HeatUpdate.hexes_to_update h3_indexes now db) →
    let r := HeatUpdate.update_heat_indexes h3_to_geo geo_to_h3 h3_indexes now
               saves events db in
    let row_of := fun (hex : string) (d : FeedTasks.DB) =>
      List.find (fun h => String.eqb (HeatIndex.h3_index h) hex)
                (FeedTasks.heat_indexes d) in
    NoDup (map HeatIndex.h3_index (FeedTasks.heat_indexes (fst r))) ∧
    snd r = length (HeatUpdate.hexes_to_update h3_indexes now db) ∧
    (∀ hex, In hex (HeatUpdate.hexes_to_update h3_indexes now db) →
       ∃ h, row_of hex (fst r) = Some h ∧
            HeatIndex.h3_index h = hex ∧
            HeatIndex.dm_velocity h = HeatIndex.trade_request_velocity h ∧
            HeatIndex.view_velocity h = Some 0%Q) ∧
    (∀ hex, ¬ In hex (HeatUpdate.hexes_to_update h3_indexes now db) →
       row_of hex (fst r) = row_of hex db).
Proof.
  intros h3_to_geo geo_to_h3 h3_indexes now saves events db Hnd Hcanon r row_of.
  destruct (update_hexes_spec h3_to_geo geo_to_h3 now saves events db
              (HeatUpdate.hexes_to_update h3_indexes now db)
              (FeedTasks.heat_indexes db) Hnd Hcanon) as (H1 & H2 & H3).
  split; [exact H1|]. split; [done|]. split.
  - intros hex Hin. eexists. split; [exact (H2 hex Hin)|]. by repeat split.
  - exact H3.
Qed.

Lemma heat_pass_writes_one_row_per_cell_witness :
  let h3_to_geo := fun c : string =>
    if String.eqb c "892a100d2c3ffff" then (40.7%Q, (-74)%Q) else (40.8%Q, (-74)%Q) in
  let geo_to_h3 := fun (lat lng : Q) (res : Z) =>
    if Qeq_bool lat 40.7 then "892a100d2c3ffff"%string else "892a100d2c7ffff"%string in
  ∃ h,
    List.find (fun h => String.eqb (HeatIndex.h3_index h) "892a100d2c3ffff")
      (FeedTasks.heat_indexes
         (fst (HeatUpdate.update_heat_indexes h3_to_geo geo_to_h3 None 1000 [] []
                 Sample.ranking_db)))
    = Some h ∧
    HeatIndex.view_velocity h = Some 0%Q.
Proof.
  intros h3_to_geo geo_to_h3.
  destruct (heat_pass_writes_one_row_per_cell h3_to_geo geo_to_h3 None 1000 [] []
              Sample.ranking_db) as (_ & _ & Hrows & _).
  - apply NoDup_singleton.
  - repeat constructor.
  - destruct (Hrows "892a100d2c3ffff"%string) as (h & Hrow & _ & _ & Hv).
    + left. reflexivity.
    + exists h. split; [exact Hrow|exact Hv].
Defined.

(** ** A sold listing *)

Section Sold.

Import FeedTasks Endpoints Requests.

(** Every handler leaves the database as it is or writes one listing
    (and, for saves, the table of saves); the write keeps the id and the
    owner of the listing, and keeps its status unless it sets SOLD. *)
Lemma handle_shape (r : request) (db : DB) :
  handle db r = db ∨
  ∃ lid f ss,
    handle db r = update_listing lid f (set_listing_saves ss db) ∧
    (∀ l, Listing.id (f l) = Listing.id l) ∧
    (∀ l, Listing.status (f l) = Listing.status l ∨
          Listing.status (f l) = Listing.SOLD).
Proof.
  assert (Hsaves : ∀ lid f, update_listing lid f db
                   = update_listing lid f (set_listing_saves (listing_saves db) db)).
  { intros. by rewrite set_listing_saves_same. }
  destruct r as [lid u|lid u|lid u|lid u p|lid u]; cbn [handle].
  - unfold get_listing. destruct (find_listing db lid); [|by left].
    destruct (negb _); [|by left]. right.
    exists lid, ListingMethods.record_view, (listing_saves db).
    split; [apply Hsaves|]. split; intros; auto.
  - unfold save_listing. destruct (find_listing db lid); [|by left].
    destruct (find_save db lid u); [by left|]. right.
    eexists lid, ListingMethods.record_save, _.
    split; [reflexivity|]. split; intros; auto.
  - unfold unsave_listing. destruct (find_save db lid u); [|by left]. right.
    eexists lid, _, _. split; [reflexivity|]. split; intros; auto.
  - unfold drop_listing_price. destruct (Py.Qlt_bool p 0); [by left|].
    destruct (find_listing db lid) as [l|]; [|by left].
    destruct (negb _); [by left|].
    destruct (Listing.drop_price p l) as [l' dropped].
    destruct (negb dropped); [by left|].
    destruct (event_drop_percent _ _); [|by left].
    destruct (Decimal.numeric_10_2 p) as [stored|]; [|by left]. right.
    exists lid, (store_price_drop p stored), (listing_saves db).
    split; [apply Hsaves|]. split; intros; auto.
  - unfold mark_listing_sold. destruct (find_listing db lid); [|by left].
    destruct (negb _); [by left|]. right.
    exists lid, (ListingMethods.set_status Listing.SOLD), (listing_saves db).
    split; [apply Hsaves|]. split; intros; auto.
Qed.

Lemma handle_all_sold (rs : list request) (db : DB) (lid : uuid) :
  unique_ids db →
  (∃ l, find_listing db lid = Some l ∧ Listing.status l = Listing.SOLD) →
  unique_ids (handle_all rs db) ∧
  ∃ l, find_listing (handle_all rs db) lid = Some l ∧
       Listing.status l = Listing.SOLD.
Proof.
  intros Hids Hsold. unfold handle_all.
  apply (fold_left_keeps
           (fun db => unique_ids db ∧
                      ∃ l, find_listing db lid = Some l ∧
                           Listing.status l = Listing.SOLD)); [|done].
  clear. intros db r (Hids & l & Hl & Hs).
  destruct (handle_shape r db) as [->|(lid' & f & ss & -> & Hid & Hst)]; [eauto|].
  split.
  - unfold unique_ids, update_listing.
    cbn [listings set_listings set_listing_saves]. by rewrite update_first_ids.
  - rewrite find_listing_update by exact Hid.
    change (find_listing (set_listing_saves ss db) lid) with (find_listing db lid).
    rewrite Hl. eexists. split; [reflexivity|].
    destruct (N.eqb lid' lid); [|done].
    destruct (Hst l) as [->| ->]; done.
Qed.

End Sold.

(** X20. Once [mark_listing_sold] has succeeded, the listing is out of
    the market for good.  Whatever requests the listing endpoints serve
    afterwards, its status stays SOLD (no endpoint sets another status,
    while price drops and saves are still accepted); a ranking pass does
    not select it and leaves its row untouched; and a discovery pass adds
    no match that holds the listing.  Listing ids are taken to be
    unique. *)
Theorem sold_listing_leaves_the_market :
  ∀ (listing_id current_user : uuid) (db db' : FeedTasks.DB)
    (s : Listing.ListingStatus) (rs : list Requests.request),
    Requests.unique_ids db →
    Endpoints.mark_listing_sold listing_id current_user db = Endpoints.Returns (db', s) →
    let d := Requests.handle_all rs db' in
    s = Listing.SOLD ∧
    (∃ l, Endpoints.find_listing d listing_id = Some l ∧
          Listing.status l = Listing.SOLD ∧
          ∀ (h3_indexes : option (list string)) (now : Q),
            FeedTasks.selected h3_indexes l = false ∧
            Endpoints.find_listing
              (FeedTasks.committed d
                 (FeedTasks.compute_listing_rankings h3_indexes now d)) listing_id
            = Some l) ∧
    (∀ (h3_distance : string → string → option Z) (user_id : option uuid) (now : Q),
       ∃ added,
         FeedTasks.trade_matches
           (fst (FeedTasks.find_trade_matches h3_distance user_id now d))
         = FeedTasks.trade_matches d ++ added ∧
         Forall (fun m => ¬ In listing_id (TradeMatch.listing_ids m)) added).
Proof.
  intros lid u db db' s rs Hids Hsold d.
  unfold Endpoints.mark_listing_sold in Hsold.
  destruct (Endpoints.find_listing db lid) as [l0|] eqn:El0; [|done].
  destruct (negb _); [done|]. injection Hsold as <- <-.
  assert (Hstart : Requests.unique_ids
                     (Endpoints.update_listing lid
                        (ListingMethods.set_status Listing.SOLD) db) ∧
                   ∃ l, Endpoints.find_listing
                          (Endpoints.update_listing lid
                             (ListingMethods.set_status Listing.SOLD) db) lid = Some l ∧
                        Listing.status l = Listing.SOLD).
  { split.
    - unfold Requests.unique_ids, Endpoints.update_listing.
      cbn [FeedTasks.listings FeedTasks.set_listings]. by rewrite update_first_ids.
    - rewrite find_listing_update, El0 by done. rewrite N.eqb_refl.
      eexists. split; [reflexivity|done]. }
  destruct Hstart as [Hids' Hsold'].
  destruct (handle_all_sold rs _ lid Hids' Hsold') as (Hd & l & Hl & Hs).
  fold d in Hd, Hl. split; [done|]. split.
  - exists l. split; [done|]. split; [done|]. intros h3s now. split.
    + unfold FeedTasks.selected, FeedTasks.is_active. by rewrite Hs.
    + by rewrite ranking_pass_commits_nothing.
  - intros h3d uid now.
    destruct (find_trade_matches_sound h3d now d Hd uid) as (added & H1 & _ & H3).
    exists added. split; [exact H1|].
    eapply Forall_impl; [exact H3|]. intros m (x & y & Hrec & ->).
    destruct (new_two_way_fields h3d now (Listing.user_id x) x y)
      as (_ & _ & _ & -> & _).
    destruct Hrec as (Hx & Hy & _ & _ & Hex & Hey & _).
    apply find_listing_id in Hl as [Hin Hid].
    assert (Hactive : ∀ z, In z (FeedTasks.listings d) →
                           FeedTasks.trade_eligible z = true →
                           Listing.id z ≠ lid).
    { intros z Hz Hez E.
      assert (z = l) as ->
        by (apply (same_id_same_row (FeedTasks.listings d) z l Hd Hz Hin);
            congruence).
      unfold FeedTasks.trade_eligible, FeedTasks.is_active in Hez.
      by rewrite Hs in Hez. }
    intros [E|[E|[]]].
    + by apply (Hactive x Hx Hex).
    + by apply (Hactive y Hy Hey).
Qed.

Lemma sold_listing_leaves_the_market_witness :
  let db := FeedTasks.mkDB [1; 2]%N
              [Sample.listing_a "892a100d2c3ffff"; Sample.listing_b "892a100d2c3ffff"]
              [Listing.mkSave 2 10; Listing.mkSave 1 20] [] [] in
  ∃ l,
    Endpoints.find_listing
      (Requests.handle_all
         [Requests.DropListingPrice 10 1 90; Requests.SaveListing 10 2]
         (Requests.handle db (Requests.MarkListingSold 10 1))) 10
    = Some l ∧
    Listing.status l = Listing.SOLD.
Proof.
  intros db.
  destruct (sold_listing_leaves_the_market 10 1 db
              (Requests.handle db (Requests.MarkListingSold 10 1)) Listing.SOLD
              [Requests.DropListingPrice 10 1 90; Requests.SaveListing 10 2]
              ltac:(apply NoDup_ListNoDup; repeat constructor; simpl;
                    intuition discriminate)
              eq_refl) as (_ & (l & Hl & Hs & _) & _).
  exists l. split; [exact Hl|exact Hs].
Defined.

(** ** Price drops and wishlists *)

Section DropAndWishlist.

Import UserWishlist.

Variable upper : string → string.
Variable float_of_str : string → option float.

Lemma matches_listing_parts (w : UserWishlist.t) (l : Listing.t) :
  matches_listing upper float_of_str w l
  = sku_ok upper w l && brand_ok upper w l && size_ok float_of_str w l
    && price_ok w l && condition_ok w l.
Proof.
  unfold matches_listing.
  destruct (sku_ok upper w l), (brand_ok upper w l), (size_ok float_of_str w l),
    (price_ok w l), (condition_ok w l); reflexivity.
Qed.

Lemma price_ok_after_drop (w : UserWishlist.t) (l : Listing.t) (p : Q) :
  price_ok w l = true → price_ok w (fst (Listing.drop_price p l)) = true.
Proof.
  unfold Listing.drop_price.
  destruct (Py.truthy (Listing.price l)) eqn:Ht; [|done].
  cbn [andb]. destruct (Py.Qlt_bool p (Py.float (Listing.price l))) eqn:Hlt; [|done].
  cbn [fst]. unfold price_ok. cbn [Listing.price Listing.set_prices]. rewrite Ht.
  destruct (Py.truthy (max_price w)); [|done]. cbn [andb Py.float].
  destruct (Py.truthy (Some p)); [|done].
  rewrite !Qle_bool_iff. apply Qlt_bool_iff in Hlt. lra.
Qed.

End DropAndWishlist.

(** X21. A price drop never costs a listing a wishlist: if a listing
    matches a wishlist, it still matches after [drop_price], whether the
    drop is accepted or refused and whatever the new price is. *)
Theorem price_drop_keeps_wishlist_match :
  ∀ (upper : string → string) (float_of_str : string → option float)
    (w : UserWishlist.t) (l : Listing.t) (new_price : Q),
    UserWishlist.matches_listing upper float_of_str w l = true →
    UserWishlist.matches_listing upper float_of_str w
      (fst (Listing.drop_price new_price l)) = true.
Proof.
  intros upper float_of_str w l p.
  rewrite !matches_listing_parts, !andb_true_iff.
  intros ((((Hsku & Hbrand) & Hsize) & Hprice) & Hcond).
  assert (Hsame : ∀ f : Listing.t → bool,
            (∀ a b l0, f (Listing.set_prices a b l0) = f l0) →
            f (fst (Listing.drop_price p l)) = f l).
  { intros f Hf. unfold Listing.drop_price. destruct (_ && _); [apply Hf|done]. }
  repeat split.
  - by rewrite (Hsame (UserWishlist.sku_ok upper w)).
  - by rewrite (Hsame (UserWishlist.brand_ok upper w)).
  - by rewrite (Hsame (UserWishlist.size_ok float_of_str w)).
  - by apply price_ok_after_drop.
  - by rewrite (Hsame (UserWishlist.condition_ok w)).
Qed.

Lemma price_drop_keeps_wishlist_match_witness :
  UserWishlist.matches_listing Sample.upper Sample.float_of_str
    Sample.wishlist_size
    (fst (Listing.drop_price 200
            (Sample.listing 1 1 "Jordan 4 Bred" (Some 250%Q) Listing.BOTH
               "892a100d2c3ffff" 0%Q))) = true.
Proof.
  apply (price_drop_keeps_wishlist_match Sample.upper Sample.float_of_str
           Sample.wishlist_size).
  reflexivity.
Defined.

(** ** The heat endpoint *)

(** X22. [get_neighborhood_heat], a read endpoint that writes: for a
    point whose cell of resolution 9 has its centre in itself, and a table
    with one row per cell, the response is a row of that cell; the table
    keeps its rows and gains at most one, a cold row with score 0, and
    only when the cell had none; it still has one row per cell; and a
    second request for the same point returns the same row and leaves the
    table alone. *)
Theorem heat_endpoint_creates_one_row :
  ∀ (h3_to_geo : string → Q * Q) (geo_to_h3 : Q → Q → Z → string)
    (lat lng : Q) (table : list HeatIndex.t),
    NoDup (map HeatIndex.h3_index table) →
    HeatUpdate.created_h3_index h3_to_geo geo_to_h3 (geo_to_h3 lat lng 9%Z)
    = geo_to_h3 lat lng 9%Z →
    let r := HeatUpdate.get_neighborhood_heat h3_to_geo geo_to_h3 lat lng table in
    (∃ h, snd r = Some h ∧
          HeatIndex.h3_index h = geo_to_h3 lat lng 9%Z ∧
          (fst r = table ∧ In h table ∨
           fst r = table ++ [h] ∧
           Forall (fun h' => HeatIndex.h3_index h' ≠ geo_to_h3 lat lng 9%Z) table ∧
           (HeatIndex.heat_score h == 0)%Q ∧ HeatIndex.heat_level h = "cold"%string)) ∧
    NoDup (map HeatIndex.h3_index (fst r)) ∧
    HeatUpdate.get_neighborhood_heat h3_to_geo geo_to_h3 lat lng (fst r) = r.
Proof.
  intros h3_to_geo geo_to_h3 lat lng table Hnd Hcanon r. subst r.
  unfold HeatUpdate.get_neighborhood_heat, HeatUpdate.get_or_create.
  set (c := geo_to_h3 lat lng 9%Z) in *.
  destruct (list_find _ table) as [[i h]|] eqn:Ef.
  - cbn [fst snd]. rewrite Ef. cbn [fst snd].
    apply list_find_Some in Ef as (Hi & Hh & _).
    split; [|done]. exists h. split; [done|]. split; [done|]. left.
    split; [done|]. apply list_elem_of_In. by eapply list_elem_of_lookup_2.
  - cbn [fst snd]. rewrite Hcanon.
    set (new := HeatIndex.mk c (Some 0%Q) (Some 0%Q) (Some 0%Q) (Some 0%Q)
                  (Some 0%Q) 0 "cold").
    pose proof Ef as Hnone. apply list_find_None in Hnone.
    assert (Hnew : (table ++ [new]) !! length table = Some new).
    { rewrite lookup_app_r by lia. by rewrite Nat.sub_diag. }
    assert (Hfind : list_find (fun h => HeatIndex.h3_index h = c) (table ++ [new])
                    = Some (length table, new)).
    { apply list_find_Some. split; [done|]. split; [done|].
      intros j y Hj Hlt. rewrite lookup_app_l in Hj by done.
      apply (proj1 (Forall_forall _ _) Hnone y).
      by eapply list_elem_of_lookup_2. }
    rewrite Hfind, Hnew. split; [|split; [|done]].
    + exists new. split; [done|]. split; [done|]. right.
      split; [done|]. split; [|done].
      eapply Forall_impl; [exact Hnone|]. done.
    + rewrite map_app. simpl. apply NoDup_app. split; [done|]. split.
      * intros x Hx Hx'. apply list_elem_of_singleton in Hx'. subst x.
        apply list_elem_of_fmap in Hx as (h & Hh & Hin).
        by apply (proj1 (Forall_forall _ _) Hnone h Hin).
      * apply NoDup_singleton.
Qed.

Lemma heat_endpoint_creates_one_row_witness :
  let h3_to_geo := fun c : string =>
    if String.eqb c "892a100d2c3ffff" then (40.7%Q, (-74)%Q) else (40.8%Q, (-74)%Q) in
  let geo_to_h3 := fun (lat lng : Q) (res : Z) =>
    if Qeq_bool lat 40.7 then "892a100d2c3ffff"%string else "892a100d2c7ffff"%string in
  NoDup (map HeatIndex.h3_index
           (fst (HeatUpdate.get_neighborhood_heat h3_to_geo geo_to_h3 40.7 (-74)
                   (FeedTasks.heat_indexes Sample.ranking_db)))).
Proof.
  intros h3_to_geo geo_to_h3.
  refine (proj1 (proj2 (heat_endpoint_creates_one_row h3_to_geo geo_to_h3 40.7 (-74)
                          (FeedTasks.heat_indexes Sample.ranking_db) _ eq_refl))).
  apply NoDup_singleton.
Defined.

(** ** The hyperlocal feed *)

Lemma in_page {A} (limit offset : nat) (xs : list A) (x : A) :
  In x (firstn limit (skipn offset xs)) → In x xs.
Proof.
  intros H. rewrite <- (firstn_skipn offset xs). apply in_or_app. right.
  rewrite <- (firstn_skipn limit (skipn offset xs)). apply in_or_app. by left.
Qed.

Section FeedPages.

Import Feed.

Variable ilike : string → string → bool.

Lemma feed_filter_active c hexes f r :
  feed_filter ilike c hexes f r = true →
  Listing.status (listing r) = Listing.ACTIVE.
Proof.
  unfold feed_filter. rewrite !andb_true_iff. intros [[[[[[[H _] _] _] _] _] _] _].
  by destruct (Listing.status (listing r)).
Qed.

Lemma feed_filter_prices c hexes f r :
  feed_filter ilike c hexes f r = true →
  (∀ lo, min_price f = Some lo →
     ∃ p, Listing.price (listing r) = Some p ∧ (lo <= p)%Q) ∧
  (∀ hi, max_price f = Some hi →
     ∃ p, Listing.price (listing r) = Some p ∧ (p <= hi)%Q).
Proof.
  unfold feed_filter. rewrite !andb_true_iff. intros [[_ Hlo] Hhi]. split.
  - intros lo E. rewrite E in Hlo.
    destruct (Listing.price (listing r)) as [p|]; [|done].
    exists p. split; [done|]. by apply Qle_bool_iff.
  - intros hi E. rewrite E in Hhi.
    destruct (Listing.price (listing r)) as [p|]; [|done].
    exists p. split; [done|]. by apply Qle_bool_iff.
Qed.

End FeedPages.

(** X23. One request to the hyperlocal feed.  [total_count] is the
    number of rows that pass the filters, whatever the sort order and
    the page.  The page holds [min(limit, total_count - offset)] rows,
    each of them a row of the table that passes the filters, and the
    page from offset 0 with room for [total_count] rows holds every such
    row.  Every row of a page has status ACTIVE; with [min_price] or
    [max_price] given it has a price within the bound, so a listing
    without a price is left out.  The filters do not read [expires_at]:
    a row past its expiry stays in the feed for as long as its status
    is ACTIVE. *)
Theorem hyperlocal_feed_pages :
  ∀ (ilike : string → string → bool)
    (geo_to_h3 : Q → Q → Z → string) (k_ring : string → Z → list string)
    (h3_to_parent : string → Z → string)
    (lat lng radius : Q) (f : Feed.filters) (sort_by : string)
    (limit offset : nat) (table : list Feed.feed_row)
    (heat_indexes : list HeatIndex.t),
    let page := fun (sort_by : string) (limit offset : nat) =>
      Feed.get_hyperlocal_feed ilike geo_to_h3 k_ring h3_to_parent lat lng radius
        f sort_by limit offset table heat_indexes in
    let r := page sort_by limit offset in
    (∀ sort_by' limit' offset',
       Feed.total_count (page sort_by' limit' offset') = Feed.total_count r) ∧
    length (Feed.listings r) = Nat.min limit (Feed.total_count r - offset) ∧
    (∃ query,
       Feed.total_count r = length query ∧
       Permutation (Feed.listings (page sort_by (Feed.total_count r) 0%nat)) query ∧
       ∀ x, In x query ↔
            In x table ∧
            Feed.feed_filter ilike
              (fst (Feed.search geo_to_h3 k_ring h3_to_parent lat lng radius))
              (snd (Feed.search geo_to_h3 k_ring h3_to_parent lat lng radius))
              f x = true) ∧
    Forall (fun x =>
              In x table ∧
              Feed.feed_filter ilike
                (fst (Feed.search geo_to_h3 k_ring h3_to_parent lat lng radius))
                (snd (Feed.search geo_to_h3 k_ring h3_to_parent lat lng radius))
                f x = true ∧
              Listing.status (Feed.listing x) = Listing.ACTIVE ∧
              (∀ lo, Feed.min_price f = Some lo →
                 ∃ p, Listing.price (Feed.listing x) = Some p ∧ (lo <= p)%Q) ∧
              (∀ hi, Feed.max_price f = Some hi →
                 ∃ p, Listing.price (Feed.listing x) = Some p ∧ (p <= hi)%Q))
           (Feed.listings r) ∧
    (∀ (expires_at : option Q) (x : Feed.feed_row),
       let x' := Feed.mkFeedRow
                   (ListingMethods.mkRow (Feed.listing x) expires_at
                      (ListingMethods.sold_at (Feed.row x)))
                   (Feed.h3_index_r8 x) (Feed.h3_index_r7 x) in
       Feed.feed_filter ilike
         (fst (Feed.search geo_to_h3 k_ring h3_to_parent lat lng radius))
         (snd (Feed.search geo_to_h3 k_ring h3_to_parent lat lng radius)) f x'
       = Feed.feed_filter ilike
           (fst (Feed.search geo_to_h3 k_ring h3_to_parent lat lng radius))
           (snd (Feed.search geo_to_h3 k_ring h3_to_parent lat lng radius)) f x).
Proof.
  intros ilike geo_to_h3 k_ring h3_to_parent lat lng radius f sort_by limit offset
    table heats page r.
  subst r page. unfold Feed.get_hyperlocal_feed.
  destruct (Feed.search geo_to_h3 k_ring h3_to_parent lat lng radius)
    as [c hexes] eqn:Es.
  cbn [Feed.total_count Feed.listings fst snd].
  set (query := List.filter (Feed.feed_filter ilike c hexes f) table).
  assert (Hperm : ∀ s, Permutation (Queries.order_by (Feed.before s) query) query)
    by (intros; apply order_by_perm).
  assert (Hin : ∀ x, In x (firstn limit (skipn offset
                        (Queries.order_by (Feed.before sort_by) query))) →
                     In x table ∧ Feed.feed_filter ilike c hexes f x = true).
  { intros x Hx. apply List.filter_In.
    apply (Permutation_in _ (Hperm sort_by)). by eapply in_page. }
  split; [done|]. split; [|split; [|split]].
  - rewrite length_firstn, length_skipn. by rewrite (Permutation_length (Hperm sort_by)).
  - exists query. split; [done|]. split.
    + cbn [skipn]. rewrite <- (Permutation_length (Hperm sort_by)).
      rewrite firstn_all. apply Hperm.
    + intros x. apply List.filter_In.
  - apply List.Forall_forall. intros x Hx. destruct (Hin x Hx) as [Hx' Hf].
    split; [done|]. split; [done|].
    split; [by eapply feed_filter_active|]. by eapply feed_filter_prices.
  - intros expires_at x. by destruct c.
Qed.

(** ** A new listing in the feed *)

Lemma kring_size_nonneg (r : Q) : (0 <= r)%Q → (0 ≤ H3Geo.kring_size r)%Z.
Proof.
  intros Hr. unfold H3Geo.kring_size, H3Geo.dict_get. cbn [List.find H3Geo.RADIUS_TO_KRING fst snd].
  repeat (destruct (Qeq_bool _ r); [cbn; lia|]).
  assert (H0 : (0 <= r * 2.5)%Q) by lra.
  destruct (int_floor _ H0) as [_ Hlt].
  assert (Hz : (inject_Z 0 < inject_Z (Py.int (r * 2.5) + 1))%Q).
  { rewrite inject_Z_plus. change (inject_Z 0) with 0%Q. change (inject_Z 1) with 1%Q.
    lra. }
  rewrite <- Zlt_Qlt in Hz. lia.
Qed.

Lemma filter_snoc {A} (p : A → bool) (xs : list A) (x : A) :
  List.filter p (xs ++ [x]) = List.filter p xs ++ (if p x then [x] else []).
Proof. by rewrite List.filter_app. Qed.

Lemma create_listing_returns (geo_to_h3 : Q → Q → Z → string)
    (id current_user : uuid) (now : Q) (listing_data : Feed.ListingCreate)
    (table table' : list Feed.feed_row) (new : Feed.feed_row) :
  Feed.create_listing geo_to_h3 id current_user now listing_data table
  = Endpoints.Returns (table', new) →
  table' = table ++ [new] ∧
  ∃ stored,
    new = Feed.new_row geo_to_h3 id current_user now listing_data stored ∧
    stored = match Feed.new_price listing_data with
             | Some price => Decimal.numeric_10_2 price
             | None => None
             end.
Proof.
  unfold Feed.create_listing.
  destruct (Feed.new_price listing_data) as [price|].
  - destruct (Py.Qlt_bool price 0); [done|].
    destruct (Decimal.numeric_10_2 price) as [stored|]; [|done].
    intros [= <- <-]. split; [done|]. by exists (Some stored).
  - intros [= <- <-]. split; [done|]. by exists None.
Qed.

(** X24. A listing that [create_listing] has stored is found by the
    hyperlocal feed: for a search at the listing's own coordinates with a
    radius of at most 0.5 miles and no filter, [total_count] grows by one
    and the new row is on the page that holds every row.  The row is
    ACTIVE with all counters at 0 and no original price; its price is
    the requested one rounded to cents; its [expires_at] is 30 days
    after the insert, and until then a cleanup pass leaves it ACTIVE.
    With [min_price] given, a new listing without a price does not
    change the [total_count].  (The h3 disk is taken to hold its
    centre.) *)
Theorem new_listing_is_in_the_feed :
  ∀ (ilike : string → string → bool)
    (geo_to_h3 : Q → Q → Z → string) (k_ring : string → Z → list string)
    (h3_to_parent : string → Z → string)
    (id current_user : uuid) (now radius : Q) (listing_data : Feed.ListingCreate)
    (sort_by : string) (table table' : list Feed.feed_row) (new : Feed.feed_row)
    (heat_indexes : list HeatIndex.t),
    (∀ c k, (0 ≤ k)%Z → In c (k_ring c k)) →
    (0 <= radius)%Q → (radius <= 0.5)%Q →
    Feed.create_listing geo_to_h3 id current_user now listing_data table
    = Endpoints.Returns (table', new) →
    let feed := fun (f : Feed.filters) (limit : nat) (t : list Feed.feed_row) =>
      Feed.get_hyperlocal_feed ilike geo_to_h3 k_ring h3_to_parent
        (Feed.latitude listing_data) (Feed.longitude listing_data) radius
        f sort_by limit 0%nat t heat_indexes in
    let no_filter := Feed.mkFilters None None None None None None in
    Feed.total_count (feed no_filter 0%nat table')
    = S (Feed.total_count (feed no_filter 0%nat table)) ∧
    In new (Feed.listings
              (feed no_filter
                 (Feed.total_count (feed no_filter 0%nat table')) table')) ∧
    Listing.status (Feed.listing new) = Listing.ACTIVE ∧
    (Listing.view_count (Feed.listing new), Listing.save_count (Feed.listing new),
     Listing.message_count (Feed.listing new)) = (0%Z, 0%Z, 0%Z) ∧
    Listing.original_price (Feed.listing new) = None ∧
    Listing.price (Feed.listing new)
    = match Feed.new_price listing_data with
      | Some price => Decimal.numeric_10_2 price
      | None => None
      end ∧
    ListingMethods.expires_at (Feed.row new) = Some (now + TradeMatch.days 30)%Q ∧
    (∀ later, (later <= now + TradeMatch.days 30)%Q →
       Cleanup.expire_row later (Feed.row new) = Feed.row new) ∧
    (∀ lo, Feed.new_price listing_data = None →
       Feed.total_count
         (feed (Feed.mkFilters None None None None (Some lo) None) 0%nat table')
       = Feed.total_count
           (feed (Feed.mkFilters None None None None (Some lo) None) 0%nat table)).
Proof.
  intros ilike geo_to_h3 k_ring h3_to_parent id u now radius d sort_by table table'
    new heats Hcentre Hr0 Hr Hcreated feed no_filter.
  apply create_listing_returns in Hcreated as (-> & stored & Hnew & Hprice).
  rewrite <- Hprice.
  assert (Hsearch : Feed.search geo_to_h3 k_ring h3_to_parent
                      (Feed.latitude d) (Feed.longitude d) radius
                    = (Feed.H3_INDEX,
                       k_ring (geo_to_h3 (Feed.latitude d) (Feed.longitude d) 9%Z)
                              (H3Geo.kring_size radius))).
  { unfold Feed.search. by rewrite (proj2 (Qle_bool_iff radius 0.5) Hr). }
  assert (Hcell : existsb
                    (String.eqb (geo_to_h3 (Feed.latitude d) (Feed.longitude d) 9%Z))
                    (k_ring (geo_to_h3 (Feed.latitude d) (Feed.longitude d) 9%Z)
                            (H3Geo.kring_size radius)) = true).
  { apply existsb_exists. eexists. split.
    - apply Hcentre. by apply kring_size_nonneg.
    - apply String.eqb_refl. }
  assert (Hpass : Feed.feed_filter ilike Feed.H3_INDEX
                    (k_ring (geo_to_h3 (Feed.latitude d) (Feed.longitude d) 9%Z)
                            (H3Geo.kring_size radius)) no_filter new = true).
  { unfold Feed.feed_filter. subst no_filter new.
    cbn [Feed.new_row Feed.listing Feed.row ListingMethods.listing
         Listing.status Feed.column Listing.h3_index Feed.brand Feed.size
         Feed.condition Feed.trade_intent Feed.min_price Feed.max_price
         Py.truthy_str].
    rewrite Hcell. reflexivity. }
  subst feed. cbv beta. unfold Feed.get_hyperlocal_feed. rewrite Hsearch.
  cbn [Feed.total_count Feed.listings].
  rewrite !filter_snoc, Hpass.
  split; [|split; [|split; [|split; [|split; [|split; [|split; [|split]]]]]]];
    try (by subst new).
  - rewrite length_app. simpl. lia.
  - rewrite drop_0.
    match goal with
    | |- In _ (firstn (length ?q) (Queries.order_by ?b ?q)) =>
        pose proof (order_by_perm b q) as Hperm;
        rewrite <- (Permutation_length Hperm), firstn_all;
        apply (Permutation_in _ (Permutation_sym Hperm))
    end.
    apply in_or_app. right. by left.
  - intros later Hlater. unfold Cleanup.expire_row, Cleanup.stale_row.
    subst new. cbn [Feed.new_row Feed.row ListingMethods.expires_at].
    destruct (Py.Qlt_bool (now + TradeMatch.days 30) later) eqn:E; [|done].
    apply Qlt_bool_iff in E. lra.
  - intros lo Hnone. rewrite filter_snoc.
    assert (Feed.feed_filter ilike Feed.H3_INDEX
              (k_ring (geo_to_h3 (Feed.latitude d) (Feed.longitude d) 9%Z)
                      (H3Geo.kring_size radius))
              (Feed.mkFilters None None None None (Some lo) None) new = false) as ->.
    { unfold Feed.feed_filter. rewrite Hnone in Hprice. subst new stored.
      cbn [Feed.new_row Feed.listing Feed.row ListingMethods.listing
           Listing.price Feed.min_price].
      by rewrite !andb_false_r. }
    by rewrite app_nil_r.
Qed.

Lemma new_listing_is_in_the_feed_witness :
  let geo_to_h3 := fun (lat lng : Q) (res : Z) =>
    if Qeq_bool lat 40.7 then "892a100d2c3ffff"%string else "892a100d2c7ffff"%string in
  let k_ring := fun (c : string) (k : Z) => [c] in
  let h3_to_parent := fun (c : string) (res : Z) => c in
  let listing_data :=
    Feed.mkCreate "Jordan 4 Bred" "Jordan" None "10" Listing.DS (Some 249.995%Q)
      Listing.BOTH 40.7 (-74) in
  ∃ table' new,
    Feed.create_listing geo_to_h3 99 1 0 listing_data []
    = Endpoints.Returns (table', new) ∧
    Feed.total_count
      (Feed.get_hyperlocal_feed (fun _ _ => true) geo_to_h3 k_ring h3_to_parent
         40.7 (-74) 0.25 (Feed.mkFilters None None None None None None)
         "rank" 0 0 table' [])
    = 1%nat ∧
    Listing.price (Feed.listing new) = Some (inject_Z 25000 / 100)%Q.
Proof.
  intros geo_to_h3 k_ring h3_to_parent listing_data.
  eexists _, _. split; [reflexivity|].
  destruct (new_listing_is_in_the_feed (fun _ _ => true) geo_to_h3 k_ring
              h3_to_parent 99 1 0 0.25 listing_data "rank" [] _ _ []
              ltac:(intros c k _; left; reflexivity)
              ltac:(vm_compute; discriminate) ltac:(vm_compute; discriminate)
              eq_refl)
    as (Hcount & _ & _ & _ & _ & Hprice & _).
  split; [exact Hcount|exact Hprice].
Defined.

(** ** The list of trade matches *)

Lemma better_total (a b : TradeMatch.t) :
  Queries.better a b = true ∨ Queries.better b a = true.
Proof.
  unfold Queries.better.
  destruct (Qlt_le_dec (TradeMatch.match_score b) (TradeMatch.match_score a)) as [H|H].
  - left. apply orb_true_iff. left. by apply Qlt_bool_iff.
  - destruct (Qlt_le_dec (TradeMatch.match_score a) (TradeMatch.match_score b)) as [H'|H'].
    + right. apply orb_true_iff. left. by apply Qlt_bool_iff.
    + assert (E : (TradeMatch.match_score a == TradeMatch.match_score b)%Q) by lra.
      destruct (Z.le_ge_cases (TradeMatch.locality_score b) (TradeMatch.locality_score a)).
      * left. apply orb_true_iff. right. apply andb_true_iff. split.
        -- by apply Qeq_bool_iff.
        -- by apply Z.leb_le.
      * right. apply orb_true_iff. right. apply andb_true_iff. split.
        -- apply Qeq_bool_iff. by symmetry.
        -- by apply Z.leb_le.
Qed.

Lemma better_score (a b : TradeMatch.t) :
  Queries.better a b = true →
  (TradeMatch.match_score b <= TradeMatch.match_score a)%Q.
Proof.
  unfold Queries.better. intros H. apply orb_true_iff in H as [H|H].
  - apply Qlt_bool_iff in H. lra.
  - apply andb_true_iff in H as [H _]. apply Qeq_bool_iff in H. lra.
Qed.

Lemma better_trans (a b c : TradeMatch.t) :
  Queries.better a b = true → Queries.better b c = true →
  Queries.better a c = true.
Proof.
  unfold Queries.better. rewrite !orb_true_iff, !andb_true_iff, !Qlt_bool_iff,
    !Qeq_bool_iff, !Z.leb_le.
  intros [H1|[H1 L1]] [H2|[H2 L2]].
  - left. lra.
  - left. lra.
  - left. lra.
  - right. split; [lra|lia].
Qed.

(** X25. [get_trade_matches] returns at most [limit] rows, in
    descending order of [match_score]; each holds the user in [user_ids],
    has the status asked for (one of SUGGESTED, VIEWED, PENDING and
    ACCEPTED when none is asked for) and has no [expires_at] or one
    after the clock of the request.  [total_count] is the number of rows
    returned, not of rows that match, so it never exceeds [limit].  With
    the status filter EXPIRED, a table in which every EXPIRED match has
    an [expires_at] that is not after the clock, as the cleanup pass
    leaves them, gives an empty list. *)
Theorem trade_matches_list :
  ∀ (user : uuid) (status_filter : option TradeMatch.MatchStatus) (limit : nat)
    (now : Q) (table : list TradeMatch.t),
    let r := Queries.get_trade_matches user status_filter limit now table in
    snd r = length (fst r) ∧ (snd r ≤ limit)%nat ∧
    StronglySorted
      (fun a b => (TradeMatch.match_score b <= TradeMatch.match_score a)%Q)
      (map fst (fst r)) ∧
    Forall (fun mv =>
              In (fst mv) table ∧
              In user (TradeMatch.user_ids (fst mv)) ∧
              match status_filter with
              | Some s => TradeMatch.status (fst mv) = s
              | None => Lifecycle.terminal (TradeMatch.status (fst mv)) = false
              end ∧
              match TradeMatch.expires_at (fst mv) with
              | Some at_ => (now < at_)%Q
              | None => True
              end ∧
              snd mv = MatchViews.to_user_view user (fst mv))
           (fst r) ∧
    (status_filter = Some TradeMatch.EXPIRED →
     Forall (fun m => TradeMatch.status m = TradeMatch.EXPIRED →
                      ∃ at_, TradeMatch.expires_at m = Some at_ ∧
                             (at_ <= now)%Q) table →
     fst r = []).
Proof.
  intros user sf limit now table r. subst r. unfold Queries.get_trade_matches.
  cbn [fst snd].
  set (query := List.filter (Queries.matches_filter user sf now) table).
  pose proof (order_by_perm Queries.better query) as Hperm.
  pose proof (order_by_sorted Queries.better better_total better_trans query) as Hsorted.
  set (sorted := Queries.order_by Queries.better query) in *.
  assert (Hpass : ∀ m, In m (firstn limit sorted) →
                       In m table ∧ Queries.matches_filter user sf now m = true).
  { intros m Hm. apply List.filter_In. apply (Permutation_in _ Hperm).
    rewrite <- (firstn_skipn limit sorted). apply in_or_app. by left. }
  split; [done|]. split; [|split; [|split]].
  - rewrite length_map, length_firstn. lia.
  - rewrite map_map. cbn [fst]. rewrite map_id.
    assert (Hs : StronglySorted
                   (fun a b => (TradeMatch.match_score b <= TradeMatch.match_score a)%Q)
                   sorted).
    { clear -Hsorted. induction Hsorted as [|x xs Hxs IH Hx]; constructor; [done|].
      eapply Forall_impl; [exact Hx|]. intros y Hy. by apply better_score. }
    clear -Hs. revert limit. induction Hs as [|x xs Hxs IH Hx]; intros limit.
    + destruct limit; constructor.
    + destruct limit; simpl; [constructor|]. constructor; [apply IH|].
      rewrite <- (firstn_skipn limit xs) in Hx. by apply Forall_app in Hx as [? _].
  - apply List.Forall_forall. intros [m v] Hmv.
    apply List.in_map_iff in Hmv as (m' & [= <- <-] & Hm).
    destruct (Hpass m' Hm) as [Hin Hf]. cbn [fst snd].
    unfold Queries.matches_filter in Hf.
    apply andb_true_iff in Hf as [Hf Hexp]. apply andb_true_iff in Hf as [Hu Hst].
    split; [done|]. split; [|split; [|split; [|done]]].
    + unfold FeedTasks.array_contains in Hu. cbn in Hu.
      rewrite andb_true_r in Hu. apply existsb_exists in Hu as (x & Hx & E).
      apply N.eqb_eq in E. by subst x.
    + destruct sf as [s|].
      * by destruct (TradeMatch.status m'), s.
      * by destruct (TradeMatch.status m').
    + destruct (TradeMatch.expires_at m') as [at_|]; [|done]. cbn in Hexp.
      destruct (Py.Qlt_bool now at_) eqn:E; [|done]. by apply Qlt_bool_iff in E.
  - intros -> Hall.
    assert (Hq : query = []).
    { subst query. apply filter_none. eapply Forall_impl; [exact Hall|].
      intros m Hm. cbv beta in Hm. unfold Queries.matches_filter.
      destruct (TradeMatch.status_eqb (TradeMatch.status m) TradeMatch.EXPIRED) eqn:Es;
        [|by rewrite andb_false_r].
      assert (Hst : TradeMatch.status m = TradeMatch.EXPIRED)
        by (by destruct (TradeMatch.status m)).
      destruct (Hm Hst) as (at_ & -> & Hle). cbn.
      assert (Py.Qlt_bool now at_ = false) as ->.
      { apply not_true_iff_false. rewrite Qlt_bool_iff. lra. }
      by rewrite andb_false_r. }
    subst sorted. rewrite Hq. cbn. by destruct limit.
Qed.

(** ** The expiry checks of the models *)

